(** * Node-App: a message board (Express backend, browser client)

    A shallow embedding of [src/backend/server.js] and of
    [src/frontend/script.js], with the theorems that settle the
    specification's claims about them.

    Layout: the JavaScript values the program manipulates ([Js]), the JSON
    text format of the data file ([Json]), the [Date] built-ins the program
    uses ([JsDate]), the server itself ([Server]), the client helper
    ([Client]), the middleware, the set-up and the rest of the client
    ([Middleware], [Startup], [Browser]); then the theory.

    Numbers are the language's doubles: integers, fractions with a power of 2
    below, the infinities and NaN, every result of arithmetic rounded to the
    nearest of them.  Paths are matched as Express matches them: letters
    without their case, a last slash allowed, the parameter decoded. *)

From Stdlib Require Import ZArith NArith List String Ascii Bool Lia.
From Stdlib Require Import DecimalString DecimalPos DecimalZ.
From Stdlib Require Import Permutation Sorted.
Import ListNotations.

Local Open Scope Z_scope.
Set Warnings "-register-all".

(* ================================================================== *)
(** * JavaScript values *)
(* ================================================================== *)

Module Js.

(** A JavaScript string is a sequence of UTF-16 code units. *)
Definition char := N.
Bind Scope N_scope with char.
Definition jsstring := list char.

Definition ch (a : ascii) : char := N_of_ascii a.

(** [u "abc"] is the JavaScript string literal ['abc']. *)
Definition u (s : string) : jsstring := map N_of_ascii (list_ascii_of_string s).

Definition dquote : char := 34%N.
Definition backslash : char := 92%N.

Definition char_eqb (a b : char) : bool := N.eqb a b.

Definition str_eqb (a b : jsstring) : bool :=
  if list_eq_dec N.eq_dec a b then true else false.

(** Numbers are IEEE 754 doubles: NaN, the two infinities, and the finite
    values, each of which is an integer or an odd multiple of a negative power
    of two.  [Frac n k] is [(2n+1) / 2^k].  The two zeros are one value: the
    program does nothing that tells them apart.  The results of arithmetic are
    rounded to the nearest double ([round_ratio] below). *)
Inductive number :=
| NaN
| Num (z : Z)
| Frac (n : Z) (k : positive)
| Inf (negative : bool).

Inductive JsVal :=
| VUndefined
| VNull
| VBool (b : bool)
| VNum (n : number)
| VStr (s : jsstring)
| VArr (items : list JsVal)
| VObj (props : list (jsstring * JsVal)).

(** Exceptions.  Only the kind is kept; the message text is the engine's.
    [ParamError val] is the error Express makes of a route parameter [val]
    that [decodeURIComponent] refuses; its message is Express's. *)
Inductive Error :=
| TypeError | RangeError | SyntaxError | IOError
| ParamError (val : jsstring).

Inductive Exc (A : Type) :=
| Ok (a : A)
| Throw (e : Error).
Arguments Ok {A} a.
Arguments Throw {A} e.

(** What the host (V8, Node) determines and the model leaves open: the value
    of a string that is not a run of decimal digits, the number made of a
    decimal numeral of more than 20 significant digits (the standard lets an
    engine drop the digits after the 20th), the digits of a number that is not
    an integer below 2^53, the date formats [Date.parse] accepts besides the
    ISO format, and the message text of a thrown error. *)
Class Engine := {
  StringToNumber_other : jsstring -> number;
  long_numeral : Z -> number;
  Number_toString_other : number -> jsstring;
  Date_parse_other : jsstring -> number;
  error_message : Error -> jsstring
}.

(** ** Strings *)

(** WhiteSpace and LineTerminator code points, as [String.prototype.trim]
    strips them. *)
Definition is_whitespace (c : char) : bool :=
  let c := Z.of_N c in
  (9 <=? c) && (c <=? 13)
  || (c =? 32) || (c =? 160) || (c =? 5760)
  || (8192 <=? c) && (c <=? 8202)
  || (c =? 8232) || (c =? 8233) || (c =? 8239) || (c =? 8287)
  || (c =? 12288) || (c =? 65279).

Fixpoint trimStart (s : jsstring) : jsstring :=
  match s with
  | [] => []
  | c :: s' => if is_whitespace c then trimStart s' else s
  end.

Definition trimEnd (s : jsstring) : jsstring := rev (trimStart (rev s)).

Definition trim (s : jsstring) : jsstring := trimEnd (trimStart s).

(** [s.replace(/c/g, r)] for a pattern that is one literal character. *)
Fixpoint replace_all (c : char) (r s : jsstring) : jsstring :=
  match s with
  | [] => []
  | a :: s' =>
      if char_eqb a c then r ++ replace_all c r s' else a :: replace_all c r s'
  end.

(** [parts.join(sep)] *)
Fixpoint join (sep : jsstring) (parts : list jsstring) : jsstring :=
  match parts with
  | [] => []
  | [p] => p
  | p :: rest => p ++ sep ++ join sep rest
  end.

(** ** Rounding *)

(** [n / 2^k] in its one form. *)
Fixpoint dyadic (n : Z) (k : nat) : number :=
  match k with
  | O => Num n
  | S k' => if Z.even n then dyadic (n / 2) k'
            else Frac ((n - 1) / 2) (Pos.of_succ_nat k')
  end.

(** The double nearest to [n / d], for [d > 0]: the quotient is cut to 53
    binary digits, or to a multiple of 2^-1074 when it is smaller than 2^-1022,
    what is cut off rounds to the nearer neighbour and, half way, to the even
    one; a result of 2^1024 or more is an infinity.  [e] is the exponent of
    the quotient, [2^e <= |n| / d < 2^(e+1)], and [p] that of its last kept
    digit. *)
Definition round_ratio (n d : Z) : number :=
  let a := Z.abs n in
  if a =? 0 then Num 0
  else
    let e0 := Z.log2 a - Z.log2 d in
    let e := if a * 2 ^ Z.max 0 (- e0) <? d * 2 ^ Z.max 0 e0 then e0 - 1 else e0 in
    let p := Z.max (e - 52) (-1074) in
    let num := a * 2 ^ Z.max 0 (- p) in
    let den := d * 2 ^ Z.max 0 p in
    let q := num / den in
    let r := num mod den in
    let q' := if (2 * r <? den) || ((2 * r =? den) && Z.even q) then q else q + 1 in
    if 0 <=? p then
      if q' * 2 ^ p <? 2 ^ 1024 then Num (Z.sgn n * q' * 2 ^ p) else Inf (n <? 0)
    else dyadic (Z.sgn n * q') (Z.to_nat (- p)).

(** The double nearest to an integer; an integer below 2^53 is a double as it
    is. *)
Definition round_Z (z : Z) : number :=
  if Z.abs z <? 2 ^ 53 then Num z else round_ratio z 1.

(** A finite number as the fraction [fst / 2^snd]. *)
Definition fraction (x : number) : option (Z * Z) :=
  match x with
  | Num z => Some (z, 0)
  | Frac n k => Some (2 * n + 1, Z.pos k)
  | NaN | Inf _ => None
  end.

(** ** Numbers and strings *)

(** The decimal digits of an integer, with a leading minus sign when it is
    negative. *)
Definition decimal (z : Z) : jsstring :=
  u (NilZero.string_of_int (Z.to_int z)).

Definition is_digit (c : char) : bool := ((48 <=? c) && (c <=? 57))%N.

Definition digits_value (ds : jsstring) : Z :=
  fold_left (fun acc c => acc * 10 + (Z.of_N c - 48)) ds 0.

Definition hex_value (c : char) : option N :=
  if is_digit c then Some (c - 48)%N
  else if ((97 <=? c) && (c <=? 102))%N then Some (c - 87)%N
  else if ((65 <=? c) && (c <=? 70))%N then Some (c - 55)%N
  else None.

(** ** [decodeURIComponent] *)

(** A string cut into its characters and its escapes [%XX], an escape being
    the octet it denotes; [None] when a [%] is not followed by two hexadecimal
    digits. *)
Inductive UriItem :=
| Plain (c : char)
| Octet (b : N).

Fixpoint uri_items (s : jsstring) : option (list UriItem) :=
  match s with
  | [] => Some []
  | c :: s' =>
      if char_eqb c (ch "%") then
        match s' with
        | a :: b :: s'' =>
            match hex_value a, hex_value b, uri_items s'' with
            | Some x, Some y, Some rest => Some (Octet (16 * x + y) :: rest)
            | _, _, _ => None
            end
        | _ => None
        end
      else
        match uri_items s' with
        | Some rest => Some (Plain c :: rest)
        | None => None
        end
  end.

(** UTF-16 for a code point. *)
Definition utf16 (cp : N) : jsstring :=
  (if cp <? 65536 then [cp]
   else [55296 + (cp - 65536) / 1024; 56320 + (cp - 65536) mod 1024])%N.

(** The characters the items denote: a plain character is itself, an octet
    below 128 is that character, the octets of a well-formed UTF-8 sequence
    are the code point they encode; [None] on octets that are no such
    sequence.  [pending] is the sequence begun: the bits read so far, the
    number of octets still to come, and the least code point a sequence of
    its length encodes. *)
Fixpoint uri_chars (pending : option (N * nat * N)) (items : list UriItem)
  : option jsstring :=
  match items with
  | [] => match pending with None => Some [] | Some _ => None end
  | item :: rest =>
      match pending, item with
      | None, Plain c => option_map (cons c) (uri_chars None rest)
      | None, Octet b =>
          if (b <? 128)%N then option_map (cons b) (uri_chars None rest)
          else if (b <? 192)%N then None
          else if (b <? 224)%N then uri_chars (Some (b - 192, 1%nat, 128)%N) rest
          else if (b <? 240)%N then uri_chars (Some (b - 224, 2%nat, 2048)%N) rest
          else if (b <? 248)%N then uri_chars (Some (b - 240, 3%nat, 65536)%N) rest
          else None
      | Some (bits, S more, least), Octet b =>
          if ((128 <=? b) && (b <? 192))%N then
            let bits := (bits * 64 + (b - 128))%N in
            match more with
            | O =>
                if ((least <=? bits) && (bits <=? 1114111)
                    && negb ((55296 <=? bits) && (bits <=? 57343)))%N
                then option_map (Datatypes.app (utf16 bits)) (uri_chars None rest)
                else None
            | S _ => uri_chars (Some (bits, more, least)) rest
            end
          else None
      | Some _, _ => None
      end
  end.

(** [decodeURIComponent(s)]; [None] is a URIError. *)
Definition decodeURIComponent (s : jsstring) : option jsstring :=
  match uri_items s with
  | Some items => uri_chars None items
  | None => None
  end.

Section WithEngine.
Context {E : Engine}.

(** Number::toString writes the fewest digits that read back as the number:
    for an integer below 2^53 they are its decimal digits. *)
Definition Number_toString (n : number) : jsstring :=
  match n with
  | NaN => u "NaN"
  | Num z => if Z.abs z <? 2 ^ 53 then decimal z else Number_toString_other n
  | Frac _ _ => Number_toString_other n
  | Inf false => u "Infinity"
  | Inf true => u "-Infinity"
  end.

(** StringToNumber: the white space around the numeral is dropped; an empty
    string is 0; a run of decimal digits after an optional sign is the double
    nearest to that integer. *)
Definition StringToNumber (s : jsstring) : number :=
  match trim s with
  | [] => Num 0
  | c :: r =>
      let (sign, ds) :=
        if char_eqb c (ch "-") then (-1, r)
        else if char_eqb c (ch "+") then (1, r) else (1, c :: r) in
      match ds with
      | [] => StringToNumber_other s
      | _ =>
          if forallb is_digit ds then
            if digits_value ds <? 10 ^ 20 then round_Z (sign * digits_value ds)
            else long_numeral (sign * digits_value ds)
          else StringToNumber_other s
      end
  end.

(** ** Coercions *)

(** ToBoolean *)
Definition truthy (v : JsVal) : bool :=
  match v with
  | VUndefined | VNull => false
  | VBool b => b
  | VNum NaN => false
  | VNum (Num z) => negb (z =? 0)
  | VNum (Frac _ _) | VNum (Inf _) => true
  | VStr s => match s with [] => false | _ => true end
  | VArr _ | VObj _ => true
  end.

(** ToString.  An array prints as its elements joined by commas, [null] and
    [undefined] elements as the empty string; a plain object prints as
    [[object Object]]. *)
Fixpoint ToString (v : JsVal) : jsstring :=
  match v with
  | VUndefined => u "undefined"
  | VNull => u "null"
  | VBool true => u "true"
  | VBool false => u "false"
  | VNum n => Number_toString n
  | VStr s => s
  | VArr items =>
      join (u ",")
        (map (fun x => match x with
                       | VUndefined | VNull => []
                       | _ => ToString x
                       end) items)
  | VObj _ => u "[object Object]"
  end.

(** ToNumber.  Arrays and objects go through ToPrimitive, which yields their
    string. *)
Definition ToNumber (v : JsVal) : number :=
  match v with
  | VUndefined => NaN
  | VNull => Num 0
  | VBool true => Num 1
  | VBool false => Num 0
  | VNum n => n
  | VStr s => StringToNumber s
  | VArr _ | VObj _ => StringToNumber (ToString v)
  end.

(** The global [isNaN(v)] *)
Definition isNaN (v : JsVal) : bool :=
  match ToNumber v with NaN => true | _ => false end.

(** [a < b], [a >= b], [a * b], [a - b] on numbers: a comparison with NaN is
    false, arithmetic on NaN is NaN, the exact result of arithmetic on finite
    numbers is rounded. *)
Definition num_lt (a b : number) : bool :=
  match a, b with
  | Num x, Num y => x <? y
  | NaN, _ | _, NaN => false
  | Inf s, Inf s' => s && negb s'
  | Inf s, _ => s
  | _, Inf s' => negb s'
  | _, _ =>
      match fraction a, fraction b with
      | Some (n1, k1), Some (n2, k2) => n1 * 2 ^ k2 <? n2 * 2 ^ k1
      | _, _ => false
      end
  end.

Definition num_ge (a b : number) : bool :=
  match a, b with
  | Num x, Num y => y <=? x
  | NaN, _ | _, NaN => false
  | Inf s, Inf s' => negb s || s'
  | Inf s, _ => negb s
  | _, Inf s' => s'
  | _, _ =>
      match fraction a, fraction b with
      | Some (n1, k1), Some (n2, k2) => n2 * 2 ^ k1 <=? n1 * 2 ^ k2
      | _, _ => false
      end
  end.

(** Whether a finite number is zero, positive or negative. *)
Definition sign_of (x : number) : option comparison :=
  match fraction x with
  | Some (n, _) => Some (n ?= 0)
  | None => None
  end.

Definition num_mul (a b : number) : number :=
  match a, b with
  | Num x, Num y => round_Z (x * y)
  | NaN, _ | _, NaN => NaN
  | Inf s, Inf s' => Inf (xorb s s')
  | Inf s, y | y, Inf s =>
      match sign_of y with
      | Some Gt => Inf s
      | Some Lt => Inf (negb s)
      | _ => NaN
      end
  | _, _ =>
      match fraction a, fraction b with
      | Some (n1, k1), Some (n2, k2) => round_ratio (n1 * n2) (2 ^ (k1 + k2))
      | _, _ => NaN
      end
  end.

Definition num_sub (a b : number) : number :=
  match a, b with
  | Num x, Num y => round_Z (x - y)
  | NaN, _ | _, NaN => NaN
  | Inf s, Inf s' => if Bool.eqb s s' then NaN else Inf s
  | Inf s, _ => Inf s
  | _, Inf s' => Inf (negb s')
  | _, _ =>
      match fraction a, fraction b with
      | Some (n1, k1), Some (n2, k2) =>
          round_ratio (n1 * 2 ^ k2 - n2 * 2 ^ k1) (2 ^ (k1 + k2))
      | _, _ => NaN
      end
  end.

(** [a / b] for a positive integer [b], and [Math.floor]. *)
Definition num_div (a : number) (b : Z) : number :=
  match a with
  | NaN => NaN
  | Inf s => Inf s
  | Num x => round_ratio x b
  | Frac n k => round_ratio (2 * n + 1) (b * 2 ^ Z.pos k)
  end.

Definition Math_floor (x : number) : number :=
  match x with
  | Frac n k => Num ((2 * n + 1) / 2 ^ Z.pos k)
  | _ => x
  end.

(** [v < 0] for a value [v]: the right operand is a number, so the comparison
    is numeric. *)
Definition lt_zero (v : JsVal) : bool := num_lt (ToNumber v) (Num 0).

(** ** Property access and array methods *)

Fixpoint lookup (k : jsstring) (props : list (jsstring * JsVal)) : option JsVal :=
  match props with
  | [] => None
  | (k', v) :: rest => if str_eqb k' k then Some v else lookup k rest
  end.

(** [v.k] for a data key [k] (one that no prototype defines: [id], [text],
    [timestamp], [hours]): the own property of an object, [undefined] on every
    other value but [null] and [undefined], on which the access throws. *)
Definition get (v : JsVal) (k : jsstring) : Exc JsVal :=
  match v with
  | VUndefined | VNull => Throw TypeError
  | VObj props => Ok (match lookup k props with Some x => x | None => VUndefined end)
  | _ => Ok VUndefined
  end.

(** [a !== b] where [b] is a string. *)
Definition strict_neq_str (a : JsVal) (b : jsstring) : bool :=
  match a with
  | VStr s => negb (str_eqb s b)
  | _ => true
  end.

(** [items.filter(f)] where the callback may throw: the first exception ends
    the loop. *)
Fixpoint filterE (f : JsVal -> Exc bool) (items : list JsVal) : Exc (list JsVal) :=
  match items with
  | [] => Ok []
  | x :: rest =>
      match f x with
      | Throw e => Throw e
      | Ok b =>
          match filterE f rest with
          | Throw e => Throw e
          | Ok kept => Ok (if b then x :: kept else kept)
          end
      end
  end.

End WithEngine.

End Js.

(* ================================================================== *)
(** * JSON text: [JSON.stringify(value, null, 2)] and [JSON.parse] *)
(* ================================================================== *)

Module Json.
Import Js.

(** ** Serialisation *)

Definition hex_digit (d : N) : char :=
  if (d <? 10)%N then (48 + d)%N else (87 + d)%N.

(** [\uXXXX] with four lowercase hexadecimal digits. *)
Definition unicode_escape (c : char) : jsstring :=
  [backslash; ch "u";
   hex_digit ((c / 4096) mod 16); hex_digit ((c / 256) mod 16);
   hex_digit ((c / 16) mod 16); hex_digit (c mod 16)]%N.

Definition is_high_surrogate (c : char) : bool := ((55296 <=? c) && (c <=? 56319))%N.
Definition is_low_surrogate (c : char) : bool := ((56320 <=? c) && (c <=? 57343))%N.

(** One code unit that is not a surrogate, as QuoteJSONString writes it. *)
Definition quote_char (c : char) : jsstring :=
  if char_eqb c 8 then [backslash; ch "b"]
  else if char_eqb c 9 then [backslash; ch "t"]
  else if char_eqb c 10 then [backslash; ch "n"]
  else if char_eqb c 12 then [backslash; ch "f"]
  else if char_eqb c 13 then [backslash; ch "r"]
  else if char_eqb c dquote then [backslash; dquote]
  else if char_eqb c backslash then [backslash; backslash]
  else if (c <? 32)%N then unicode_escape c
  else [c].

(** The string is read by code points: a surrogate pair is written as it is,
    a lone surrogate as an escape. *)
Fixpoint quote_chars (s : jsstring) : jsstring :=
  match s with
  | [] => []
  | c :: s' =>
      if is_high_surrogate c then
        match s' with
        | d :: s'' =>
            if is_low_surrogate d then c :: d :: quote_chars s''
            else unicode_escape c ++ quote_chars s'
        | [] => unicode_escape c
        end
      else if is_low_surrogate c then unicode_escape c ++ quote_chars s'
      else quote_char c ++ quote_chars s'
  end.

Definition QuoteJSONString (s : jsstring) : jsstring :=
  dquote :: quote_chars s ++ [dquote].

Definition newline : char := 10%N.
Definition gap : jsstring := u "  ".

Section WithEngine.
Context {E : Engine}.

(** SerializeJSONProperty with the two-space gap; [None] is [undefined]. *)
Fixpoint SerializeJSONProperty (indent : jsstring) (v : JsVal) {struct v}
  : option jsstring :=
  match v with
  | VUndefined => None
  | VNull => Some (u "null")
  | VBool true => Some (u "true")
  | VBool false => Some (u "false")
  | VNum NaN | VNum (Inf _) => Some (u "null")
  | VNum n => Some (Number_toString n)
  | VStr s => Some (QuoteJSONString s)
  | VArr items =>
      let stepback := indent in
      let indent := indent ++ gap in
      let partial :=
        map (fun x => match SerializeJSONProperty indent x with
                      | Some s => s
                      | None => u "null"
                      end) items in
      Some (match partial with
            | [] => u "[]"
            | _ => u "[" ++ newline :: indent
                   ++ join (ch "," :: newline :: indent) partial
                   ++ newline :: stepback ++ u "]"
            end)
  | VObj props =>
      let stepback := indent in
      let indent := indent ++ gap in
      let partial :=
        flat_map (fun kv => match SerializeJSONProperty indent (snd kv) with
                            | Some s => [QuoteJSONString (fst kv) ++ u ": " ++ s]
                            | None => []
                            end) props in
      Some (match partial with
            | [] => u "{}"
            | _ => u "{" ++ newline :: indent
                   ++ join (ch "," :: newline :: indent) partial
                   ++ newline :: stepback ++ u "}"
            end)
  end.

(** [JSON.stringify(value, null, 2)]; [None] is [undefined]. *)
Definition stringify (v : JsVal) : option jsstring := SerializeJSONProperty [] v.

(** ** Parsing *)

Definition is_json_ws (c : char) : bool :=
  char_eqb c 32 || char_eqb c 9 || char_eqb c 10 || char_eqb c 13.

Fixpoint skip_ws (s : jsstring) : jsstring :=
  match s with
  | c :: s' => if is_json_ws c then skip_ws s' else s
  | [] => []
  end.

Definition simple_escape (e : char) : option char :=
  if char_eqb e dquote then Some dquote
  else if char_eqb e backslash then Some backslash
  else if char_eqb e (ch "/") then Some (ch "/")
  else if char_eqb e (ch "b") then Some 8%N
  else if char_eqb e (ch "f") then Some 12%N
  else if char_eqb e (ch "n") then Some 10%N
  else if char_eqb e (ch "r") then Some 13%N
  else if char_eqb e (ch "t") then Some 9%N
  else None.

Definition cons_fst {A B} (a : A) (r : option (list A * B)) : option (list A * B) :=
  match r with
  | Some (l, b) => Some (a :: l, b)
  | None => None
  end.

(** The characters of a string after its opening quote, up to and including
    the closing quote; the result is the string and what follows it. *)
Fixpoint parse_string_body (s : jsstring) : option (jsstring * jsstring) :=
  match s with
  | [] => None
  | c :: rest =>
      if char_eqb c dquote then Some ([], rest)
      else if char_eqb c backslash then
        match rest with
        | [] => None
        | e :: rest' =>
            match simple_escape e with
            | Some x => cons_fst x (parse_string_body rest')
            | None =>
                if char_eqb e (ch "u") then
                  match rest' with
                  | h1 :: h2 :: h3 :: h4 :: rest'' =>
                      match hex_value h1, hex_value h2, hex_value h3, hex_value h4 with
                      | Some a, Some b, Some c, Some d =>
                          cons_fst (a * 4096 + b * 256 + c * 16 + d)%N
                                   (parse_string_body rest'')
                      | _, _, _, _ => None
                      end
                  | _ => None
                  end
                else None
            end
        end
      else if (c <? 32)%N then None
      else cons_fst c (parse_string_body rest)
  end.

Fixpoint span_digits (s : jsstring) : jsstring * jsstring :=
  match s with
  | c :: s' =>
      if is_digit c then let (ds, r) := span_digits s' in (c :: ds, r) else ([], s)
  | [] => ([], [])
  end.

(** The integer part of a JSON number: [0], or a digit from 1 to 9 followed
    by digits. *)
Definition lex_int (s : jsstring) : option (jsstring * jsstring) :=
  match span_digits s with
  | ([], _) => None
  | (c :: ds, r) =>
      if char_eqb c (ch "0") then
        match ds with [] => Some ([c], r) | _ => Some ([c], ds ++ r) end
      else Some (c :: ds, r)
  end.

Definition lex_frac (s : jsstring) : option (jsstring * jsstring) :=
  match s with
  | c :: s' =>
      if char_eqb c (ch ".") then
        match span_digits s' with
        | ([], _) => None
        | (ds, r) => Some (c :: ds, r)
        end
      else Some ([], s)
  | [] => Some ([], [])
  end.

Definition lex_exp (s : jsstring) : option (jsstring * jsstring) :=
  match s with
  | c :: s' =>
      if char_eqb c (ch "e") || char_eqb c (ch "E") then
        let (sign, s'') :=
          match s' with
          | g :: t => if char_eqb g (ch "+") || char_eqb g (ch "-")
                      then ([g], t) else ([], s')
          | [] => ([], [])
          end in
        match span_digits s'' with
        | ([], _) => None
        | (ds, r) => Some (c :: sign ++ ds, r)
        end
      else Some ([], s)
  | [] => Some ([], [])
  end.

(** A JSON number: its value and what follows it.  A lexeme with no fraction
    and no exponent below 2^53 is that integer; the value of any other lexeme
    is that of the string. *)
Definition parse_number (s : jsstring) : option (number * jsstring) :=
  let (neg, s1) :=
    match s with
    | c :: t => if char_eqb c (ch "-") then (true, t) else (false, s)
    | [] => (false, [])
    end in
  match lex_int s1 with
  | None => None
  | Some (int, s2) =>
      match lex_frac s2 with
      | None => None
      | Some (frac, s3) =>
          match lex_exp s3 with
          | None => None
          | Some (exp, s4) =>
              let lexeme := (if neg then [ch "-"] else []) ++ int ++ frac ++ exp in
              let z := digits_value int in
              match frac, exp with
              | [], [] =>
                  if z <? 2 ^ 53 then Some (Num (if neg then - z else z), s4)
                  else Some (StringToNumber lexeme, s4)
              | _, _ => Some (StringToNumber lexeme, s4)
              end
          end
      end
  end.

Fixpoint strip_prefix (p s : jsstring) : option jsstring :=
  match p, s with
  | [], _ => Some s
  | a :: p', b :: s' => if char_eqb a b then strip_prefix p' s' else None
  | _ :: _, [] => None
  end.

(** ** Objects keep the engine's property order: array-index keys first, in
    ascending order, then the other keys in the order of their creation. *)

Definition array_index (k : jsstring) : option Z :=
  match k with
  | [] => None
  | c :: ds =>
      if forallb is_digit k
         && (negb (char_eqb c (ch "0")) || match ds with [] => true | _ => false end)
         && (Nat.leb (List.length k) 10)
         && (digits_value k <? 2 ^ 32 - 1)
      then Some (digits_value k) else None
  end.

Fixpoint replace_prop (k : jsstring) (v : JsVal) (props : list (jsstring * JsVal))
  : option (list (jsstring * JsVal)) :=
  match props with
  | [] => None
  | (k', v') :: rest =>
      if str_eqb k' k then Some ((k', v) :: rest)
      else match replace_prop k v rest with
           | Some rest' => Some ((k', v') :: rest')
           | None => None
           end
  end.

Fixpoint insert_index (i : Z) (k : jsstring) (v : JsVal)
  (props : list (jsstring * JsVal)) : list (jsstring * JsVal) :=
  match props with
  | [] => [(k, v)]
  | (k', v') :: rest =>
      match array_index k' with
      | Some j => if j <? i then (k', v') :: insert_index i k v rest
                  else (k, v) :: props
      | None => (k, v) :: props
      end
  end.

(** CreateDataProperty on an ordinary object. *)
Definition define_prop (k : jsstring) (v : JsVal) (props : list (jsstring * JsVal))
  : list (jsstring * JsVal) :=
  match replace_prop k v props with
  | Some props' => props'
  | None =>
      match array_index k with
      | Some i => insert_index i k v props
      | None => props ++ [(k, v)]
      end
  end.

(** ** The parser.  [fuel] bounds the number of nested and successive calls;
    every call but the first follows at least one consumed character. *)
Fixpoint parse_value (fuel : nat) (s : jsstring) {struct fuel}
  : option (JsVal * jsstring) :=
  match fuel with
  | O => None
  | S fuel =>
      match skip_ws s with
      | [] => None
      | c :: rest =>
          if char_eqb c (ch "{") then
            match skip_ws rest with
            | d :: r =>
                if char_eqb d (ch "}") then Some (VObj [], r)
                else match parse_members fuel [] rest with
                     | Some (props, r') => Some (VObj props, r')
                     | None => None
                     end
            | [] => None
            end
          else if char_eqb c (ch "[") then
            match skip_ws rest with
            | d :: r =>
                if char_eqb d (ch "]") then Some (VArr [], r)
                else match parse_elements fuel rest with
                     | Some (items, r') => Some (VArr items, r')
                     | None => None
                     end
            | [] => None
            end
          else if char_eqb c dquote then
            match parse_string_body rest with
            | Some (str, r) => Some (VStr str, r)
            | None => None
            end
          else if char_eqb c (ch "t") then
            match strip_prefix (u "rue") rest with
            | Some r => Some (VBool true, r)
            | None => None
            end
          else if char_eqb c (ch "f") then
            match strip_prefix (u "alse") rest with
            | Some r => Some (VBool false, r)
            | None => None
            end
          else if char_eqb c (ch "n") then
            match strip_prefix (u "ull") rest with
            | Some r => Some (VNull, r)
            | None => None
            end
          else
            match parse_number (c :: rest) with
            | Some (n, r) => Some (VNum n, r)
            | None => None
            end
      end
  end

with parse_elements (fuel : nat) (s : jsstring) {struct fuel}
  : option (list JsVal * jsstring) :=
  match fuel with
  | O => None
  | S fuel =>
      match parse_value fuel s with
      | None => None
      | Some (v, r) =>
          match skip_ws r with
          | d :: r' =>
              if char_eqb d (ch ",") then
                match parse_elements fuel r' with
                | Some (vs, r'') => Some (v :: vs, r'')
                | None => None
                end
              else if char_eqb d (ch "]") then Some ([v], r')
              else None
          | [] => None
          end
      end
  end

with parse_members (fuel : nat) (acc : list (jsstring * JsVal)) (s : jsstring)
  {struct fuel} : option (list (jsstring * JsVal) * jsstring) :=
  match fuel with
  | O => None
  | S fuel =>
      match skip_ws s with
      | q :: s1 =>
          if char_eqb q dquote then
            match parse_string_body s1 with
            | None => None
            | Some (k, s2) =>
                match skip_ws s2 with
                | colon :: s3 =>
                    if char_eqb colon (ch ":") then
                      match parse_value fuel s3 with
                      | None => None
                      | Some (v, r) =>
                          let acc := define_prop k v acc in
                          match skip_ws r with
                          | d :: r' =>
                              if char_eqb d (ch ",") then parse_members fuel acc r'
                              else if char_eqb d (ch "}") then Some (acc, r')
                              else None
                          | [] => None
                          end
                      end
                    else None
                | [] => None
                end
            end
          else None
      | [] => None
      end
  end.

(** [JSON.parse(text)]: one value, surrounded by white space only. *)
Definition parse (text : jsstring) : Exc JsVal :=
  match parse_value (2 * List.length text + 2) text with
  | Some (v, r) =>
      match skip_ws r with
      | [] => Ok v
      | _ => Throw SyntaxError
      end
  | None => Throw SyntaxError
  end.

End WithEngine.

End Json.

(* ================================================================== *)
(** * Dates: time values, [toISOString], [Date.parse] *)
(* ================================================================== *)

Module JsDate.
Import Js.

(** A Date holds a time value: milliseconds since the epoch, or NaN for an
    invalid date. *)
Definition msPerDay : Z := 86400000.
Definition maxTime : Z := 8640000000000000.

(** TimeClip: a finite number of at most [maxTime] in magnitude, without its
    fraction. *)
Definition TimeClip (n : number) : number :=
  match n with
  | Num z => if Z.abs z <=? maxTime then Num z else NaN
  | Frac m k =>
      if Z.abs (2 * m + 1) <=? maxTime * 2 ^ Z.pos k
      then Num (Z.quot (2 * m + 1) (2 ^ Z.pos k)) else NaN
  | NaN | Inf _ => NaN
  end.

Definition Day (t : Z) : Z := t / msPerDay.
Definition TimeWithinDay (t : Z) : Z := t mod msPerDay.

Definition DayFromYear (y : Z) : Z :=
  365 * (y - 1970) + (y - 1969) / 4 - (y - 1901) / 100 + (y - 1601) / 400.

Definition InLeapYear (y : Z) : bool :=
  ((y mod 4 =? 0) && negb (y mod 100 =? 0)) || (y mod 400 =? 0).

(** The year a day number falls in: the mean year length gives it within one. *)
Definition YearFromDay (day : Z) : Z :=
  let y := 1970 + day * 400 / 146097 in
  if day <? DayFromYear y then y - 1
  else if DayFromYear (y + 1) <=? day then y + 1
  else y.

(** Days of the year before month [m] (1 to 12). *)
Definition DaysBeforeMonth (leap : bool) (m : Z) : Z :=
  let l := if leap then 1 else 0 in
  if m <=? 1 then 0
  else if m =? 2 then 31
  else if m =? 3 then 59 + l
  else if m =? 4 then 90 + l
  else if m =? 5 then 120 + l
  else if m =? 6 then 151 + l
  else if m =? 7 then 181 + l
  else if m =? 8 then 212 + l
  else if m =? 9 then 243 + l
  else if m =? 10 then 273 + l
  else if m =? 11 then 304 + l
  else if m =? 12 then 334 + l
  else 365 + l.

(** The month (1 to 12) of day [d] of a year, counted from 0. *)
Definition MonthFromDayInYear (leap : bool) (d : Z) : Z :=
  if d <? DaysBeforeMonth leap 2 then 1
  else if d <? DaysBeforeMonth leap 3 then 2
  else if d <? DaysBeforeMonth leap 4 then 3
  else if d <? DaysBeforeMonth leap 5 then 4
  else if d <? DaysBeforeMonth leap 6 then 5
  else if d <? DaysBeforeMonth leap 7 then 6
  else if d <? DaysBeforeMonth leap 8 then 7
  else if d <? DaysBeforeMonth leap 9 then 8
  else if d <? DaysBeforeMonth leap 10 then 9
  else if d <? DaysBeforeMonth leap 11 then 10
  else if d <? DaysBeforeMonth leap 12 then 11
  else 12.

Definition DaysInMonth (leap : bool) (m : Z) : Z :=
  DaysBeforeMonth leap (m + 1) - DaysBeforeMonth leap m.

(** [width] decimal digits of [n], most significant first. *)
Fixpoint pad (width : nat) (n : Z) : jsstring :=
  match width with
  | O => []
  | S w => pad w (n / 10) ++ [Z.to_N (48 + n mod 10)]
  end.

Definition MakeTime (h mi s ms : Z) : Z := ((h * 60 + mi) * 60 + s) * 1000 + ms.

Definition MakeDay (y m d : Z) : Z :=
  DayFromYear y + DaysBeforeMonth (InLeapYear y) m + d - 1.

(** [YYYY-MM-DDTHH:mm:ss.sssZ] for a year already written out. *)
Definition date_time_string (year : jsstring) (m d h mi s ms : Z) : jsstring :=
  year ++ ch "-" :: pad 2 m ++ ch "-" :: pad 2 d
  ++ ch "T" :: pad 2 h ++ ch ":" :: pad 2 mi ++ ch ":" :: pad 2 s
  ++ ch "." :: pad 3 ms ++ [ch "Z"].

(** [date.toISOString()] for a date of time value [tv], an integer or NaN: the
    year has four digits from 0 to 9999, a sign and six digits otherwise; a
    RangeError on an invalid date. *)
Definition toISOString (tv : number) : Exc jsstring :=
  match tv with
  | NaN | Frac _ _ | Inf _ => Throw RangeError
  | Num t =>
      let day := Day t in
      let tw := TimeWithinDay t in
      let y := YearFromDay day in
      let leap := InLeapYear y in
      let diy := day - DayFromYear y in
      let m := MonthFromDayInYear leap diy in
      let d := diy - DaysBeforeMonth leap m + 1 in
      let year :=
        if (0 <=? y) && (y <=? 9999) then pad 4 y
        else (if y <? 0 then ch "-" else ch "+") :: pad 6 (Z.abs y) in
      Ok (date_time_string year m d
            (tw / 3600000) (tw / 60000 mod 60) (tw / 1000 mod 60) (tw mod 1000))
  end.

(** The digits of [s] from offset [off], [len] of them, as a number. *)
Definition field (off len : nat) (s : jsstring) : option Z :=
  let seg := firstn len (skipn off s) in
  if Nat.eqb (List.length seg) len && forallb is_digit seg
  then Some (digits_value seg) else None.

Definition char_at (i : nat) (c : char) (s : jsstring) : bool :=
  match nth_error s i with
  | Some x => char_eqb x c
  | None => false
  end.

(** The date-time format of [toISOString] with a four-digit year and every
    field in its range: the one ECMAScript fixes the meaning of here. *)
Definition parse_iso (s : jsstring) : option Z :=
  if Nat.eqb (List.length s) 24
     && char_at 4 (ch "-") s && char_at 7 (ch "-") s && char_at 10 (ch "T") s
     && char_at 13 (ch ":") s && char_at 16 (ch ":") s && char_at 19 (ch ".") s
     && char_at 23 (ch "Z") s
  then
    match field 0 4 s, field 5 2 s, field 8 2 s,
          field 11 2 s, field 14 2 s, field 17 2 s, field 20 3 s with
    | Some y, Some m, Some d, Some h, Some mi, Some sec, Some ms =>
        if (1 <=? m) && (m <=? 12) && (1 <=? d)
           && (d <=? DaysInMonth (InLeapYear y) m)
           && (h <=? 23) && (mi <=? 59) && (sec <=? 59)
        then Some (MakeDay y m d * msPerDay + MakeTime h mi sec ms)
        else None
    | _, _, _, _, _, _, _ => None
    end
  else None.

(** The number a run of digits denotes, if it is one. *)
Definition digits_of (seg : jsstring) : option Z :=
  if forallb is_digit seg then Some (digits_value seg) else None.

(** The first and the last millisecond of the years 0 to 9999. *)
Definition minISO : Z := -62167219200000.
Definition maxISO : Z := 253402300799999.

Section WithEngine.
Context {E : Engine}.

(** [Date.parse(s)]: a time value, NaN for a string that is no date. *)
Definition Date_parse (s : jsstring) : number :=
  match parse_iso s with
  | Some t => Num t
  | None => TimeClip (Date_parse_other s)
  end.

(** The time value of [new Date(v)]: a string is parsed, an array or object
    is first turned into its string, anything else into a number. *)
Definition Date_of_value (v : JsVal) : number :=
  match v with
  | VStr s => Date_parse s
  | VArr _ | VObj _ => Date_parse (ToString v)
  | _ => TimeClip (ToNumber v)
  end.

End WithEngine.

End JsDate.

(* ================================================================== *)
(** * The backend: [src/backend/server.js] *)
(* ================================================================== *)

Module Server.
Import Js JsDate.
Local Open Scope string_scope.
Local Open Scope list_scope.
Local Open Scope Z_scope.

(** ** The world a request runs in *)

(** The callback [setInterval] holds: the [hours] and [intervalMs] it closed
    over. *)
Record Timer := { timer_hours : JsVal; intervalMs : number }.

Record World := {
  (** the data file as [fs.readFileSync(DATA_FILE, 'utf8')] returns it;
      [None] when the read fails (no such file, no permission) *)
  file : option jsstring;
  (** whether [fs.writeFileSync(DATA_FILE, ...)] succeeds *)
  writable : bool;
  (** the clock [Date.now()] reads, in milliseconds *)
  now : Z;
  (** by how much the clock advances after each of its next readings *)
  ticks : list nat;
  (** the module variable [autoDeleteTimer] *)
  autoDeleteTimer : option Timer
}.

Definition set_file (data : jsstring) (w : World) : World :=
  {| file := Some data; writable := writable w; now := now w; ticks := ticks w;
     autoDeleteTimer := autoDeleteTimer w |}.

Definition set_timer (t : Timer) (w : World) : World :=
  {| file := file w; writable := writable w; now := now w; ticks := ticks w;
     autoDeleteTimer := Some t |}.

Definition advance (w : World) : World :=
  {| file := file w; writable := writable w;
     now := now w + Z.of_nat (hd O (ticks w)); ticks := tl (ticks w);
     autoDeleteTimer := autoDeleteTimer w |}.

(** ** Computations: a state over the world, with exceptions *)

Definition M (A : Type) : Type := World -> Exc A * World.

Definition ret {A} (a : A) : M A := fun w => (Ok a, w).
Definition throw {A} (e : Error) : M A := fun w => (Throw e, w).
Definition bind {A B} (m : M A) (k : A -> M B) : M B :=
  fun w => match m w with
           | (Ok a, w') => k a w'
           | (Throw e, w') => (Throw e, w')
           end.
Definition try_catch {A} (m : M A) (handler : Error -> M A) : M A :=
  fun w => match m w with
           | (Ok a, w') => (Ok a, w')
           | (Throw e, w') => handler e w'
           end.
Definition lift {A} (x : Exc A) : M A := fun w => (x, w).

Notation "x <- m ;; k" := (bind m (fun x => k))
  (at level 61, m at next level, right associativity).
Notation "m ;;; k" := (bind m (fun _ => k))
  (at level 61, right associativity).

Definition Date_now : M Z := fun w => (Ok (now w), advance w).

(** [new Date()]: the current time is a time value as it is. *)
Definition Date_new : M number := t <- Date_now ;; ret (Num t).

Definition readFileSync : M jsstring :=
  fun w => match file w with
           | Some data => (Ok data, w)
           | None => (Throw IOError, w)
           end.

(** [fs.writeFileSync(DATA_FILE, data)]; [data] is [None] when it is
    [undefined], which is a TypeError. *)
Definition writeFileSync (data : option jsstring) : M unit :=
  fun w => match data with
           | None => (Throw TypeError, w)
           | Some text =>
               if writable w then (Ok tt, set_file text w) else (Throw IOError, w)
           end.

(** ** The data model: a message as the file stores it, and a collection *)

Record Message := { id : jsstring; text : jsstring; timestamp : jsstring }.

Definition message_value (m : Message) : JsVal :=
  VObj [(u "id", VStr (id m)); (u "text", VStr (text m));
        (u "timestamp", VStr (timestamp m))].

Definition collection_value (msgs : list Message) : JsVal :=
  VArr (map message_value msgs).

(** ** Responses and requests *)

Record Response := { status : Z; body : JsVal }.

Definition json (st : Z) (b : JsVal) : Response := {| status := st; body := b |}.

Inductive Method := GET | POST | DELETE | PUT | PATCH.

Definition method_name (m : Method) : jsstring :=
  match m with
  | GET => u "GET" | POST => u "POST" | DELETE => u "DELETE"
  | PUT => u "PUT" | PATCH => u "PATCH"
  end.

(** A request: its method, the segments of [req.path] (what lies between its
    slashes, as the request wrote it: a path that ends in a slash has an empty
    last segment), the URL it came with and the body as [express.json()]
    parsed it. *)
Record Request := {
  method : Method;
  path : list jsstring;
  originalUrl : jsstring;
  req_body : JsVal
}.

(** ** Configuration *)

Record Config := {
  NODE_ENV : jsstring;
  AUTO_DELETE_HOURS : number;
  PORT : JsVal;
  DATA_FILE : jsstring;
  CORS_ORIGINS : list jsstring
}.

Section WithEngine.
Context {E : Engine}.

Definition digit_in_radix (radix : Z) (c : char) : option Z :=
  let c := Z.of_N c in
  let v := if (48 <=? c) && (c <=? 57) then c - 48
           else if (97 <=? c) && (c <=? 122) then c - 87
           else if (65 <=? c) && (c <=? 90) then c - 55
           else 36 in
  if v <? radix then Some v else None.

Fixpoint radix_prefix (radix : Z) (s : jsstring) (acc : option Z) : option Z :=
  match s with
  | [] => acc
  | c :: s' =>
      match digit_in_radix radix c with
      | Some d =>
          radix_prefix radix s' (Some (match acc with Some a => a | None => 0 end * radix + d))
      | None => acc
      end
  end.

(** [parseInt(v)] with no radix: the double nearest to the integer the digits
    denote. *)
Definition parseInt (v : JsVal) : number :=
  let s := trimStart (ToString v) in
  let (sign, s) :=
    match s with
    | c :: t => if char_eqb c (ch "-") then (-1, t)
                else if char_eqb c (ch "+") then (1, t) else (1, s)
    | [] => (1, [])
    end in
  let (radix, s) :=
    match s with
    | z :: x :: t =>
        if char_eqb z (ch "0") && (char_eqb x (ch "x") || char_eqb x (ch "X"))
        then (16, t) else (10, s)
    | _ => (10, s)
    end in
  match radix_prefix radix s None with
  | Some n =>
      if (radix =? 10) && (10 ^ 20 <=? n) then long_numeral (sign * n)
      else round_Z (sign * n)
  | None => NaN
  end.

Definition env_value (x : option jsstring) : JsVal :=
  match x with Some s => VStr s | None => VUndefined end.

Fixpoint split_comma (s : jsstring) : list jsstring :=
  match s with
  | [] => [[]]
  | c :: s' =>
      if char_eqb c (ch ",") then [] :: split_comma s'
      else match split_comma s' with
           | p :: ps => (c :: p) :: ps
           | [] => [[c]]
           end
  end.

(** The constants at the head of the file, from [process.env]. *)
Definition load_config (env : jsstring -> option jsstring) (default_data_file : jsstring)
  : Config :=
  {| PORT := if truthy (env_value (env (u "PORT")))
             then env_value (env (u "PORT")) else VNum (Num 3001);
     DATA_FILE := match env (u "DATA_FILE") with
                  | Some (c :: s) => c :: s
                  | _ => default_data_file
                  end;
     NODE_ENV := match env (u "NODE_ENV") with
                 | Some (c :: s) => c :: s
                 | _ => u "development"
                 end;
     CORS_ORIGINS := match env (u "CORS_ORIGINS") with
                     | Some (c :: s) => split_comma (c :: s)
                     | _ => [u "http://localhost:3000"]
                     end;
     AUTO_DELETE_HOURS :=
       let n := parseInt (env_value (env (u "AUTO_DELETE_HOURS"))) in
       if truthy (VNum n) then n else Num 24 |}.

Variable cfg : Config.

(** [log(level, message)] reads the clock for its time stamp; what it prints
    is not part of the world. *)
Definition log : M unit := Date_new ;;; ret tt.

(** ** The message store *)

Definition readMessages : M JsVal :=
  try_catch
    (data <- readFileSync ;;
     lift (Json.parse data))
    (fun error => log ;;; ret (VArr [])).

Definition writeMessages (messages : JsVal) : M bool :=
  try_catch
    (writeFileSync (Json.stringify messages) ;;;
     ret true)
    (fun error => log ;;; log ;;; ret false).

(** [hours * 60 * 60 * 1000] *)
Definition hours_ms (hours : JsVal) : number :=
  num_mul (num_mul (num_mul (ToNumber hours) (Num 60)) (Num 60)) (Num 1000).

(** [items.filter(msg => new Date(msg.timestamp) >= cutoffTime)] *)
Definition keep_recent (cutoffTime : number) (items : list JsVal) : Exc (list JsVal) :=
  filterE (fun msg => match get msg (u "timestamp") with
                      | Ok ts => Ok (num_ge (Date_of_value ts) cutoffTime)
                      | Throw e => Throw e
                      end) items.

(** ** The auto-deletion timer *)

Definition startAutoDeleteTimer (hours : JsVal) : M unit :=
  (fun w => (Ok tt, set_timer {| timer_hours := hours; intervalMs := hours_ms hours |} w)) ;;;
  log.

(** [messages.length > 0]: the access throws on [null] and [undefined]; a
    value with no [length] has none that is positive. *)
Definition length_is_positive (messages : JsVal) : Exc bool :=
  match messages with
  | VArr items => Ok (Nat.ltb 0 (List.length items))
  | VStr s => Ok (match s with [] => false | _ => true end)
  | VObj props =>
      Ok (match lookup (u "length") props with
          | Some len => num_lt (Num 0) (ToNumber len)
          | None => false
          end)
  | VNull | VUndefined => Throw TypeError
  | VBool _ | VNum _ => Ok false
  end.

(** One firing of the interval callback.  Nothing catches an exception here.
    [messages.filter] is a method of arrays only. *)
Definition sweep (t : Timer) : M unit :=
  messages <- readMessages ;;
  nonempty <- lift (length_is_positive messages) ;;
  if (nonempty : bool) then
    t0 <- Date_now ;;
    let cutoffTime := TimeClip (num_sub (Num t0) (intervalMs t)) in
    match messages with
    | VArr items =>
        filteredMessages <- lift (keep_recent cutoffTime items) ;;
        ok <- writeMessages (VArr filteredMessages) ;;
        if ok then
          let deletedCount := (List.length items - List.length filteredMessages)%nat in
          if Nat.ltb 0 deletedCount then log else ret tt
        else ret tt
    | _ => throw TypeError
    end
  else ret tt.

(** ** Routes *)

Definition obj (props : list (string * JsVal)) : JsVal :=
  VObj (map (fun kv => (u (fst kv), snd kv)) props).

Definition str (s : string) : JsVal := VStr (u s).

Definition num (n : nat) : JsVal := VNum (Num (Z.of_nat n)).

(** [app.get('/messages', ...)] *)
Definition get_messages (req : Request) : M Response :=
  messages <- readMessages ;;
  ret (json 200 messages).

(** [text.trim()]: a method of strings only. *)
Definition call_trim (text : JsVal) : Exc jsstring :=
  match text with
  | VStr s => Ok (trim s)
  | _ => Throw TypeError
  end.

(** [messages.push(x)]: a method of arrays only. *)
Definition push (messages x : JsVal) : Exc JsVal :=
  match messages with
  | VArr items => Ok (VArr (items ++ [x]))
  | _ => Throw TypeError
  end.

(** [app.post('/messages', ...)] *)
Definition post_messages (req : Request) : M Response :=
  text <- lift (get (req_body req) (u "text")) ;;
  empty <- (if negb (truthy text) then ret true
            else t <- lift (call_trim text) ;; ret (str_eqb t [])) ;;
  if (empty : bool) then
    ret (json 400 (obj [("error", str "Message text is required")]))
  else
    messages <- readMessages ;;
    id <- Date_now ;;
    trimmed <- lift (call_trim text) ;;
    date <- Date_new ;;
    timestamp <- lift (toISOString date) ;;
    let newMessage :=
      obj [("id", VStr (Number_toString (Num id)));
           ("text", VStr trimmed);
           ("timestamp", VStr timestamp)] in
    messages <- lift (push messages newMessage) ;;
    ok <- writeMessages messages ;;
    if ok then
      log ;;;
      ret (json 201 newMessage)
    else
      log ;;;
      ret (json 500 (obj [("error", str "Failed to save message")])).

(** [app.delete('/messages/:id', ...)] *)
Definition delete_message (messageId : jsstring) (req : Request) : M Response :=
  messages <- readMessages ;;
  match messages with
  | VArr items =>
      let initialLength := List.length items in
      filteredMessages <-
        lift (filterE (fun msg => match get msg (u "id") with
                                  | Ok id => Ok (strict_neq_str id messageId)
                                  | Throw e => Throw e
                                  end) items) ;;
      if Nat.eqb (List.length filteredMessages) initialLength then
        ret (json 404 (obj [("error", str "Message not found")]))
      else
        ok <- writeMessages (VArr filteredMessages) ;;
        if ok then
          log ;;;
          ret (json 200 (obj [("message", str "Message deleted successfully");
                              ("deletedCount", num 1)]))
        else
          log ;;;
          ret (json 500 (obj [("error", str "Failed to delete message")]))
  | _ => throw TypeError
  end.

(** [app.delete('/messages', ...)] *)
Definition delete_all_messages (req : Request) : M Response :=
  ok <- writeMessages (VArr []) ;;
  if ok then
    log ;;;
    ret (json 200 (obj [("message", str "All messages deleted successfully")]))
  else
    log ;;;
    ret (json 500 (obj [("error", str "Failed to delete messages")])).

(** [!hours || isNaN(hours) || hours < 0] *)
Definition invalid_hours (hours : JsVal) : bool :=
  negb (truthy hours) || isNaN hours || lt_zero hours.

(** [app.delete('/messages/older-than', ...)] *)
Definition delete_older_than (req : Request) : M Response :=
  hours <- lift (get (req_body req) (u "hours")) ;;
  if invalid_hours hours then
    ret (json 400 (obj [("error", str "Valid hours parameter is required")]))
  else
    messages <- readMessages ;;
    t <- Date_now ;;
    let cutoffTime := TimeClip (num_sub (Num t) (hours_ms hours)) in
    match messages with
    | VArr items =>
        filteredMessages <- lift (keep_recent cutoffTime items) ;;
        ok <- writeMessages (VArr filteredMessages) ;;
        if ok then
          let deletedCount := (List.length items - List.length filteredMessages)%nat in
          log ;;;
          ret (json 200
                 (obj [("message", VStr (u "Messages older than " ++ ToString hours
                                         ++ u " hours deleted successfully"));
                       ("deletedCount", num deletedCount)]))
        else
          log ;;;
          ret (json 500 (obj [("error", str "Failed to delete old messages")]))
    | _ => throw TypeError
    end.

(** [app.post('/messages/auto-delete', ...)] *)
Definition post_auto_delete (req : Request) : M Response :=
  hours <- lift (get (req_body req) (u "hours")) ;;
  if invalid_hours hours then
    ret (json 400 (obj [("error", str "Valid hours parameter is required")]))
  else
    startAutoDeleteTimer hours ;;;
    log ;;;
    ret (json 200
           (obj [("message", VStr (u "Auto-deletion timer set to " ++ ToString hours
                                   ++ u " hours"));
                 ("hours", hours)])).

(** [app.get('/messages/auto-delete', ...)] *)
Definition get_auto_delete (req : Request) : M Response :=
  ret (json 200
         (obj [("autoDeleteEnabled", VBool true);
               ("currentSetting",
                VStr (Number_toString (AUTO_DELETE_HOURS cfg) ++ u " hours"));
               ("configurable", VBool true)])).

(** [app.get('/health', ...)] *)
Definition get_health (req : Request) : M Response :=
  date <- Date_new ;;
  timestamp <- lift (toISOString date) ;;
  ret (json 200
         (obj [("status", str "OK");
               ("timestamp", VStr timestamp);
               ("environment", VStr (NODE_ENV cfg));
               ("service", str "backend")])).

(** [app.get('/info', ...)] *)
Definition get_info (req : Request) : M Response :=
  ret (json 200
         (obj [("service", str "Simple Node.js Demo Backend");
               ("version", str "1.0.0");
               ("environment", VStr (NODE_ENV cfg));
               ("port", PORT cfg);
               ("dataFile", VStr (DATA_FILE cfg));
               ("autoDeleteHours", VNum (AUTO_DELETE_HOURS cfg));
               ("corsOrigins", VArr (map VStr (CORS_ORIGINS cfg)))])).

(** [err.message] *)
Definition message_of (err : Error) : jsstring :=
  match err with
  | ParamError val => u "Failed to decode param '" ++ val ++ u "'"
  | _ => error_message err
  end.

(** The error-handling middleware, which Express calls with what a handler
    threw. *)
Definition error_handler (err : Error) (req : Request) : M Response :=
  log ;;;
  ret (json 500
         (obj [("error", str "Internal server error");
               ("message",
                VStr (if str_eqb (NODE_ENV cfg) (u "development")
                      then message_of err else u "Something went wrong"))])).

(** The last middleware: no route matched. *)
Definition not_found (req : Request) : M Response :=
  ret (json 404
         (obj [("error", str "Route not found");
               ("path", VStr (originalUrl req));
               ("method", VStr (method_name (method req)))])).

(** ** Dispatch.  Express tries the routes in the order of their
    registration.  It matches the path first, as the regular expression it
    makes of the pattern does: a literal segment matches in either case of its
    letters, a [:name] segment matches one segment that is not empty, and the
    path may end in one more slash.  The parameter is that segment decoded by
    [decodeURIComponent]; a segment it refuses is an error, which passes every
    route and reaches the error handler.  Of the routes whose path matches,
    the first of the request's method runs. *)

Inductive Segment :=
| Lit (s : string)
| Param.

Record Route := {
  route_method : Method;
  route_path : list Segment;
  (** the handler, given the value of the route's parameter if it has one *)
  route_handler : jsstring -> Request -> M Response
}.

Definition method_eqb (a b : Method) : bool :=
  match a, b with
  | GET, GET | POST, POST | DELETE, DELETE | PUT, PUT | PATCH, PATCH => true
  | _, _ => false
  end.

(** An ASCII letter in lower case. *)
Definition lower (c : char) : char :=
  if ((65 <=? c) && (c <=? 90))%N then (c + 32)%N else c.

Definition same_letters (a b : jsstring) : bool :=
  str_eqb (map lower a) (map lower b).

(** Whether the pattern matches the path; the segment its parameter matched,
    as the request wrote it. *)
Fixpoint match_path (pattern : list Segment) (p : list jsstring) (param : jsstring)
  : option jsstring :=
  match pattern, p with
  | [], [] | [], [[]] => Some param
  | Lit s :: pattern', x :: p' =>
      if same_letters x (u s) then match_path pattern' p' param else None
  | Param :: pattern', x :: p' =>
      match x with
      | [] => None
      | _ => if existsb (char_eqb (ch "/")) x then None
             else match_path pattern' p' x
      end
  | _, _ => None
  end.

(** The paths the program's patterns tell apart: one segment, or two, with or
    without a slash at the end. *)
Inductive Shape :=
| One (x : jsstring)
| Two (x y : jsstring)
| Other.

Definition shape_of (p : list jsstring) : Shape :=
  match p with
  | [x] | [x; []] => One x
  | [x; y] | [x; y; []] => Two x y
  | _ => Other
  end.

(** What a route does when its path matches and its parameter does not
    decode. *)
Definition param_error (val : jsstring) (req : Request) : M Response :=
  throw (ParamError val).

(** The routes, in the order the file registers them. *)
Definition routes : list Route :=
  [ {| route_method := GET; route_path := [Lit "messages"];
       route_handler := fun _ => get_messages |};
    {| route_method := POST; route_path := [Lit "messages"];
       route_handler := fun _ => post_messages |};
    {| route_method := DELETE; route_path := [Lit "messages"; Param];
       route_handler := delete_message |};
    {| route_method := DELETE; route_path := [Lit "messages"];
       route_handler := fun _ => delete_all_messages |};
    {| route_method := DELETE; route_path := [Lit "messages"; Lit "older-than"];
       route_handler := fun _ => delete_older_than |};
    {| route_method := POST; route_path := [Lit "messages"; Lit "auto-delete"];
       route_handler := fun _ => post_auto_delete |};
    {| route_method := GET; route_path := [Lit "messages"; Lit "auto-delete"];
       route_handler := fun _ => get_auto_delete |};
    {| route_method := GET; route_path := [Lit "health"];
       route_handler := fun _ => get_health |};
    {| route_method := GET; route_path := [Lit "info"];
       route_handler := fun _ => get_info |} ].

Fixpoint find_route (rs : list Route) (req : Request) : option (Request -> M Response) :=
  match rs with
  | [] => None
  | r :: rs' =>
      match match_path (route_path r) (path req) [] with
      | Some val =>
          match decodeURIComponent val with
          | Some param =>
              if method_eqb (route_method r) (method req)
              then Some (route_handler r param)
              else find_route rs' req
          | None => Some (param_error val)
          end
      | None => find_route rs' req
      end
  end.

(** The application, for a request that has passed the CORS and body-parsing
    middleware: the request-logging middleware, the first matching route, the
    error handler for what it throws or for a parameter that does not decode,
    the 404 handler when no route matches. *)
Definition app (req : Request) : World -> Response * World :=
  fun w =>
    let handler :=
      match find_route routes req with
      | Some h => h req
      | None => not_found req
      end in
    match (log ;;; handler) w with
    | (Ok res, w') => (res, w')
    | (Throw err, w') =>
        match error_handler err req w' with
        | (Ok res, w'') => (res, w'')
        | (Throw _, w'') => (json 500 VUndefined, w'')
        end
    end.

(** The process starts its timer with the configured hours. *)
Definition startup : M unit :=
  startAutoDeleteTimer (VNum (AUTO_DELETE_HOURS cfg)).

(** The world after a sequence of requests. *)
Definition run (reqs : list Request) (w : World) : World :=
  fold_left (fun w req => snd (app req w)) reqs w.

(** The answer to a request whose handler threw. *)
Definition internal_error (err : Error) : Response :=
  json 500
    (obj [("error", str "Internal server error");
          ("message",
           VStr (if str_eqb (NODE_ENV cfg) (u "development")
                 then message_of err else u "Something went wrong"))]).

(** ** Notions the theorems are stated with *)

(** The collection the store's read operation yields in a world. *)
Definition stored (w : World) : JsVal :=
  match fst (readMessages w) with
  | Ok v => v
  | Throw _ => VArr []
  end.

(** [w'] is [w] after some readings of the clock: nothing else differs. *)
Definition later (w w' : World) : Prop :=
  exists n : nat, w' = Nat.iter n advance w.

(** A text the create route refuses: missing, empty, or white space only. *)
Definition blank (text : JsVal) : Prop :=
  text = VUndefined \/ exists s, text = VStr s /\ trim s = [].

(** The values [!hours] is true of. *)
Definition falsy (v : JsVal) : Prop :=
  v = VUndefined \/ v = VNull \/ v = VBool false
  \/ v = VNum NaN \/ v = VNum (Num 0) \/ v = VStr [].

(** The [hours] both validating routes refuse: a falsy value, one that does
    not convert to a number, one that converts to a negative number. *)
Definition rejected_hours (hours : JsVal) : Prop :=
  falsy hours \/ ToNumber hours = NaN \/ num_lt (ToNumber hours) (Num 0) = true.

End WithEngine.

(** A request with no query string. *)
Definition request (m : Method) (p : list string) (b : JsVal) : Request :=
  {| method := m; path := map u p;
     originalUrl := flat_map (fun seg => ch "/" :: u seg) p;
     req_body := b |}.

End Server.

(* ================================================================== *)
(** * The text of a stored collection *)
(* ================================================================== *)

Module Layout.
Import Js Json Server.

(** The text of a quoted string, followed by [rest]. *)
Definition quoted (s rest : jsstring) : jsstring :=
  dquote :: quote_chars s ++ dquote :: rest.

(** A message as [JSON.stringify] lays it out inside the array, followed by
    [rest]. *)
Definition message_text (m : Message) (rest : jsstring) : jsstring :=
  u "{" ++ newline :: u "    " ++
  quoted (u "id") (u ": " ++ quoted (id m) (u "," ++ newline :: u "    " ++
  quoted (u "text") (u ": " ++ quoted (text m) (u "," ++ newline :: u "    " ++
  quoted (u "timestamp") (u ": " ++ quoted (timestamp m) (newline :: u "  }" ++ rest)))))).

(** The elements of a non-empty array and its closing bracket. *)
Fixpoint elements_text (msgs : list Message) (rest : jsstring) : jsstring :=
  match msgs with
  | [] => newline :: u "]" ++ rest
  | m :: msgs' =>
      newline :: u "  " ++
      message_text m (match msgs' with
                      | [] => elements_text msgs' rest
                      | _ => ch "," :: elements_text msgs' rest
                      end)
  end.

(** The text [writeMessages] writes for a collection. *)
Definition collection_text (msgs : list Message) : jsstring :=
  match msgs with
  | [] => u "[]"
  | _ => ch "[" :: elements_text msgs []
  end.

End Layout.

(* ================================================================== *)
(** * The client: [src/frontend/script.js] *)
(* ================================================================== *)

Module Client.
Import Js.

(** The five replacements, in the order the function chains them. *)
Definition escape_passes (s : jsstring) : jsstring :=
  replace_all (ch "'") (u "&#039;")
    (replace_all dquote (u "&quot;")
      (replace_all (ch ">") (u "&gt;")
        (replace_all (ch "<") (u "&lt;")
          (replace_all (ch "&") (u "&amp;") s)))).

(** [escapeHtml(unsafe)] on a string: the empty string is falsy. *)
Definition escapeHtml (unsafe : jsstring) : jsstring :=
  match unsafe with
  | [] => []
  | _ => escape_passes unsafe
  end.

(** The five character references [escapeHtml] emits. *)
Definition entities : list jsstring :=
  [u "&amp;"; u "&lt;"; u "&gt;"; u "&quot;"; u "&#039;"].

(** What [escapeHtml] makes of one character. *)
Definition escape_char (c : char) : jsstring :=
  if char_eqb c (ch "&") then u "&amp;"
  else if char_eqb c (ch "<") then u "&lt;"
  else if char_eqb c (ch ">") then u "&gt;"
  else if char_eqb c dquote then u "&quot;"
  else if char_eqb c (ch "'") then u "&#039;"
  else [c].

End Client.

(* ================================================================== *)
(** * Worlds and requests for the examples *)
(* ================================================================== *)

Module Examples.
Import Js Server Layout.
Local Open Scope string_scope.
Local Open Scope list_scope.
Local Open Scope Z_scope.

(** The host's part, fixed for the examples: an engine that keeps every digit
    of a long numeral.  None of the examples converts to a number a string
    that is not a run of digits, prints a number that is not an integer below
    2^53, parses a date that is not in the ISO format or reads the message of
    an error. *)
Definition example_engine : Engine :=
  {| StringToNumber_other := fun _ => NaN;
     long_numeral := round_Z;
     Number_toString_other := fun _ => [];
     Date_parse_other := fun _ => NaN;
     error_message := fun _ => [] |}.

#[local] Existing Instance example_engine.

(** No environment variable is set. *)
Definition example_config : Config :=
  load_config (fun _ => None) (u "data/messages.json").

Definition hello : Message :=
  {| id := u "1700000000000"; text := u "hello";
     timestamp := u "2023-11-14T22:13:20.000Z" |}.

Definition hello_again : Message :=
  {| id := u "1700003600000"; text := u "hello again";
     timestamp := u "2023-11-14T23:13:20.000Z" |}.

(** Two messages, one and two hours old, in a file that can be written. *)
Definition example_world : World :=
  {| file := Some (collection_text [hello; hello_again]);
     writable := true;
     now := 1700007200000;
     ticks := [1; 0; 2; 0; 1]%nat;
     autoDeleteTimer := None |}.

(** The same, in a file that cannot be written. *)
Definition read_only_world : World :=
  {| file := Some (collection_text [hello; hello_again]);
     writable := false;
     now := 1700007200000;
     ticks := [1; 0; 2; 0; 1]%nat;
     autoDeleteTimer := None |}.

(** The same as the first, with a clock that stays on one millisecond. *)
Definition one_millisecond_world : World :=
  {| file := Some (collection_text [hello; hello_again]);
     writable := true;
     now := 1700007200000;
     ticks := [];
     autoDeleteTimer := None |}.

Definition post_text (s : string) : Request :=
  request POST ["messages"] (obj [("text", str s)]).

Definition delete_id (s : string) : Request :=
  request DELETE ["messages"; s] (VObj []).

Definition delete_older_than_hours (hours : JsVal) : Request :=
  request DELETE ["messages"; "older-than"] (obj [("hours", hours)]).

Definition post_auto_delete_hours (hours : JsVal) : Request :=
  request POST ["messages"; "auto-delete"] (obj [("hours", hours)]).

Definition get_auto_delete_setting : Request :=
  request GET ["messages"; "auto-delete"] (VObj []).

Definition get_all : Request := request GET ["messages"] (VObj []).

End Examples.

(* ================================================================== *)
(** * Decimal digits *)
(* ================================================================== *)

Module Decimals.
Import Js.

(** The number a run of decimal digits denotes, read after [a]. *)
Fixpoint horner (a : Z) (d : Decimal.uint) : Z :=
  match d with
  | Decimal.Nil => a
  | Decimal.D0 l => horner (10 * a) l
  | Decimal.D1 l => horner (10 * a + 1) l
  | Decimal.D2 l => horner (10 * a + 2) l
  | Decimal.D3 l => horner (10 * a + 3) l
  | Decimal.D4 l => horner (10 * a + 4) l
  | Decimal.D5 l => horner (10 * a + 5) l
  | Decimal.D6 l => horner (10 * a + 6) l
  | Decimal.D7 l => horner (10 * a + 7) l
  | Decimal.D8 l => horner (10 * a + 8) l
  | Decimal.D9 l => horner (10 * a + 9) l
  end.

(** The characters of a run of decimal digits. *)
Definition digits (d : Decimal.uint) : jsstring := u (NilEmpty.string_of_uint d).

End Decimals.

(* ================================================================== *)
(** * The middleware in front of the routes *)
(* ================================================================== *)

Module Middleware.
Import Js Server.
Local Open Scope string_scope.
Local Open Scope list_scope.
Local Open Scope Z_scope.

(** [list.includes(x)] on strings. *)
Definition includes (list : list jsstring) (x : jsstring) : bool :=
  existsb (fun y => str_eqb y x) list.

Section WithEngine.
Context {E : Engine}.
Variable cfg : Config.

(** [corsOptions.origin(origin, callback)]: [true] when the callback is called
    with [(null, true)], [false] when it is called with the error [Not
    allowed by CORS].  [origin] is the request's Origin header, [None] when
    the request has none; [!origin] holds of a missing and of an empty one. *)
Definition cors_origin (origin : option jsstring) : bool :=
  match origin with
  | None | Some [] => true
  | Some o =>
      if str_eqb (NODE_ENV cfg) (u "development") then true
      else includes (CORS_ORIGINS cfg) (u "*") || includes (CORS_ORIGINS cfg) o
  end.

(** The error-handling middleware on the error the CORS check raises, whose
    message is [Not allowed by CORS]. *)
Definition cors_error : M Response :=
  log ;;;
  ret (json 500
         (obj [("error", str "Internal server error");
               ("message",
                VStr (if str_eqb (NODE_ENV cfg) (u "development")
                      then u "Not allowed by CORS" else u "Something went wrong"))])).

(** The application behind the CORS middleware, for a request that is not a
    preflight: a refused origin goes to the error handler, past the routes. *)
Definition serve (origin : option jsstring) (req : Request) : World -> Response * World :=
  fun w =>
    if cors_origin origin then app cfg req w
    else match cors_error w with
         | (Ok res, w') => (res, w')
         | (Throw _, w') => (json 500 VUndefined, w')
         end.

(** The request's path matches the pattern. *)
Definition addressed (pattern : list Segment) (req : Request) : Prop :=
  exists val, match_path pattern (path req) [] = Some val.

(** The handlers a request can reach, with the requests that reach them. *)
Inductive reached (req : Request) : option (Request -> M Response) -> Prop :=
| reached_get_messages :
    method req = GET -> addressed [Lit "messages"] req ->
    reached req (Some get_messages)
| reached_post_messages :
    method req = POST -> addressed [Lit "messages"] req ->
    reached req (Some post_messages)
| reached_delete_message val messageId :
    method req = DELETE ->
    match_path [Lit "messages"; Param] (path req) [] = Some val ->
    decodeURIComponent val = Some messageId ->
    reached req (Some (delete_message messageId))
| reached_delete_all :
    method req = DELETE -> addressed [Lit "messages"] req ->
    reached req (Some delete_all_messages)
| reached_post_auto_delete :
    method req = POST -> addressed [Lit "messages"; Lit "auto-delete"] req ->
    reached req (Some post_auto_delete)
| reached_get_auto_delete :
    method req = GET -> addressed [Lit "messages"; Lit "auto-delete"] req ->
    reached req (Some (get_auto_delete cfg))
| reached_get_health :
    method req = GET -> addressed [Lit "health"] req ->
    reached req (Some (get_health cfg))
| reached_get_info :
    method req = GET -> addressed [Lit "info"] req ->
    reached req (Some (get_info cfg))
| reached_param_error val :
    match_path [Lit "messages"; Param] (path req) [] = Some val ->
    decodeURIComponent val = None ->
    reached req (Some (param_error val))
| reached_none : reached req None.

End WithEngine.

(** A computation keeps [R] when the world it leaves is related by [R] to the
    world it started in, whether it returns or throws. *)
Definition keeps {A} (R : World -> World -> Prop) (m : M A) : Prop :=
  forall w, R w (snd (m w)).

(** What the clock's readings respect: a relation that holds of a world and
    itself, composes, and holds across a reading. *)
Record Frame (R : World -> World -> Prop) : Prop := {
  frame_refl : forall w, R w w;
  frame_trans : forall w1 w2 w3, R w1 w2 -> R w2 w3 -> R w1 w3;
  frame_advance : forall w, R w (advance w)
}.

(** All but the data file is as before, and the clock has not gone back. *)
Definition file_only (w w' : World) : Prop :=
  writable w' = writable w /\ autoDeleteTimer w' = autoDeleteTimer w
  /\ now w <= now w'.

(** All but the timer is as before, and the clock has not gone back. *)
Definition timer_only (w w' : World) : Prop :=
  file w' = file w /\ writable w' = writable w /\ now w <= now w'.

(** A text as the create route stores it: not empty, with nothing to trim. *)
Definition trimmed (s : jsstring) : Prop := s <> [] /\ trim s = s.

End Middleware.

(* ================================================================== *)
(** * Logging and the set-up of the data file *)
(* ================================================================== *)

Module Startup.
Import Js JsDate Server.
Local Open Scope string_scope.
Local Open Scope list_scope.
Local Open Scope Z_scope.

(** The levels the program logs at: every call of [log] names one of them by
    a literal. *)
Inductive Level := info | warn | error | debug.

Definition level_name (level : Level) : jsstring :=
  match level with
  | info => u "info" | warn => u "warn" | error => u "error" | debug => u "debug"
  end.

(** [level.toUpperCase()] *)
Definition level_upper (level : Level) : jsstring :=
  match level with
  | info => u "INFO" | warn => u "WARN" | error => u "ERROR" | debug => u "DEBUG"
  end.

(** [process.env.LOG_LEVEL || 'info'] *)
Definition log_level (env : jsstring -> option jsstring) : jsstring :=
  match env (u "LOG_LEVEL") with
  | Some (c :: s) => c :: s
  | _ => u "info"
  end.

(** What [log(level, message)] prints, [None] when it prints nothing; [t] is
    the time value of its [new Date()]. *)
Definition log_line (LOG_LEVEL : jsstring) (t : Z) (level : Level) (message : jsstring)
  : Exc (option jsstring) :=
  match toISOString (Num t) with
  | Throw e => Throw e
  | Ok timestamp =>
      Ok (if str_eqb (level_name level) (u "error")
             || (str_eqb LOG_LEVEL (u "debug") && str_eqb (level_name level) (u "debug"))
             || str_eqb LOG_LEVEL (u "info")
          then Some (u "[" ++ timestamp ++ u "] " ++ level_upper level ++ u ": " ++ message)
          else None)
  end.

(** What the calls of [fs] in [ensureDataDirectory] find, other than the
    writing of the data file, which the world decides: whether the directory
    exists, whether creating it succeeds, whether [statSync] succeeds, whether
    the data file exists, and whether the two [accessSync] calls succeed. *)
Record Disk := {
  dir_exists : bool;
  mkdir_succeeds : bool;
  stat_succeeds : bool;
  file_exists : bool;
  dir_access : bool;
  file_access : bool
}.

Section WithEngine.
Context {E : Engine}.

(** A call of [fs] that throws when it fails. *)
Definition fs_call (succeeds : bool) : M unit :=
  if succeeds then ret tt else throw IOError.

(** [ensureDataDirectory()].  [JSON.stringify([])] is the text [[]]. *)
Definition ensureDataDirectory (d : Disk) : M unit :=
  try_catch
    (log ;;; log ;;;
     (if negb (dir_exists d) then log ;;; fs_call (mkdir_succeeds d) ;;; log
      else log) ;;;
     try_catch (fs_call (stat_succeeds d) ;;; log ;;; log) (fun error => log) ;;;
     (if negb (file_exists d) then log ;;; writeFileSync (Some (u "[]")) ;;; log
      else log) ;;;
     fs_call (dir_access d) ;;; log ;;;
     fs_call (file_access d) ;;; log)
    (fun error => log ;;; log ;;; log ;;; log ;;; log ;;; log ;;; log).

End WithEngine.

End Startup.

(* ================================================================== *)
(** * The client: [src/frontend/script.js] *)
(* ================================================================== *)

Module Browser.
Import Js JsDate Server Client.
Local Open Scope string_scope.
Local Open Scope list_scope.
Local Open Scope Z_scope.

(** What [showSuccess] and [showError] are called with. *)
Inductive Notice :=
| Success (message : JsVal)
| Failure (message : JsVal).

(** [response.ok] *)
Definition response_ok (res : Response) : bool :=
  (200 <=? status res) && (status res <=? 299).

(** [a || b] *)
Definition or_else (a b : JsVal) : JsVal := if truthy a then a else b.

(** [a === b] where [b] is a string. *)
Definition strict_eq_str (a : JsVal) (b : jsstring) : bool := negb (strict_neq_str a b).

(** [Math.floor(a / b)] for a positive integer [b].  For an integer [a] below
    2^53 the rounding of the quotient does not reach the next integer, and the
    floor is the integer quotient. *)
Definition floor_div (a : number) (b : Z) : number :=
  match a with
  | Num x => if Z.abs x <? 2 ^ 53 then Num (x / b) else Math_floor (num_div a b)
  | _ => Math_floor (num_div a b)
  end.

(** A number as it arrives in a JSON body: [JSON.stringify] writes [null] for
    a number that is not finite. *)
Definition sent_number (n : number) : JsVal :=
  match n with
  | NaN | Inf _ => VNull
  | _ => VNum n
  end.

(** The characters a URL carries in its path as they are and that mean
    nothing to it: letters, digits, [-], [_] and [~]. *)
Definition unreserved (c : char) : bool :=
  (((48 <=? c) && (c <=? 57)) || ((65 <=? c) && (c <=? 90))
   || ((97 <=? c) && (c <=? 122)) || (c =? 45) || (c =? 95) || (c =? 126))%N.

(** The path of the URL [/messages/<id>] for an id of such characters: the id
    is its second segment.  What the URL parser makes of an id with other
    characters is not modelled. *)
Definition message_path (messageId : jsstring) : option (list jsstring) :=
  if forallb unreserved messageId then Some [u "messages"; messageId] else None.

Section WithEngine.
Context {E : Engine}.

(** ** Formatting *)

(** [date.toLocaleString()], which the host and its locale determine. *)
Variable toLocaleString : number -> jsstring.

(** [formatTimestamp(timestamp)], [now] being the time value of its
    [new Date()]. *)
Definition formatTimestamp (now : Z) (timestamp : JsVal) : jsstring :=
  let date := Date_of_value timestamp in
  let diffMs := num_sub (Num now) date in
  let diffMins := floor_div diffMs 60000 in
  let diffHours := floor_div diffMs 3600000 in
  if num_lt diffMins (Num 1) then u "Just now"
  else if num_lt diffMins (Num 60) then Number_toString diffMins ++ u " min ago"
  else if num_lt diffHours (Num 24) then
    Number_toString diffHours ++ u " hour"
    ++ (if num_lt (Num 1) diffHours then u "s" else []) ++ u " ago"
  else toLocaleString date.

(** The comparator of [loadMessages]:
    [(a, b) => new Date(b.timestamp) - new Date(a.timestamp)], on messages as
    the server stores them. *)
Definition newest_first (a b : Message) : number :=
  num_sub (Date_parse (timestamp b)) (Date_parse (timestamp a)).

(** [messages.sort(comparator)].  The sort is stable and, for a comparator
    that orders the elements consistently, its result is the one list that is
    a stable rearrangement in that order; insertion from the right computes
    it.  A comparator value that is not positive, NaN included, leaves the
    element before the other. *)
Fixpoint insert (cmp : Message -> Message -> number) (x : Message) (l : list Message)
  : list Message :=
  match l with
  | [] => [x]
  | y :: l' => if num_lt (Num 0) (cmp x y) then y :: insert cmp x l' else x :: l
  end.

Definition sort (cmp : Message -> Message -> number) (l : list Message) : list Message :=
  fold_right (insert cmp) [] l.

(** ** What the forms send *)

(** [addMessage]: [messageInput.value.trim()] behind the guard [!text]; [None]
    when the function stops at the guard. *)
Definition text_to_send (value : jsstring) : option jsstring :=
  let text := trim value in
  if negb (truthy (VStr text)) then None else Some text.

(** [clearMessagesOlderThan] and [setAutoDelete]: [parseInt(input.value)]
    behind the guard [!hours || hours < 1]. *)
Definition hours_to_send (value : jsstring) : option number :=
  let hours := parseInt (VStr value) in
  if negb (truthy (VNum hours)) || num_lt hours (Num 1) then None else Some hours.

(** [loadAutoDeleteSettings]: [parseInt(settings.currentSetting) || 24], the
    value put into the input field. *)
Definition displayed_hours (currentSetting : JsVal) : number :=
  let n := parseInt currentSetting in
  if truthy (VNum n) then n else Num 24.

(** ** The functions behind the buttons.  [fetch] is the server's answer to the
    request as it reaches the backend, its origin allowed: the bodies
    exchanged are JSON values that serialising and parsing leave as they are.
    Of what a function does to the page only the notification is kept;
    [confirmed] is what [confirm] returned; the reloads that follow a
    notification are requests of their own. *)

Variable cfg : Config.

Definition fetch (m : Method) (p : list jsstring) (b : JsVal)
  : World -> Response * World :=
  app cfg {| method := m; path := p;
             originalUrl := flat_map (fun seg => ch "/" :: seg) p;
             req_body := b |}.

(** [checkBackendStatus()]: the text and the class of the status element. *)
Definition checkBackendStatus (w : World) : (jsstring * jsstring) * World :=
  let (response, w') := fetch GET [u "health"] (VObj []) w in
  if response_ok response then
    match get (body response) (u "environment") with
    | Ok environment =>
        ((u "Connected (" ++ ToString environment ++ u ")", u "status-connected"), w')
    | Throw _ => ((u "Disconnected", u "status-disconnected"), w')
    end
  else ((u "Disconnected", u "status-disconnected"), w').

(** [addMessage()] with [value] in the input field.  A response that is not
    ok throws an error made of the server's [error], which the [catch] block
    shows. *)
Definition addMessage (value : jsstring) (w : World) : Notice * World :=
  match text_to_send value with
  | None => (Failure (str "Please enter a message"), w)
  | Some text =>
      let (response, w') := fetch POST [u "messages"] (obj [("text", VStr text)]) w in
      if negb (response_ok response) then
        let message :=
          match get (body response) (u "error") with
          | Ok error => ToString (or_else error (str "Failed to add message"))
          | Throw e => error_message e
          end in
        (Failure (or_else (VStr message)
                    (str "Failed to add message. Check backend connection.")), w')
      else (Success (str "Message added successfully"), w')
  end.

(** [deleteMessage(messageId)]; [None] for an id whose URL is not modelled. *)
Definition deleteMessage (messageId : jsstring) (confirmed : bool) (w : World)
  : option (option Notice * World) :=
  match message_path messageId with
  | None => None
  | Some p =>
      Some (if negb confirmed then (None, w)
            else
              let (response, w') := fetch DELETE p (VObj []) w in
              if negb (response_ok response) then
                (Some (Failure (str "Failed to delete message. Check backend connection.")),
                 w')
              else (Some (Success (str "Message deleted successfully")), w'))
  end.

(** The notification [clearMessagesOlderThan] shows for a response. *)
Definition older_than_notice (hours : number) (response : Response) : Notice :=
  let result := body response in
  if response_ok response then
    match get result (u "message") with
    | Ok message =>
        if truthy message then Success message
        else
          match get result (u "deletedCount") with
          | Ok deletedCount =>
              Success (VStr (u "Deleted " ++ ToString deletedCount
                             ++ u " messages older than " ++ Number_toString hours
                             ++ u " hours"))
          | Throw _ =>
              Failure (str "Failed to delete old messages. Check backend connection.")
          end
    | Throw _ => Failure (str "Failed to delete old messages. Check backend connection.")
    end
  else
    match get result (u "error") with
    | Ok error =>
        if strict_eq_str error (u "Message not found")
        then Success (str "No messages found older than the specified time")
        else Failure (or_else error (str "Failed to delete old messages"))
    | Throw _ => Failure (str "Failed to delete old messages. Check backend connection.")
    end.

(** [clearMessagesOlderThan()] with [value] in the hours field. *)
Definition clearMessagesOlderThan (value : jsstring) (confirmed : bool) (w : World)
  : option Notice * World :=
  match hours_to_send value with
  | None => (Some (Failure (str "Please enter a valid number of hours (minimum 1)")), w)
  | Some hours =>
      if negb confirmed then (None, w)
      else
        let (response, w') :=
          fetch DELETE [u "messages"; u "older-than"] (obj [("hours", sent_number hours)]) w in
        (Some (older_than_notice hours response), w')
  end.

(** [setAutoDelete()] with [value] in the auto-delete field. *)
Definition setAutoDelete (value : jsstring) (confirmed : bool) (w : World)
  : option Notice * World :=
  match hours_to_send value with
  | None => (Some (Failure (str "Please enter a valid number of hours (minimum 1)")), w)
  | Some hours =>
      if negb confirmed then (None, w)
      else
        let (response, w') :=
          fetch POST [u "messages"; u "auto-delete"] (obj [("hours", sent_number hours)]) w in
        if negb (response_ok response) then
          (Some (Failure (str "Failed to set auto-deletion. Check backend connection.")), w')
        else
          match get (body response) (u "message") with
          | Ok message =>
              (Some (Success (or_else message (str "Auto-deletion timer set successfully"))),
               w')
          | Throw _ =>
              (Some (Failure (str "Failed to set auto-deletion. Check backend connection.")),
               w')
          end
  end.

(** What [loadAutoDeleteSettings] puts on the page: the status text and, when
    it sets it, the value of the input field. *)
Record Settings := { status_text : jsstring; input_value : option number }.

(** [loadAutoDeleteSettings()]; [None] when the response is not ok and the
    page stays as it is. *)
Definition loadAutoDeleteSettings (w : World) : option Settings * World :=
  let (response, w') := fetch GET [u "messages"; u "auto-delete"] (VObj []) w in
  if response_ok response then
    match get (body response) (u "currentSetting") with
    | Ok currentSetting =>
        (Some {| status_text :=
                   u "Auto-deletion: " ++ ToString (or_else currentSetting (str "24 hours"));
                 input_value := Some (displayed_hours currentSetting) |}, w')
    | Throw _ =>
        (Some {| status_text := u "Auto-deletion: Unknown"; input_value := None |}, w')
    end
  else (None, w').

End WithEngine.

End Browser.

(* ================================================================== *)
(** * More worlds and requests for the examples *)
(* ================================================================== *)

Module MoreExamples.
Import Js Server Layout Middleware Startup Browser Examples.
Local Open Scope string_scope.
Local Open Scope list_scope.
Local Open Scope Z_scope.

#[local] Existing Instance example_engine.

(** A production configuration with two allowed origins. *)
Definition production_config : Config :=
  load_config
    (fun k => if str_eqb k (u "NODE_ENV") then Some (u "production")
              else if str_eqb k (u "CORS_ORIGINS")
                   then Some (u "https://a.example,https://b.example")
              else if str_eqb k (u "AUTO_DELETE_HOURS") then Some (u "48")
              else None)
    (u "data/messages.json").

(** A data file that holds an object, and one that holds a string. *)
Definition object_world : World :=
  {| file := Some (u "{}"); writable := true; now := 1700007200000;
     ticks := [1; 0; 2; 0; 1]%nat; autoDeleteTimer := None |}.

Definition string_world : World :=
  {| file := Some (dquote :: u "abc" ++ [dquote]); writable := true;
     now := 1700007200000; ticks := []; autoDeleteTimer := None |}.

(** No data file yet, in a directory that exists and can be written. *)
Definition fresh_world : World :=
  {| file := None; writable := true; now := 1700007200000;
     ticks := [1; 1; 1]%nat; autoDeleteTimer := None |}.

Definition fresh_disk : Disk :=
  {| dir_exists := true; mkdir_succeeds := false; stat_succeeds := true;
     file_exists := false; dir_access := true; file_access := true |}.

(** The clock an hour and a half after the second example message. *)
Definition later_clock : Z := 1700009000000.

(** The locale's formatting in the examples. *)
Definition example_locale (date : number) : jsstring := u "(locale)".

(** A third message, of the same time as [hello_again]. *)
Definition hello_too : Message :=
  {| id := u "1700003600001"; text := u "hello too";
     timestamp := u "2023-11-14T23:13:20.000Z" |}.

(** The message the create route makes of [hi] in the example world. *)
Definition hi : Message :=
  {| id := u "1700007200001"; text := u "hi";
     timestamp := u "2023-11-15T00:13:20.001Z" |}.

Definition get_health_request : Request := request GET ["health"] (VObj []).


Definition post_number : Request :=
  request POST ["messages"] (obj [("text", VNum (Num 5))]).

End MoreExamples.

(* ================================================================== *)
(** * Theory *)
(* ================================================================== *)

(** ** The client helper *)

Module ClientFacts.
Import Js Client.

Lemma replace_all_app c r a b :
  replace_all c r (a ++ b) = replace_all c r a ++ replace_all c r b.
Proof.
  induction a as [|x a IH]; simpl; [reflexivity|].
  destruct (char_eqb x c); rewrite IH; [now rewrite app_assoc | reflexivity].
Qed.

Lemma replace_all_other c r x : x <> c -> replace_all c r [x] = [x].
Proof.
  intros H. simpl. unfold char_eqb. now rewrite (proj2 (N.eqb_neq x c) H).
Qed.

Lemma escape_passes_app a b :
  escape_passes (a ++ b) = escape_passes a ++ escape_passes b.
Proof. unfold escape_passes. now rewrite !replace_all_app. Qed.

Lemma escape_passes_one c : escape_passes [c] = escape_char c.
Proof.
  unfold escape_passes, escape_char, char_eqb.
  destruct (N.eqb_spec c (ch "&")) as [->|H1]; [reflexivity|].
  rewrite (replace_all_other _ _ _ H1).
  destruct (N.eqb_spec c (ch "<")) as [->|H2]; [reflexivity|].
  rewrite (replace_all_other _ _ _ H2).
  destruct (N.eqb_spec c (ch ">")) as [->|H3]; [reflexivity|].
  rewrite (replace_all_other _ _ _ H3).
  destruct (N.eqb_spec c dquote) as [->|H4]; [reflexivity|].
  rewrite (replace_all_other _ _ _ H4).
  destruct (N.eqb_spec c (ch "'")) as [->|H5]; [reflexivity|].
  now rewrite (replace_all_other _ _ _ H5).
Qed.

(** The five passes amount to one pass that rewrites each character on its own. *)
Lemma escapeHtml_flat_map s : escapeHtml s = flat_map escape_char s.
Proof.
  destruct s as [|c s]; [reflexivity|].
  change (escapeHtml (c :: s)) with (escape_passes (c :: s)).
  generalize (c :: s). clear. intros s.
  induction s as [|c s IH]; [reflexivity|].
  change (c :: s) with ([c] ++ s).
  rewrite escape_passes_app, escape_passes_one, IH. reflexivity.
Qed.

(** A character's translation is itself, when it is not special, or an entity. *)
Lemma escape_char_cases c :
  (escape_char c = [c] /\ c <> ch "&" /\ c <> ch "<" /\ c <> ch ">"
   /\ c <> dquote /\ c <> ch "'")
  \/ (In (escape_char c) entities).
Proof.
  unfold escape_char, char_eqb.
  destruct (N.eqb_spec c (ch "&")); [right; simpl; tauto|].
  destruct (N.eqb_spec c (ch "<")); [right; simpl; tauto|].
  destruct (N.eqb_spec c (ch ">")); [right; simpl; tauto|].
  destruct (N.eqb_spec c dquote); [right; simpl; tauto|].
  destruct (N.eqb_spec c (ch "'")); [right; simpl; tauto|].
  left. tauto.
Qed.

(** An entity is an ampersand followed by characters that are neither an
    ampersand nor one of the escaped characters. *)
Lemma entity_shape e :
  In e entities ->
  exists t, e = ch "&" :: t /\
    forall x, In x t ->
      x <> ch "&" /\ x <> ch "<" /\ x <> ch ">" /\ x <> dquote /\ x <> ch "'".
Proof.
  intros H. simpl in H.
  repeat (destruct H as [<-|H];
          [eexists; split; [reflexivity|];
           intros x Hx; simpl in Hx;
           repeat (destruct Hx as [<-|Hx]; [repeat split; discriminate|]);
           contradiction|]).
  contradiction.
Qed.

Lemma split_after (c : char) t : forall pre suf out,
  pre ++ c :: suf = t ++ out -> ~ In c t ->
  exists pre', pre = t ++ pre' /\ out = pre' ++ c :: suf.
Proof.
  induction t as [|x t IH]; intros pre suf out H Hn.
  - exists pre. now split.
  - destruct pre as [|y pre]; simpl in H; injection H as Hx Ht.
    + subst. exfalso. apply Hn. now left.
    + subst y. destruct (IH pre suf out Ht) as (pre' & -> & ->).
      * intros Hin. apply Hn. now right.
      * exists pre'. now split.
Qed.

(** C9: for every input string, the output of [escapeHtml] holds none of the
    characters [<], [>], the double quote and the single quote, and every
    ampersand in it is the first character of one of the five entities
    [&amp;], [&lt;], [&gt;], [&quot;], [&#039;] that the function emits. *)
Theorem escapeHtml_output_is_inert : forall unsafe : jsstring,
  (forall c, In c (escapeHtml unsafe) ->
     c <> ch "<" /\ c <> ch ">" /\ c <> dquote /\ c <> ch "'")
  /\ (forall pre suf, escapeHtml unsafe = pre ++ ch "&" :: suf ->
        exists e rest, In e entities /\ ch "&" :: suf = e ++ rest).
Proof.
  intros unsafe. rewrite escapeHtml_flat_map. split.
  - intros c Hc. apply in_flat_map in Hc as (x & _ & Hx).
    destruct (escape_char_cases x) as [(E & _ & H2 & H3 & H4 & H5)|He].
    + rewrite E in Hx. destruct Hx as [<-|[]]. tauto.
    + destruct (entity_shape _ He) as (t & E & Ht). rewrite E in Hx.
      destruct Hx as [<-|Hx]; [repeat split; discriminate|].
      destruct (Ht c Hx); tauto.
  - induction unsafe as [|x s IH]; intros pre suf H.
    + destruct pre; discriminate.
    + simpl in H.
      destruct (escape_char_cases x) as [(E & H1 & _)|He].
      * rewrite E in H.
        destruct (split_after _ [x] pre suf _ (eq_sym H)) as (pre' & _ & Hout).
        { intros [Hx|[]]. now apply H1. }
        now apply (IH pre').
      * destruct (entity_shape _ He) as (t & E & Ht).
        destruct pre as [|y pre].
        -- exists (escape_char x), (flat_map escape_char s). now split.
        -- rewrite E in H. simpl in H. injection H as _ H.
           destruct (split_after _ t pre suf _ (eq_sym H)) as (pre' & _ & Hout).
           { intros Hin. now destruct (Ht _ Hin). }
           now apply (IH pre').
Qed.

End ClientFacts.

(** ** JSON text *)

Module JsonFacts.
Import Js Json.

Lemma hex_value_digit d : (d < 16)%N -> hex_value (hex_digit d) = Some d.
Proof.
  intros H. unfold hex_digit, hex_value, is_digit.
  destruct (N.ltb_spec d 10).
  - replace ((48 <=? 48 + d)%N && (48 + d <=? 57)%N) with true.
    + f_equal. lia.
    + symmetry. apply andb_true_iff. split; apply N.leb_le; lia.
  - replace ((48 <=? 87 + d)%N && (87 + d <=? 57)%N) with false.
    + replace ((97 <=? 87 + d)%N && (87 + d <=? 102)%N) with true.
      * f_equal. lia.
      * symmetry. apply andb_true_iff. split; apply N.leb_le; lia.
    + symmetry. apply andb_false_iff. right. apply N.leb_gt. lia.
Qed.

Lemma hex4_value_Z (c : Z) : 0 <= c < 65536 ->
  (c / 4096) mod 16 * 4096 + (c / 256) mod 16 * 256 + (c / 16) mod 16 * 16 + c mod 16 = c.
Proof.
  intros H. Z.div_mod_to_equations. lia.
Qed.

Lemma hex4_value (c : N) : (c < 65536)%N ->
  ((c / 4096) mod 16 * 4096 + (c / 256) mod 16 * 256 + (c / 16) mod 16 * 16 + c mod 16 = c)%N.
Proof.
  intros H. apply N2Z.inj.
  rewrite !N2Z.inj_add, !N2Z.inj_mul, !N2Z.inj_mod, !N2Z.inj_div.
  apply hex4_value_Z. lia.
Qed.

Lemma parse_unicode_escape c rest : (c < 65536)%N ->
  parse_string_body (unicode_escape c ++ rest) = cons_fst c (parse_string_body rest).
Proof.
  intros H. unfold unicode_escape.
  cbn [app parse_string_body].
  change (char_eqb backslash dquote) with false.
  change (char_eqb backslash backslash) with true.
  change (simple_escape (ch "u")) with (@None char).
  change (char_eqb (ch "u") (ch "u")) with true.
  cbv iota.
  rewrite !hex_value_digit by (apply N.mod_lt; discriminate).
  now rewrite hex4_value.
Qed.

Lemma parse_literal_char c rest :
  (32 <= c)%N -> c <> dquote -> c <> backslash ->
  parse_string_body (c :: rest) = cons_fst c (parse_string_body rest).
Proof.
  intros H1 H2 H3. cbn [parse_string_body]. unfold char_eqb.
  rewrite (proj2 (N.eqb_neq _ _) H2), (proj2 (N.eqb_neq _ _) H3).
  now rewrite (proj2 (N.ltb_ge _ _) H1).
Qed.

Lemma parse_quote_char c rest :
  parse_string_body (quote_char c ++ rest) = cons_fst c (parse_string_body rest).
Proof.
  unfold quote_char, char_eqb.
  destruct (N.eqb_spec c 8) as [->|H8]; [reflexivity|].
  destruct (N.eqb_spec c 9) as [->|H9]; [reflexivity|].
  destruct (N.eqb_spec c 10) as [->|H10]; [reflexivity|].
  destruct (N.eqb_spec c 12) as [->|H12]; [reflexivity|].
  destruct (N.eqb_spec c 13) as [->|H13]; [reflexivity|].
  destruct (N.eqb_spec c dquote) as [->|Hq]; [reflexivity|].
  destruct (N.eqb_spec c backslash) as [->|Hb]; [reflexivity|].
  destruct (N.ltb_spec c 32) as [Hlt|Hge].
  - apply parse_unicode_escape. lia.
  - now apply parse_literal_char.
Qed.

Lemma high_surrogate_range c :
  is_high_surrogate c = true -> (55296 <= c < 65536)%N.
Proof.
  unfold is_high_surrogate. intros H. apply andb_true_iff in H as [H1 H2].
  apply N.leb_le in H1, H2. lia.
Qed.

Lemma low_surrogate_range c :
  is_low_surrogate c = true -> (55296 <= c < 65536)%N.
Proof.
  unfold is_low_surrogate. intros H. apply andb_true_iff in H as [H1 H2].
  apply N.leb_le in H1, H2. lia.
Qed.

Lemma parse_surrogate_literal c rest : (55296 <= c)%N ->
  parse_string_body (c :: rest) = cons_fst c (parse_string_body rest).
Proof.
  intros H. apply parse_literal_char; unfold dquote, backslash; lia.
Qed.

Lemma parse_quote_chars_bounded : forall n s, (List.length s <= n)%nat ->
  forall rest,
  parse_string_body (quote_chars s ++ dquote :: rest) = Some (s, rest).
Proof.
  induction n as [|n IH]; intros s Hn rest.
  - destruct s; [reflexivity | simpl in Hn; lia].
  - destruct s as [|c s]; [reflexivity|].
    simpl in Hn. cbn [quote_chars].
    destruct (is_high_surrogate c) eqn:Hh.
    + apply high_surrogate_range in Hh.
      destruct s as [|d s].
      * rewrite parse_unicode_escape by lia. reflexivity.
      * destruct (is_low_surrogate d) eqn:Hl.
        -- apply low_surrogate_range in Hl. cbn [app].
           rewrite !parse_surrogate_literal by lia.
           rewrite IH; [reflexivity | simpl in Hn; lia].
        -- rewrite <- app_assoc, parse_unicode_escape by lia.
           rewrite IH; [reflexivity | simpl in *; lia].
    + destruct (is_low_surrogate c) eqn:Hl.
      * apply low_surrogate_range in Hl.
        rewrite <- app_assoc, parse_unicode_escape by lia.
        rewrite IH; [reflexivity | lia].
      * rewrite <- app_assoc, parse_quote_char.
        rewrite IH; [reflexivity | lia].
Qed.

(** Reading back what QuoteJSONString wrote. *)
Lemma parse_quote_chars s rest :
  parse_string_body (quote_chars s ++ dquote :: rest) = Some (s, rest).
Proof. now apply (parse_quote_chars_bounded (List.length s)). Qed.

End JsonFacts.

Module StoreFacts.
Import Js Json Server Layout JsonFacts.

Section WithEngine.
Context {E : Engine}.

Ltac list_norm := simpl; repeat (rewrite <- app_assoc; simpl); try reflexivity.

Lemma message_text_app m r1 r2 : message_text m r1 ++ r2 = message_text m (r1 ++ r2).
Proof. unfold message_text, quoted. cbn [u map list_ascii_of_string]. list_norm. Qed.

Lemma serialize_message m :
  SerializeJSONProperty (u "  ") (message_value m) = Some (message_text m []).
Proof.
  unfold message_text, quoted, message_value.
  cbn [SerializeJSONProperty flat_map snd fst join].
  unfold QuoteJSONString, gap, newline.
  cbn [u map list_ascii_of_string app].
  f_equal. list_norm.
Qed.

Lemma parse_message f m rest :
  parse_value (5 + f) (message_text m rest) = Some (message_value m, rest).
Proof.
  unfold message_text, quoted, message_value.
  simpl.
  rewrite parse_quote_chars. simpl.
  rewrite parse_quote_chars. simpl.
  rewrite parse_quote_chars. simpl.
  reflexivity.
Qed.

Lemma parse_value_ws f c s :
  is_json_ws c = true -> parse_value f (c :: s) = parse_value f s.
Proof. intros H. destruct f; [reflexivity|]. simpl. now rewrite H. Qed.

Lemma skip_ws_stop c s : is_json_ws c = false -> skip_ws (c :: s) = c :: s.
Proof. intros H. simpl. now rewrite H. Qed.

Lemma parse_elements_text : forall msgs f rest,
  msgs <> [] -> (List.length msgs + 5 <= f)%nat ->
  parse_elements f (elements_text msgs rest) = Some (map message_value msgs, rest).
Proof.
  induction msgs as [|m msgs IH]; intros f rest Hne Hf; [contradiction|].
  destruct f as [|f]; [simpl in Hf; lia|].
  cbn [elements_text parse_elements].
  cbn [u map list_ascii_of_string Datatypes.app].
  rewrite !parse_value_ws by reflexivity.
  simpl in Hf.
  replace f with (5 + (f - 5))%nat by lia.
  rewrite parse_message.
  destruct msgs as [|m' msgs].
  - reflexivity.
  - rewrite skip_ws_stop by reflexivity.
    change (char_eqb (ch ",") (ch ",")) with true. cbv iota.
    rewrite IH; [reflexivity | discriminate | simpl in *; lia].
Qed.

Lemma join_elements_text : forall msgs rest, msgs <> [] ->
  newline :: u "  " ++
    join (ch "," :: newline :: u "  ") (map (fun m => message_text m []) msgs)
    ++ newline :: u "]" ++ rest
  = elements_text msgs rest.
Proof.
  induction msgs as [|m msgs IH]; intros rest Hne; [contradiction|].
  destruct msgs as [|m' msgs].
  - cbn [map join elements_text]. now rewrite message_text_app.
  - specialize (IH rest ltac:(discriminate)).
    change (elements_text (m :: m' :: msgs) rest)
      with (newline :: u "  " ++
            message_text m (ch "," :: elements_text (m' :: msgs) rest)).
    rewrite <- IH.
    cbn [map join]. rewrite <- !app_assoc, message_text_app.
    reflexivity.
Qed.

Lemma serialize_collection msgs :
  stringify (collection_value msgs) = Some (collection_text msgs).
Proof.
  unfold stringify, collection_value, collection_text.
  cbn [SerializeJSONProperty]. rewrite map_map.
  rewrite (map_ext _ (fun m => message_text m [])).
  2:{ intros m. change ([] ++ gap) with (u "  "). now rewrite serialize_message. }
  destruct msgs as [|m msgs]; [reflexivity|].
  rewrite <- (join_elements_text (m :: msgs) []) by discriminate.
  cbn [map]. reflexivity.
Qed.

Lemma message_text_length m rest :
  (1 + List.length rest <= List.length (message_text m rest))%nat.
Proof.
  rewrite <- (app_nil_l rest) at 2. rewrite <- message_text_app, length_app.
  unfold message_text. simpl. lia.
Qed.

Lemma elements_text_length msgs rest :
  (List.length msgs + 2 <= List.length (elements_text msgs rest))%nat.
Proof.
  induction msgs as [|m msgs IH].
  - simpl. lia.
  - cbn [elements_text].
    match goal with |- context [message_text m ?k] =>
      pose proof (message_text_length m k) as Hm;
      assert (Hk : (List.length msgs + 2 <= List.length k)%nat)
        by (destruct msgs; [exact IH | cbn [List.length] in *; lia])
    end.
    cbn [List.length u map list_ascii_of_string Datatypes.app]. simpl List.length in *. lia.
Qed.

(** Reading back the text [JSON.stringify] writes for a collection. *)
Lemma parse_collection_text msgs :
  parse (collection_text msgs) = Ok (collection_value msgs).
Proof.
  unfold parse, collection_text, collection_value.
  destruct msgs as [|m msgs]; [reflexivity|].
  set (els := elements_text (m :: msgs) []).
  assert (Hlen : (List.length (m :: msgs) + 2 <= List.length els)%nat)
    by apply elements_text_length.
  remember (2 * List.length (ch "[" :: els) + 2)%nat as fuel eqn:Hfuel.
  destruct fuel as [|fuel]; [simpl in Hfuel; lia|].
  cbn [parse_value].
  rewrite skip_ws_stop by reflexivity.
  change (char_eqb (ch "[") (ch "{")) with false.
  change (char_eqb (ch "[") (ch "[")) with true. cbv iota.
  assert (Hskip : skip_ws els = ch "{" :: List.tl (skip_ws els)).
  { subst els. cbn [elements_text]. reflexivity. }
  rewrite Hskip. change (char_eqb (ch "{") (ch "]")) with false. cbv iota.
  subst els. rewrite parse_elements_text.
  - reflexivity.
  - discriminate.
  - simpl in *. lia.
Qed.

End WithEngine.
End StoreFacts.

(** ** Dates *)

Module DateFacts.
Import Js JsDate.

Lemma DayFromYear_succ y :
  DayFromYear (y + 1) = DayFromYear y + 365 + (if InLeapYear y then 1 else 0).
Proof.
  unfold DayFromYear, InLeapYear.
  destruct (y mod 4 =? 0) eqn:H4; destruct (y mod 100 =? 0) eqn:H100;
    destruct (y mod 400 =? 0) eqn:H400; cbn [andb orb negb];
    rewrite ?Z.eqb_eq, ?Z.eqb_neq in *;
    Z.div_mod_to_equations; lia.
Qed.

Lemma DayFromYear_estimate day :
  let y := 1970 + day * 400 / 146097 in
  DayFromYear (y - 1) <= day < DayFromYear (y + 2).
Proof.
  cbv zeta. unfold DayFromYear. Z.div_mod_to_equations. lia.
Qed.

Lemma YearFromDay_spec day :
  DayFromYear (YearFromDay day) <= day < DayFromYear (YearFromDay day + 1).
Proof.
  pose proof (DayFromYear_estimate day) as H. cbv zeta in H.
  unfold YearFromDay.
  set (y := 1970 + day * 400 / 146097) in *.
  destruct (Z.ltb_spec day (DayFromYear y)).
  - replace (y - 1 + 1) with y by lia. lia.
  - destruct (Z.leb_spec (DayFromYear (y + 1)) day).
    + replace (y + 1 + 1) with (y + 2) by lia. lia.
    + lia.
Qed.

(** ** Digits *)

Lemma digit_is_digit n : is_digit (Z.to_N (48 + n mod 10)) = true.
Proof.
  unfold is_digit. pose proof (Z.mod_pos_bound n 10 ltac:(lia)).
  apply andb_true_iff. split; apply N.leb_le; lia.
Qed.

Lemma digit_value n : Z.of_N (Z.to_N (48 + n mod 10)) - 48 = n mod 10.
Proof. pose proof (Z.mod_pos_bound n 10 ltac:(lia)). lia. Qed.

Lemma parse_pad2 n : 0 <= n < 100 ->
  forallb is_digit (pad 2 n) = true /\ digits_value (pad 2 n) = n.
Proof.
  intros H. cbn [pad Datatypes.app forallb]. rewrite !digit_is_digit.
  split; [reflexivity|].
  unfold digits_value. cbn [fold_left]. rewrite !digit_value.
  Z.div_mod_to_equations. lia.
Qed.

Lemma parse_pad3 n : 0 <= n < 1000 ->
  forallb is_digit (pad 3 n) = true /\ digits_value (pad 3 n) = n.
Proof.
  intros H. cbn [pad Datatypes.app forallb]. rewrite !digit_is_digit.
  split; [reflexivity|].
  unfold digits_value. cbn [fold_left]. rewrite !digit_value.
  Z.div_mod_to_equations. lia.
Qed.

Lemma parse_pad4 n : 0 <= n < 10000 ->
  forallb is_digit (pad 4 n) = true /\ digits_value (pad 4 n) = n.
Proof.
  intros H. cbn [pad Datatypes.app forallb]. rewrite !digit_is_digit.
  split; [reflexivity|].
  unfold digits_value. cbn [fold_left]. rewrite !digit_value.
  Z.div_mod_to_equations. lia.
Qed.

Lemma pad_length w n : List.length (pad w n) = w.
Proof.
  revert n. induction w as [|w IH]; intros n; [reflexivity|].
  cbn [pad]. rewrite length_app, IH. simpl. lia.
Qed.

(** A field of a string is the digits that stand at its place. *)
Lemma field_at off len pre seg post :
  List.length pre = off -> List.length seg = len ->
  field off len (pre ++ seg ++ post)
  = if forallb is_digit seg then Some (digits_value seg) else None.
Proof.
  intros <- <-. unfold field.
  rewrite skipn_app, skipn_all, Nat.sub_diag. cbn [skipn Datatypes.app].
  rewrite firstn_app, firstn_all, Nat.sub_diag. cbn [firstn].
  now rewrite app_nil_r, Nat.eqb_refl.
Qed.

Lemma char_at_app i c pre post :
  List.length pre = i -> char_at i c (pre ++ c :: post) = true.
Proof.
  intros <-. unfold char_at. rewrite nth_error_app2, Nat.sub_diag by lia.
  cbn. apply N.eqb_refl.
Qed.


Lemma parse_iso_explicit (Y Mo D H Mi S Ms : jsstring) :
  List.length Y = 4%nat -> List.length Mo = 2%nat -> List.length D = 2%nat ->
  List.length H = 2%nat -> List.length Mi = 2%nat -> List.length S = 2%nat ->
  List.length Ms = 3%nat ->
  parse_iso (Y ++ ch "-" :: Mo ++ ch "-" :: D ++ ch "T" :: H ++ ch ":" :: Mi
             ++ ch ":" :: S ++ ch "." :: Ms ++ [ch "Z"])
  = match digits_of Y, digits_of Mo, digits_of D, digits_of H,
          digits_of Mi, digits_of S, digits_of Ms with
    | Some y, Some m, Some d, Some h, Some mi, Some sec, Some ms =>
        if (1 <=? m) && (m <=? 12) && (1 <=? d)
           && (d <=? DaysInMonth (InLeapYear y) m)
           && (h <=? 23) && (mi <=? 59) && (sec <=? 59)
        then Some (MakeDay y m d * msPerDay + MakeTime h mi sec ms)
        else None
    | _, _, _, _, _, _, _ => None
    end.
Proof.
  intros LY LMo LD LH LMi LS LMs.
  destruct Y as [|y1 [|y2 [|y3 [|y4 [|]]]]]; try discriminate LY.
  destruct Mo as [|m1 [|m2 [|]]]; try discriminate LMo.
  destruct D as [|d1 [|d2 [|]]]; try discriminate LD.
  destruct H as [|h1 [|h2 [|]]]; try discriminate LH.
  destruct Mi as [|i1 [|i2 [|]]]; try discriminate LMi.
  destruct S as [|s1 [|s2 [|]]]; try discriminate LS.
  destruct Ms as [|f1 [|f2 [|f3 [|]]]]; try discriminate LMs.
  unfold parse_iso.
  cbn [Datatypes.app List.length Nat.eqb andb char_at nth_error field firstn skipn].
  change (char_eqb (ch "-") (ch "-")) with true.
  change (char_eqb (ch "T") (ch "T")) with true.
  change (char_eqb (ch ":") (ch ":")) with true.
  change (char_eqb (ch ".") (ch ".")) with true.
  change (char_eqb (ch "Z") (ch "Z")) with true.
  cbn [andb]. reflexivity.
Qed.

Lemma digits_of_pad2 n : 0 <= n < 100 -> digits_of (pad 2 n) = Some n.
Proof. intros H. unfold digits_of. now destruct (parse_pad2 n H) as (-> & ->). Qed.

Lemma digits_of_pad3 n : 0 <= n < 1000 -> digits_of (pad 3 n) = Some n.
Proof. intros H. unfold digits_of. now destruct (parse_pad3 n H) as (-> & ->). Qed.

Lemma digits_of_pad4 n : 0 <= n < 10000 -> digits_of (pad 4 n) = Some n.
Proof. intros H. unfold digits_of. now destruct (parse_pad4 n H) as (-> & ->). Qed.

Lemma parse_iso_date_time_string y m d h mi s ms :
  0 <= y < 10000 -> 0 <= m < 100 -> 0 <= d < 100 -> 0 <= h < 100 ->
  0 <= mi < 100 -> 0 <= s < 100 -> 0 <= ms < 1000 ->
  parse_iso (date_time_string (pad 4 y) m d h mi s ms)
  = if (1 <=? m) && (m <=? 12) && (1 <=? d)
       && (d <=? DaysInMonth (InLeapYear y) m)
       && (h <=? 23) && (mi <=? 59) && (s <=? 59)
    then Some (MakeDay y m d * msPerDay + MakeTime h mi s ms)
    else None.
Proof.
  intros Hy Hm Hd Hh Hmi Hs Hms.
  unfold date_time_string.
  rewrite parse_iso_explicit by apply pad_length.
  rewrite digits_of_pad4, !digits_of_pad2, digits_of_pad3 by assumption.
  reflexivity.
Qed.

Lemma month_and_day (leap : bool) (diy : Z) :
  0 <= diy < 365 + (if leap then 1 else 0) ->
  let m := MonthFromDayInYear leap diy in
  let d := diy - DaysBeforeMonth leap m + 1 in
  1 <= m <= 12 /\ 1 <= d <= DaysInMonth leap m.
Proof.
  intros H. cbv zeta. unfold MonthFromDayInYear, DaysInMonth.
  destruct leap;
    repeat match goal with
           | |- context [if ?a <? ?b then _ else _] => destruct (Z.ltb_spec a b)
           end;
    unfold DaysBeforeMonth in *; cbn in *; lia.
Qed.

Lemma days_in_month_bound (leap : bool) (m : Z) : 1 <= m <= 12 -> DaysInMonth leap m <= 31.
Proof.
  intros H. unfold DaysInMonth.
  assert (Hm : m = 1 \/ m = 2 \/ m = 3 \/ m = 4 \/ m = 5 \/ m = 6 \/ m = 7
               \/ m = 8 \/ m = 9 \/ m = 10 \/ m = 11 \/ m = 12) by lia.
  destruct leap; repeat (destruct Hm as [->|Hm]; [vm_compute; discriminate|]);
    subst; vm_compute; discriminate.
Qed.

Lemma time_within_day tw :
  0 <= tw < msPerDay ->
  MakeTime (tw / 3600000) (tw / 60000 mod 60) (tw / 1000 mod 60) (tw mod 1000) = tw
  /\ 0 <= tw / 3600000 <= 23.
Proof.
  unfold msPerDay, MakeTime. intros H. Z.div_mod_to_equations. lia.
Qed.

Lemma year_in_range t :
  minISO <= t <= maxISO -> 0 <= YearFromDay (Day t) <= 9999.
Proof.
  unfold minISO, maxISO. intros H.
  pose proof (YearFromDay_spec (Day t)) as Hy.
  set (y := YearFromDay (Day t)) in *.
  assert (Hd : -719528 <= Day t <= 2932896).
  { unfold Day, msPerDay. Z.div_mod_to_equations. lia. }
  unfold DayFromYear in Hy. Z.div_mod_to_equations. lia.
Qed.

(** [Date.parse] reads back what [toISOString] writes, for the years 0 to
    9999. *)
Lemma parse_iso_toISOString t :
  minISO <= t <= maxISO ->
  exists s, toISOString (Num t) = Ok s /\ parse_iso s = Some t.
Proof.
  intros Ht. unfold toISOString. eexists. split; [reflexivity|].
  pose proof (year_in_range t Ht) as Hy.
  pose proof (YearFromDay_spec (Day t)) as Hspec.
  set (y := YearFromDay (Day t)) in *.
  rewrite DayFromYear_succ in Hspec.
  set (leap := InLeapYear y) in *.
  set (diy := Day t - DayFromYear y) in *.
  assert (Hdiy : 0 <= diy < 365 + (if leap then 1 else 0)) by (unfold diy; lia).
  destruct (month_and_day leap diy Hdiy) as (Hm & Hd). cbv zeta in Hd.
  set (m := MonthFromDayInYear leap diy) in *.
  set (d := diy - DaysBeforeMonth leap m + 1) in *.
  assert (Htw : 0 <= TimeWithinDay t < msPerDay)
    by (unfold TimeWithinDay, msPerDay; apply Z.mod_pos_bound; lia).
  destruct (time_within_day _ Htw) as (Htime & Hh).
  set (tw := TimeWithinDay t) in *.
  replace ((0 <=? y) && (y <=? 9999)) with true
    by (symmetry; apply andb_true_iff; split; apply Z.leb_le; lia).
  pose proof (days_in_month_bound leap m Hm) as Hdm.
  rewrite parse_iso_date_time_string;
    try lia;
    try (split; [apply Z.mod_pos_bound | pose proof (Z.mod_pos_bound (tw / 60000) 60 ltac:(lia));
                 pose proof (Z.mod_pos_bound (tw / 1000) 60 ltac:(lia));
                 pose proof (Z.mod_pos_bound tw 1000 ltac:(lia))]; lia).
  fold leap.
  replace ((1 <=? m) && (m <=? 12) && (1 <=? d) && (d <=? DaysInMonth leap m)
           && (tw / 3600000 <=? 23) && (tw / 60000 mod 60 <=? 59)
           && (tw / 1000 mod 60 <=? 59)) with true.
  - f_equal. rewrite Htime. unfold MakeDay. fold leap.
    replace (DayFromYear y + DaysBeforeMonth leap m + d - 1) with (Day t)
      by (unfold d, diy; lia).
    unfold Day, tw, TimeWithinDay. pose proof (Z.div_mod t msPerDay). unfold msPerDay in *. lia.
  - symmetry.
    pose proof (Z.mod_pos_bound (tw / 60000) 60 ltac:(lia)).
    pose proof (Z.mod_pos_bound (tw / 1000) 60 ltac:(lia)).
    repeat (apply andb_true_iff; split); apply Z.leb_le; lia.
Qed.

End DateFacts.

(** ** Rounding *)

Module RoundFacts.
Import Js.
Local Open Scope list_scope.
Local Open Scope Z_scope.

Lemma round_Z_small z : Z.abs z < 2 ^ 53 -> round_Z z = Num z.
Proof. intros H. unfold round_Z. now rewrite (proj2 (Z.ltb_lt _ _) H). Qed.

(** The order of [n / 2^k] and an integer. *)
Lemma of_succ_nat_pow k : 2 ^ Z.pos (Pos.of_succ_nat k) = 2 * 2 ^ Z.of_nat k.
Proof.
  rewrite Zpos_P_of_succ_nat, <- Nat2Z.inj_succ, Nat2Z.inj_succ.
  rewrite Z.pow_succ_r by lia. reflexivity.
Qed.

Lemma num_ge_dyadic n k c :
  num_ge (dyadic n k) (Num c) = (c * 2 ^ Z.of_nat k <=? n).
Proof.
  revert n. induction k as [|k IH]; intros n.
  - cbn [dyadic num_ge]. now rewrite Z.mul_1_r.
  - cbn [dyadic]. destruct (Z.even n) eqn:He.
    + rewrite IH. apply Z.even_spec in He. destruct He as (h & ->).
      replace (2 * h / 2) with h by (symmetry; rewrite Z.mul_comm; apply Z.div_mul; lia).
      rewrite Nat2Z.inj_succ, Z.pow_succ_r by lia.
      apply Bool.eq_true_iff_eq. rewrite !Z.leb_le. lia.
    + cbn [num_ge fraction]. rewrite of_succ_nat_pow.
      rewrite Nat2Z.inj_succ, Z.pow_succ_r by lia.
      assert (Ho : Z.odd n = true) by (rewrite <- Z.negb_even, He; reflexivity).
      apply Z.odd_spec in Ho. destruct Ho as (h & ->).
      replace (2 * h + 1 - 1) with (h * 2) by lia. rewrite Z.div_mul by lia.
      apply Bool.eq_true_iff_eq. rewrite !Z.leb_le. lia.
Qed.

Lemma num_lt_dyadic n k c :
  num_lt (dyadic n k) (Num c) = (n <? c * 2 ^ Z.of_nat k).
Proof.
  revert n. induction k as [|k IH]; intros n.
  - cbn [dyadic num_lt]. now rewrite Z.mul_1_r.
  - cbn [dyadic]. destruct (Z.even n) eqn:He.
    + rewrite IH. apply Z.even_spec in He. destruct He as (h & ->).
      replace (2 * h / 2) with h by (symmetry; rewrite Z.mul_comm; apply Z.div_mul; lia).
      rewrite Nat2Z.inj_succ, Z.pow_succ_r by lia.
      apply Bool.eq_true_iff_eq. rewrite !Z.ltb_lt. lia.
    + cbn [num_lt fraction]. rewrite of_succ_nat_pow.
      rewrite Nat2Z.inj_succ, Z.pow_succ_r by lia.
      assert (Ho : Z.odd n = true) by (rewrite <- Z.negb_even, He; reflexivity).
      apply Z.odd_spec in Ho. destruct Ho as (h & ->).
      replace (2 * h + 1 - 1) with (h * 2) by lia. rewrite Z.div_mul by lia.
      apply Bool.eq_true_iff_eq. rewrite !Z.ltb_lt. lia.
Qed.

Lemma num_gt_dyadic n k c :
  num_lt (Num c) (dyadic n k) = (c * 2 ^ Z.of_nat k <? n).
Proof.
  revert n. induction k as [|k IH]; intros n.
  - cbn [dyadic num_lt]. now rewrite Z.mul_1_r.
  - cbn [dyadic]. destruct (Z.even n) eqn:He.
    + rewrite IH. apply Z.even_spec in He. destruct He as (h & ->).
      replace (2 * h / 2) with h by (symmetry; rewrite Z.mul_comm; apply Z.div_mul; lia).
      rewrite Nat2Z.inj_succ, Z.pow_succ_r by lia.
      apply Bool.eq_true_iff_eq. rewrite !Z.ltb_lt. lia.
    + cbn [num_lt fraction]. rewrite of_succ_nat_pow.
      rewrite Nat2Z.inj_succ, Z.pow_succ_r by lia.
      assert (Ho : Z.odd n = true) by (rewrite <- Z.negb_even, He; reflexivity).
      apply Z.odd_spec in Ho. destruct Ho as (h & ->).
      replace (2 * h + 1 - 1) with (h * 2) by lia. rewrite Z.div_mul by lia.
      apply Bool.eq_true_iff_eq. rewrite !Z.ltb_lt. lia.
Qed.

Lemma dyadic_not_NaN n k : dyadic n k <> NaN.
Proof.
  revert n. induction k as [|k IH]; intros n; cbn [dyadic]; [discriminate|].
  destruct (Z.even n); [apply IH | discriminate].
Qed.

(** The exponent [round_ratio] works with is not above that of the
    quotient. *)
Lemma exponent_below a d :
  0 < a -> 0 < d ->
  let e0 := Z.log2 a - Z.log2 d in
  let e := if a * 2 ^ Z.max 0 (- e0) <? d * 2 ^ Z.max 0 e0 then e0 - 1 else e0 in
  0 <= e -> d * 2 ^ e <= a.
Proof.
  intros Ha Hd e0 e He.
  pose proof (Z.log2_spec a Ha) as (La & Ua).
  pose proof (Z.log2_spec d Hd) as (Ld & Ud).
  pose proof (Z.log2_nonneg a). pose proof (Z.log2_nonneg d).
  subst e. destruct (Z.ltb_spec (a * 2 ^ Z.max 0 (- e0)) (d * 2 ^ Z.max 0 e0)) as [Hlt|Hge].
  - (* e = e0 - 1 *)
    assert (H1 : d * 2 ^ (e0 - 1) < 2 ^ Z.succ (Z.log2 d) * 2 ^ (e0 - 1)).
    { apply Z.mul_lt_mono_pos_r; [apply Z.pow_pos_nonneg; lia | exact Ud]. }
    rewrite <- Z.pow_add_r in H1 by lia.
    replace (Z.succ (Z.log2 d) + (e0 - 1)) with (Z.log2 a) in H1 by (subst e0; lia).
    lia.
  - replace (Z.max 0 (- e0)) with 0 in Hge by lia.
    replace (Z.max 0 e0) with e0 in Hge by lia.
    rewrite Z.pow_0_r in Hge. lia.
Qed.

(** What [round_ratio] returns: zero for zero; otherwise the quotient cut at
    the exponent [p] and rounded to [q'], with the sign of [n]. *)
Lemma round_ratio_cases n d :
  0 < d ->
  (n = 0 /\ round_ratio n d = Num 0)
  \/ exists q' p,
       Z.abs n * 2 ^ Z.max 0 (- p) / (d * 2 ^ Z.max 0 p) <= q'
       /\ ((0 <= p /\ d * 2 ^ p <= Z.abs n
            /\ (round_ratio n d = Num (Z.sgn n * q' * 2 ^ p)
                \/ round_ratio n d = Inf (n <? 0)))
           \/ (p < 0 /\ round_ratio n d = dyadic (Z.sgn n * q') (Z.to_nat (- p)))).
Proof.
  intros Hd. unfold round_ratio.
  destruct (Z.eqb_spec (Z.abs n) 0) as [H0|H0]; [left; split; [lia | reflexivity]|].
  right.
  set (a := Z.abs n) in *.
  set (e0 := Z.log2 a - Z.log2 d).
  set (e := if a * 2 ^ Z.max 0 (- e0) <? d * 2 ^ Z.max 0 e0 then e0 - 1 else e0).
  set (p := Z.max (e - 52) (-1074)).
  set (num := a * 2 ^ Z.max 0 (- p)).
  set (den := d * 2 ^ Z.max 0 p).
  set (q := num / den).
  set (q' := if (2 * (num mod den) <? den) || ((2 * (num mod den) =? den) && Z.even q)
             then q else q + 1).
  exists q', p.
  assert (Hq : q <= q') by (subst q'; destruct (_ || _); lia).
  split; [exact Hq|].
  destruct (Z.leb_spec 0 p) as [Hp|Hp].
  - left. split; [exact Hp|]. split.
    + assert (Ha : 0 < a) by (subst a; lia).
      assert (He : 0 <= e) by (subst p; lia).
      pose proof (exponent_below a d Ha Hd He) as Hb. fold e0 in Hb. fold e in Hb.
      assert (Hpe : 2 ^ p <= 2 ^ e) by (apply Z.pow_le_mono_r; subst p; lia).
      assert (0 < 2 ^ p) by (apply Z.pow_pos_nonneg; lia).
      nia.
    + destruct (q' * 2 ^ p <? 2 ^ 1024); [now left | now right].
  - right. split; [exact Hp | reflexivity].
Qed.

Lemma quotient_nonneg a d s t : 0 <= a -> 0 < d -> 0 <= s -> 0 <= t -> 0 <= a * 2 ^ s / (d * 2 ^ t).
Proof.
  intros. apply Z.div_pos.
  - apply Z.mul_nonneg_nonneg; [lia | apply Z.pow_nonneg; lia].
  - apply Z.mul_pos_pos; [lia | apply Z.pow_pos_nonneg; lia].
Qed.

(** Rounding keeps the sign. *)
Lemma round_ratio_nonpos n d :
  n <= 0 -> 0 < d ->
  num_lt (Num 0) (round_ratio n d) = false
  /\ num_lt (round_ratio n d) (Num 1) = true.
Proof.
  intros Hn Hd.
  destruct (round_ratio_cases n d Hd) as [(-> & ->)|(q' & p & Hq & H)]; [now split|].
  assert (H0 : 0 <= q').
  { pose proof (quotient_nonneg (Z.abs n) d (Z.max 0 (- p)) (Z.max 0 p)). lia. }
  assert (Hs : Z.sgn n * q' <= 0) by nia.
  destruct H as [(Hp & Hb & [-> | ->])|(Hp & ->)].
  - cbn [num_lt]. assert (0 < 2 ^ p) by (apply Z.pow_pos_nonneg; lia).
    split; [apply Z.ltb_ge | apply Z.ltb_lt]; nia.
  - assert (Hneg : (n <? 0) = true \/ n = 0) by (destruct (Z.ltb_spec n 0); [now left | right; lia]).
    destruct Hneg as [-> | ->]; [now split|].
    exfalso. pose proof (Z.pow_pos_nonneg 2 p ltac:(lia) Hp).
    change (Z.abs 0) with 0 in Hb. nia.
  - rewrite num_gt_dyadic, num_lt_dyadic.
    assert (0 < 2 ^ Z.of_nat (Z.to_nat (- p))) by (apply Z.pow_pos_nonneg; lia).
    split; [apply Z.ltb_ge | apply Z.ltb_lt]; nia.
Qed.

Lemma round_ratio_nonneg n d :
  0 <= n -> 0 < d -> num_lt (round_ratio n d) (Num 0) = false.
Proof.
  intros Hn Hd.
  destruct (round_ratio_cases n d Hd) as [(-> & ->)|(q' & p & Hq & H)]; [reflexivity|].
  assert (H0 : 0 <= q').
  { pose proof (quotient_nonneg (Z.abs n) d (Z.max 0 (- p)) (Z.max 0 p)). lia. }
  assert (Hs : 0 <= Z.sgn n * q') by nia.
  destruct H as [(Hp & _ & [-> | ->])|(Hp & ->)].
  - cbn [num_lt]. assert (0 < 2 ^ p) by (apply Z.pow_pos_nonneg; lia).
    apply Z.ltb_ge. nia.
  - cbn [num_lt]. destruct (Z.ltb_spec n 0); [lia | reflexivity].
  - rewrite num_lt_dyadic. apply Z.ltb_ge. lia.
Qed.

(** Rounding does not go below a power of two the quotient is not below. *)
Lemma round_ratio_lower n d j :
  0 < d -> 0 <= j -> 2 ^ j * d <= n ->
  num_ge (round_ratio n d) (Num (2 ^ j)) = true.
Proof.
  intros Hd Hj Hn.
  assert (Hj0 : 0 < 2 ^ j) by (apply Z.pow_pos_nonneg; lia).
  assert (Hpos : 0 < n) by nia.
  destruct (round_ratio_cases n d Hd) as [(-> & _)|(q' & p & Hq & H)]; [lia|].
  rewrite (Z.abs_eq n) in * by lia. rewrite (Z.sgn_pos n) in * by lia.
  rewrite !Z.mul_1_l in *.
  destruct H as [(Hp & Hb & [-> | ->])|(Hp & ->)].
  - cbn [num_ge]. apply Z.leb_le.
    replace (Z.max 0 (- p)) with 0 in Hq by lia.
    replace (Z.max 0 p) with p in Hq by lia.
    rewrite Z.pow_0_r, Z.mul_1_r in Hq.
    assert (H2p : 0 < 2 ^ p) by (apply Z.pow_pos_nonneg; lia).
    destruct (Z.le_gt_cases p j) as [Hpj|Hpj].
    + assert (Hsplit : 2 ^ j = 2 ^ (j - p) * 2 ^ p).
      { rewrite <- Z.pow_add_r by lia. f_equal. lia. }
      assert (Hge : 2 ^ (j - p) <= n / (d * 2 ^ p)).
      { apply Z.div_le_lower_bound; [nia|]. rewrite Hsplit in Hn. nia. }
      rewrite Hsplit. nia.
    + assert (Hge : 1 <= n / (d * 2 ^ p)).
      { apply Z.div_le_lower_bound; [nia | lia]. }
      assert (2 ^ j <= 2 ^ p) by (apply Z.pow_le_mono_r; lia).
      nia.
  - cbn [num_ge]. destruct (Z.ltb_spec n 0); [lia | reflexivity].
  - rewrite num_ge_dyadic. apply Z.leb_le.
    replace (Z.max 0 (- p)) with (- p) in Hq by lia.
    replace (Z.max 0 p) with 0 in Hq by lia.
    rewrite Z.pow_0_r, Z.mul_1_r in Hq.
    rewrite Z2Nat.id by lia.
    assert (H2p : 0 < 2 ^ (- p)) by (apply Z.pow_pos_nonneg; lia).
    assert (Hge : 2 ^ j * 2 ^ (- p) <= n * 2 ^ (- p) / d).
    { apply Z.div_le_lower_bound; [lia | nia]. }
    lia.
Qed.

(** The order of a rounded integer and a small one. *)
Lemma round_Z_positive z : 0 < z -> num_ge (round_Z z) (Num 1) = true.
Proof.
  intros Hz. unfold round_Z. destruct (Z.abs z <? 2 ^ 53).
  - cbn [num_ge]. apply Z.leb_le. lia.
  - apply (round_ratio_lower z 1 0); lia.
Qed.

(** The order of numbers and of integers. *)
Lemma num_ge_lt x a b : num_ge x (Num a) = true -> b < a -> num_lt (Num b) x = true.
Proof.
  intros H Hab. destruct x as [|v|m k|[|]]; cbn [num_ge num_lt fraction] in *;
    try discriminate; try reflexivity.
  - apply Z.leb_le in H. apply Z.ltb_lt. lia.
  - apply Z.leb_le in H. apply Z.ltb_lt.
    pose proof (Z.pow_pos_nonneg 2 (Z.pos k) ltac:(lia) ltac:(lia)).
    change (2 ^ 0) with 1 in *. nia.
Qed.

Lemma num_ge_not_lt x a b : num_ge x (Num a) = true -> b <= a -> num_lt x (Num b) = false.
Proof.
  intros H Hab. destruct x as [|v|m k|[|]]; cbn [num_ge num_lt fraction] in *;
    try discriminate; try reflexivity.
  - apply Z.leb_le in H. apply Z.ltb_ge. lia.
  - apply Z.leb_le in H. apply Z.ltb_ge.
    pose proof (Z.pow_pos_nonneg 2 (Z.pos k) ltac:(lia) ltac:(lia)).
    change (2 ^ 0) with 1 in *. nia.
Qed.

Lemma round_Z_lt_0 z : num_lt (Num 0) (round_Z z) = (0 <? z).
Proof.
  unfold round_Z. destruct (Z.abs z <? 2 ^ 53); [reflexivity|].
  destruct (Z.ltb_spec 0 z) as [Hz|Hz].
  - apply (num_ge_lt _ 1 0); [|lia].
    apply (round_ratio_lower z 1 0); lia.
  - apply (round_ratio_nonpos z 1); lia.
Qed.

End RoundFacts.

(** ** Trimming *)

Module TrimFacts.
Import Js.
Local Open Scope list_scope.

Lemma trimStart_head s :
  trimStart s = [] \/ exists c t, trimStart s = c :: t /\ is_whitespace c = false.
Proof.
  induction s as [|c s IH]; [now left|].
  cbn [trimStart]. destruct (is_whitespace c) eqn:Hc; [exact IH|].
  right. now exists c, s.
Qed.

Lemma trimStart_fixed c t : is_whitespace c = false -> trimStart (c :: t) = c :: t.
Proof. intros H. cbn [trimStart]. now rewrite H. Qed.

Lemma trimStart_idempotent s : trimStart (trimStart s) = trimStart s.
Proof.
  destruct (trimStart_head s) as [->|(c & t & -> & Hc)]; [reflexivity|].
  now apply trimStart_fixed.
Qed.

Lemma trimStart_snoc l c :
  is_whitespace c = false -> trimStart (l ++ [c]) = trimStart l ++ [c].
Proof.
  intros Hc. induction l as [|a l IH].
  - cbn [app trimStart]. now rewrite Hc.
  - cbn [app trimStart]. destruct (is_whitespace a); [exact IH | reflexivity].
Qed.

Lemma trimEnd_cons c t :
  is_whitespace c = false -> trimEnd (c :: t) = c :: trimEnd t.
Proof.
  intros Hc. unfold trimEnd. cbn [rev].
  rewrite (trimStart_snoc _ _ Hc), rev_app_distr. reflexivity.
Qed.

Lemma trimEnd_idempotent s : trimEnd (trimEnd s) = trimEnd s.
Proof. unfold trimEnd. now rewrite rev_involutive, trimStart_idempotent. Qed.

(** Trimming a trimmed string changes nothing. *)
Lemma trim_idempotent s : trim (trim s) = trim s.
Proof.
  unfold trim.
  destruct (trimStart_head s) as [->|(c & t & -> & Hc)]; [reflexivity|].
  rewrite (trimEnd_cons _ _ Hc), (trimStart_fixed _ _ Hc), <- (trimEnd_cons _ _ Hc).
  apply trimEnd_idempotent.
Qed.

Lemma trimStart_suffix s : exists ws, s = ws ++ trimStart s /\ forallb is_whitespace ws = true.
Proof.
  induction s as [|c s (ws & IH & Hws)]; [now exists []|].
  cbn [trimStart]. destruct (is_whitespace c) eqn:Hc.
  - exists (c :: ws). cbn [app forallb]. rewrite Hc, Hws. split; [now f_equal | reflexivity].
  - now exists [].
Qed.

Lemma trimEnd_prefix s : exists ws, s = trimEnd s ++ ws /\ forallb is_whitespace ws = true.
Proof.
  unfold trimEnd. destruct (trimStart_suffix (rev s)) as (ws & H & Hws).
  exists (rev ws). split.
  - rewrite <- rev_app_distr, <- H. now rewrite rev_involutive.
  - rewrite forallb_forall in *. intros x Hx. apply Hws. now apply in_rev.
Qed.

Lemma trimEnd_last s :
  trimEnd s = [] \/ exists t c, trimEnd s = t ++ [c] /\ is_whitespace c = false.
Proof.
  unfold trimEnd.
  destruct (trimStart_head (rev s)) as [->|(c & t & -> & Hc)]; [now left|].
  right. exists (rev t), c. now split.
Qed.

End TrimFacts.

(** ** Numbers and their digits *)

Module NumberFacts.
Import Js Json JsDate Server Decimals RoundFacts TrimFacts.
Local Open Scope list_scope.
Local Open Scope Z_scope.

Lemma u_inj a b : u a = u b -> a = b.
Proof.
  unfold u. intros H.
  rewrite <- (string_of_list_ascii_of_string a), <- (string_of_list_ascii_of_string b).
  f_equal.
  revert H. generalize (list_ascii_of_string a) (list_ascii_of_string b).
  induction l as [|x l IH]; intros [|y l'] H; try discriminate; [reflexivity|].
  cbn [map] in H. injection H as Hx Hl.
  f_equal; [|now apply IH].
  rewrite <- (ascii_N_embedding x), <- (ascii_N_embedding y). now rewrite Hx.
Qed.

Lemma to_int_not_nil z :
  Z.to_int z <> Decimal.Pos Decimal.Nil /\ Z.to_int z <> Decimal.Neg Decimal.Nil.
Proof.
  destruct z as [|p|p]; cbn; split; try discriminate;
    intros H; injection H as H; revert H; apply Unsigned.to_uint_nonnil.
Qed.

Lemma decimal_inj a b : decimal a = decimal b -> a = b.
Proof.
  unfold decimal. intros H. apply u_inj in H.
  apply to_int_inj.
  destruct (to_int_not_nil a) as (A1 & A2), (to_int_not_nil b) as (B1 & B2).
  pose proof (NilZero.isi _ A1 A2) as Ha. pose proof (NilZero.isi _ B1 B2) as Hb.
  rewrite H in Ha. rewrite Ha in Hb. now injection Hb.
Qed.

Lemma of_uint_acc_horner d acc : Z.pos (Pos.of_uint_acc d acc) = horner (Z.pos acc) d.
Proof.
  revert acc. induction d; intros acc; cbn [Pos.of_uint_acc horner];
    try reflexivity; rewrite IHd; f_equal; lia.
Qed.

Lemma of_uint_horner d : Z.of_N (Pos.of_uint d) = horner 0 d.
Proof.
  induction d; cbn [Pos.of_uint horner]; try reflexivity; try exact IHd;
    cbn [Z.of_N]; rewrite of_uint_acc_horner; reflexivity.
Qed.

Section WithEngine.
Context {E : Engine}.

Ltac digits_head :=
  match goal with
  | d : Decimal.uint |- context [digits (?C ?d)] =>
      let c := eval vm_compute in (hd 0%N (digits (C Decimal.Nil))) in
      change (digits (C d)) with (c :: digits d)
  end.

Lemma radix_prefix_digits d rest acc :
  radix_prefix 10 (digits d ++ rest) (Some acc)
  = radix_prefix 10 rest (Some (horner acc d)).
Proof.
  revert acc. induction d; intros acc; [reflexivity|..].
  all: digits_head; cbn [Datatypes.app radix_prefix].
  all: match goal with |- context [digit_in_radix 10 ?c] =>
         let v := eval vm_compute in (digit_in_radix 10 c) in
         change (digit_in_radix 10 c) with v end.
  all: cbv iota; rewrite IHd; cbn [horner]; do 3 f_equal; lia.
Qed.

Lemma radix_prefix_digits_none d rest :
  d <> Decimal.Nil ->
  radix_prefix 10 (digits d ++ rest) None
  = radix_prefix 10 rest (Some (horner 0 d)).
Proof.
  destruct d; intros Hne; [contradiction|..].
  all: digits_head; cbn [Datatypes.app radix_prefix].
  all: match goal with |- context [digit_in_radix 10 ?c] =>
         let v := eval vm_compute in (digit_in_radix 10 c) in
         change (digit_in_radix 10 c) with v end.
  all: cbv iota; rewrite radix_prefix_digits; cbn [horner]; do 2 f_equal.
Qed.

(** [parseInt] on a string that starts with a decimal digit other than 0, and
    on one that starts with a minus sign and such a digit. *)
Lemma parseInt_plain c s :
  49 <= Z.of_N c <= 57 ->
  parseInt (VStr (c :: s))
  = match radix_prefix 10 (c :: s) None with
    | Some n => if 10 ^ 20 <=? n then long_numeral (1 * n) else round_Z (1 * n)
    | None => NaN
    end.
Proof.
  intros Hc. unfold parseInt. cbn [ToString trimStart].
  assert (Hws : is_whitespace c = false).
  { assert (Hcases : (c = 49 \/ c = 50 \/ c = 51 \/ c = 52 \/ c = 53 \/ c = 54
                      \/ c = 55 \/ c = 56 \/ c = 57)%N) by lia.
    decompose [or] Hcases; subst c; reflexivity. }
  rewrite Hws.
  assert (H1 : char_eqb c (ch "-") = false) by (apply N.eqb_neq; intros ->; cbn in Hc; lia).
  assert (H2 : char_eqb c (ch "+") = false) by (apply N.eqb_neq; intros ->; cbn in Hc; lia).
  assert (H3 : char_eqb c (ch "0") = false) by (apply N.eqb_neq; intros ->; cbn in Hc; lia).
  rewrite H1, H2. destruct s as [|x t]; [reflexivity|].
  rewrite H3. reflexivity.
Qed.

Lemma parseInt_minus c s :
  49 <= Z.of_N c <= 57 ->
  parseInt (VStr (ch "-" :: c :: s))
  = match radix_prefix 10 (c :: s) None with
    | Some n => if 10 ^ 20 <=? n then long_numeral (-1 * n) else round_Z (-1 * n)
    | None => NaN
    end.
Proof.
  intros Hc. unfold parseInt. cbn [ToString trimStart].
  change (is_whitespace (ch "-")) with false. cbv iota.
  change (char_eqb (ch "-") (ch "-")) with true. cbv iota.
  assert (H3 : char_eqb c (ch "0") = false) by (apply N.eqb_neq; intros ->; cbn in Hc; lia).
  destruct s as [|x t]; [reflexivity|].
  rewrite H3. reflexivity.
Qed.

Lemma unorm_head d :
  Decimal.unorm d = Decimal.D0 Decimal.Nil
  \/ exists c l, digits (Decimal.unorm d) = c :: l /\ 49 <= Z.of_N c <= 57.
Proof.
  induction d; [now left | exact IHd |..].
  all: right; cbv [Decimal.unorm Decimal.nzhead]; digits_head;
       eexists _, _; (split; [reflexivity | cbn; lia]).
Qed.

Lemma to_uint_normal p : Decimal.unorm (Pos.to_uint p) = Pos.to_uint p.
Proof.
  rewrite <- DecimalPos.Unsigned.to_of, DecimalPos.Unsigned.of_to. reflexivity.
Qed.

Lemma to_uint_head p :
  exists c l, digits (Pos.to_uint p) = c :: l /\ 49 <= Z.of_N c <= 57.
Proof.
  destruct (unorm_head (Pos.to_uint p)) as [H|H]; rewrite to_uint_normal in H.
  - now destruct (Unsigned.to_uint_nonzero p).
  - exact H.
Qed.

Lemma digits_to_uint p :
  u (NilZero.string_of_uint (Pos.to_uint p)) = digits (Pos.to_uint p).
Proof.
  unfold NilZero.string_of_uint, digits.
  destruct (Pos.to_uint p) eqn:H; try reflexivity.
  now destruct (Unsigned.to_uint_nonnil p).
Qed.

Lemma digits_all_digits d : forallb is_digit (digits d) = true.
Proof.
  induction d; [reflexivity|..]; digits_head; cbn [forallb];
    rewrite IHd; reflexivity.
Qed.

Lemma decimal_nonnegative t :
  0 <= t -> decimal t <> [] /\ forallb is_digit (decimal t) = true.
Proof.
  intros Ht. unfold decimal. destruct t as [|p|p]; [split; [discriminate|reflexivity]| |lia].
  cbn [Z.to_int NilZero.string_of_int]. rewrite digits_to_uint. split.
  - destruct (to_uint_head p) as (c & l & -> & _). discriminate.
  - apply digits_all_digits.
Qed.

Lemma horner_to_uint p : horner 0 (Pos.to_uint p) = Z.pos p.
Proof. now rewrite <- of_uint_horner, DecimalPos.Unsigned.of_to. Qed.

(** The digits of a positive number, read back. *)
Lemma radix_prefix_to_uint p rest :
  (forall a, radix_prefix 10 rest a = a) ->
  radix_prefix 10 (digits (Pos.to_uint p) ++ rest) None = Some (Z.pos p).
Proof.
  intros Hrest.
  rewrite radix_prefix_digits_none by apply Unsigned.to_uint_nonnil.
  now rewrite Hrest, horner_to_uint.
Qed.

(** [parseInt] reads back the decimal digits of an integer, and stops at what
    is not a digit. *)
Lemma parseInt_decimal_long z rest :
  (forall a, radix_prefix 10 rest a = a) ->
  (forall c r, rest = c :: r -> c <> ch "x" /\ c <> ch "X") ->
  parseInt (VStr (decimal z ++ rest))
  = if 10 ^ 20 <=? Z.abs z then long_numeral z else round_Z z.
Proof.
  intros Hrest Hx. unfold decimal. destruct z as [|p|p]; cbn [Z.to_int NilZero.string_of_int].
  - change (u (NilZero.string_of_uint (Decimal.D0 Decimal.Nil))) with [ch "0"].
    cbn [Datatypes.app]. unfold parseInt. cbn [ToString trimStart].
    change (is_whitespace (ch "0")) with false. cbv iota.
    change (char_eqb (ch "0") (ch "-")) with false.
    change (char_eqb (ch "0") (ch "+")) with false. cbv iota.
    assert (Hr : radix_prefix 10 (ch "0" :: rest) None = Some 0).
    { cbn [radix_prefix]. change (digit_in_radix 10 (ch "0")) with (Some 0).
      cbv iota. now rewrite Hrest. }
    destruct rest as [|c r].
    + now rewrite Hr.
    + destruct (Hx c r eq_refl) as (H1 & H2).
      change (char_eqb (ch "0") (ch "0")) with true.
      unfold char_eqb.
      rewrite (proj2 (N.eqb_neq _ _) H1), (proj2 (N.eqb_neq _ _) H2).
      cbn [andb orb]. now rewrite Hr.
  - rewrite digits_to_uint.
    destruct (to_uint_head p) as (c & l & Hd & Hc).
    pose proof (radix_prefix_to_uint p rest Hrest) as Hr.
    rewrite Hd in *. cbn [Datatypes.app] in *.
    rewrite (parseInt_plain _ _ Hc).
    match goal with
    | |- match ?X with _ => _ end = _ =>
        replace X with (Some (Z.pos p)) by (symmetry; exact Hr)
    end.
    cbv iota beta. rewrite Z.mul_1_l. reflexivity.
  - change (u (String "-" ?s)) with (ch "-" :: u s).
    rewrite digits_to_uint.
    destruct (to_uint_head p) as (c & l & Hd & Hc).
    pose proof (radix_prefix_to_uint p rest Hrest) as Hr.
    rewrite Hd in *. cbn [Datatypes.app] in *.
    rewrite (parseInt_minus _ _ Hc).
    match goal with
    | |- match ?X with _ => _ end = _ =>
        replace X with (Some (Z.pos p)) by (symmetry; exact Hr)
    end.
    cbv iota beta. reflexivity.
Qed.

Lemma below_2_53 z : Z.abs z < 2 ^ 53 -> (10 ^ 20 <=? Z.abs z) = false.
Proof.
  intros H. apply Z.leb_gt.
  assert (2 ^ 53 < 10 ^ 20) by (vm_compute; reflexivity). lia.
Qed.

Lemma parseInt_decimal z rest :
  (forall a, radix_prefix 10 rest a = a) ->
  (forall c r, rest = c :: r -> c <> ch "x" /\ c <> ch "X") ->
  Z.abs z < 2 ^ 53 ->
  parseInt (VStr (decimal z ++ rest)) = Num z.
Proof.
  intros Hrest Hx Hz. rewrite (parseInt_decimal_long z rest Hrest Hx).
  rewrite (below_2_53 z Hz). now apply round_Z_small.
Qed.

(** The digits are characters [trim] leaves alone and that mean nothing in a
    path or to [decodeURIComponent]. *)
Lemma digit_plain c :
  is_digit c = true ->
  is_whitespace c = false /\ char_eqb c (ch "%") = false /\ char_eqb c (ch "/") = false
  /\ char_eqb c (ch "-") = false /\ char_eqb c (ch "+") = false.
Proof.
  unfold is_digit. intros H. apply andb_true_iff in H. destruct H as (H1 & H2).
  apply N.leb_le in H1, H2.
  assert (Hcases : (c = 48 \/ c = 49 \/ c = 50 \/ c = 51 \/ c = 52 \/ c = 53 \/ c = 54
                    \/ c = 55 \/ c = 56 \/ c = 57)%N) by lia.
  decompose [or] Hcases; subst c; repeat split; reflexivity.
Qed.

Lemma trimStart_plain s :
  (forall c, In c s -> is_whitespace c = false) -> trimStart s = s.
Proof.
  destruct s as [|c s]; [reflexivity|]. intros H. apply trimStart_fixed. apply H. now left.
Qed.

Lemma trim_plain s : (forall c, In c s -> is_whitespace c = false) -> trim s = s.
Proof.
  intros H. unfold trim, trimEnd. rewrite (trimStart_plain s H).
  rewrite trimStart_plain; [apply rev_involutive|].
  intros c Hc. apply H. now apply in_rev.
Qed.

Lemma uri_items_plain s :
  existsb (char_eqb (ch "%")) s = false -> uri_items s = Some (map Plain s).
Proof.
  induction s as [|c s IH]; [reflexivity|].
  cbn [existsb]. intros H. apply orb_false_iff in H. destruct H as (Hc & Hs).
  cbn [uri_items map].
  replace (char_eqb c (ch "%")) with false
    by (unfold char_eqb in *; rewrite N.eqb_sym; now rewrite Hc).
  now rewrite (IH Hs).
Qed.

Lemma uri_chars_plain s : uri_chars None (map Plain s) = Some s.
Proof. induction s as [|c s IH]; [reflexivity|]. cbn [map uri_chars]. now rewrite IH. Qed.

(** A string without [%] decodes to itself. *)
Lemma decode_plain s :
  existsb (char_eqb (ch "%")) s = false -> decodeURIComponent s = Some s.
Proof.
  intros H. unfold decodeURIComponent. rewrite (uri_items_plain s H).
  apply uri_chars_plain.
Qed.

Lemma digits_no_char c s :
  (forall d, is_digit d = true -> char_eqb d c = false) ->
  forallb is_digit s = true -> existsb (char_eqb c) s = false.
Proof.
  intros Hc. induction s as [|d s IH]; [reflexivity|].
  cbn [forallb existsb]. intros H. apply andb_true_iff in H. destruct H as (Hd & Hs).
  rewrite (IH Hs), orb_false_r. unfold char_eqb. rewrite N.eqb_sym. now apply Hc.
Qed.

Lemma digits_decode s : forallb is_digit s = true -> decodeURIComponent s = Some s.
Proof.
  intros H. apply decode_plain. apply digits_no_char; [|exact H].
  intros d Hd. apply (digit_plain d Hd).
Qed.

Lemma digits_no_slash s :
  forallb is_digit s = true -> existsb (char_eqb (ch "/")) s = false.
Proof.
  intros H. apply digits_no_char; [|exact H]. intros d Hd. apply (digit_plain d Hd).
Qed.

(** The value of a run of digits. *)
Lemma digits_value_horner d acc :
  fold_left (fun acc c => acc * 10 + (Z.of_N c - 48)) (digits d) acc = horner acc d.
Proof.
  revert acc. induction d; intros acc; [reflexivity|..].
  all: digits_head; cbn [fold_left]; rewrite IHd; cbn [horner]; f_equal;
       cbn [Z.of_N]; lia.
Qed.

Lemma digits_value_decimal t : 0 <= t -> digits_value (decimal t) = t.
Proof.
  intros Ht. unfold decimal. destruct t as [|p|p]; [reflexivity| |lia].
  cbn [Z.to_int NilZero.string_of_int]. rewrite digits_to_uint.
  unfold digits_value. rewrite digits_value_horner. apply horner_to_uint.
Qed.

(** A run of digits as a string is the number it denotes. *)
Lemma StringToNumber_decimal z :
  0 <= z -> z < 10 ^ 20 -> StringToNumber (decimal z) = round_Z z.
Proof.
  intros H0 H1. destruct (decimal_nonnegative z H0) as (Hne & Hd).
  unfold StringToNumber.
  rewrite trim_plain.
  2:{ intros c Hc. rewrite forallb_forall in Hd. apply (digit_plain c (Hd c Hc)). }
  destruct (decimal z) as [|c r] eqn:Hdec; [contradiction|].
  assert (Hc : is_digit c = true).
  { cbn [forallb] in Hd. now apply andb_true_iff in Hd. }
  destruct (digit_plain c Hc) as (_ & _ & _ & Hm & Hp).
  rewrite Hm, Hp, Hd.
  rewrite <- Hdec, (digits_value_decimal z H0).
  rewrite (proj2 (Z.ltb_lt _ _) H1). now rewrite Z.mul_1_l.
Qed.

End WithEngine.
End NumberFacts.

(** ** The server *)

Module ServerFacts.
Import Js Json JsDate Server Layout Middleware.
Import JsonFacts StoreFacts DateFacts RoundFacts TrimFacts NumberFacts.
Local Open Scope string_scope.
Local Open Scope list_scope.
Local Open Scope Z_scope.

Section WithEngine.
Context {E : Engine}.

Lemma later_refl w : later w w.
Proof. now exists O. Qed.

Lemma later_trans w1 w2 w3 : later w1 w2 -> later w2 w3 -> later w1 w3.
Proof.
  intros (n & ->) (m & ->). exists (m + n)%nat. now rewrite Nat.iter_add.
Qed.

Lemma later_advance w : later w (advance w).
Proof. now exists 1%nat. Qed.

Lemma later_frame w w' :
  later w w' ->
  file w' = file w /\ writable w' = writable w
  /\ autoDeleteTimer w' = autoDeleteTimer w /\ now w <= now w'.
Proof.
  intros (n & ->). induction n as [|n IH].
  - repeat split; reflexivity.
  - destruct IH as (A & B & C & D).
    change (Nat.iter (S n) advance w) with (advance (Nat.iter n advance w)).
    set (v := Nat.iter n advance w) in *.
    assert (Hv : now v <= now (advance v)) by (unfold advance; cbn; lia).
    repeat split; [exact A | exact B | exact C | lia].
Qed.

Lemma later_file w w' : later w w' -> file w' = file w.
Proof. intros H. apply (later_frame _ _ H). Qed.

Lemma later_writable w w' : later w w' -> writable w' = writable w.
Proof. intros H. apply (later_frame _ _ H). Qed.

Lemma later_now w w' : later w w' -> now w <= now w'.
Proof. intros H. apply (later_frame _ _ H). Qed.

(** A clock that has stopped: every reading leaves the world as it is. *)
Lemma advance_stopped w : ticks w = [] -> advance w = w.
Proof.
  destruct w as [f wr n t a]. cbn. intros ->. unfold advance. cbn.
  now rewrite Z.add_0_r.
Qed.

Lemma later_stopped w w' : ticks w = [] -> later w w' -> w' = w.
Proof.
  intros Ht (n & ->). induction n as [|n IH]; [reflexivity|].
  change (Nat.iter (S n) advance w) with (advance (Nat.iter n advance w)).
  rewrite IH. now apply advance_stopped.
Qed.

Lemma log_eq w : log w = (Ok tt, advance w).
Proof. reflexivity. Qed.

Lemma Date_now_eq w : Date_now w = (Ok (now w), advance w).
Proof. reflexivity. Qed.

(** What [readMessages] returns is decided by the file; a failed read logs. *)
Lemma readMessages_eq w :
  readMessages w =
  match file w with
  | Some data =>
      match parse data with
      | Ok v => (Ok v, w)
      | Throw _ => (Ok (VArr []), advance w)
      end
  | None => (Ok (VArr []), advance w)
  end.
Proof.
  unfold readMessages, try_catch, bind, readFileSync, lift, ret.
  destruct (file w) as [data|]; [|reflexivity].
  destruct (parse data); reflexivity.
Qed.

Lemma readMessages_stored w :
  exists w', readMessages w = (Ok (stored w), w') /\ later w w'.
Proof.
  unfold stored. rewrite readMessages_eq.
  destruct (file w) as [data|].
  - destruct (parse data).
    + exists w. split; [reflexivity | apply later_refl].
    + exists (advance w). split; [reflexivity | apply later_advance].
  - exists (advance w). split; [reflexivity | apply later_advance].
Qed.

Lemma stored_file w w' : file w' = file w -> stored w' = stored w.
Proof.
  intros H. unfold stored. rewrite !readMessages_eq, H.
  destruct (file w) as [data|]; [|reflexivity].
  destruct (parse data); reflexivity.
Qed.

Lemma stored_later w w' : later w w' -> stored w' = stored w.
Proof. intros H. apply stored_file. now apply later_file. Qed.

Lemma stringify_array items : exists t, stringify (VArr items) = Some t.
Proof. unfold stringify. cbn [SerializeJSONProperty]. eauto. Qed.

(** [writeMessages] on an array: on a writable file the text replaces the
    file's content; otherwise nothing changes but the clock (two log lines). *)
Lemma writeMessages_array items w :
  exists t, stringify (VArr items) = Some t /\
  writeMessages (VArr items) w =
  if writable w then (Ok true, set_file t w)
  else (Ok false, advance (advance w)).
Proof.
  destruct (stringify_array items) as (t & Ht). exists t. split; [assumption|].
  unfold writeMessages, try_catch, bind, writeFileSync, ret. rewrite Ht.
  destruct (writable w); reflexivity.
Qed.

Lemma stored_set_file msgs w :
  stored (set_file (collection_text msgs) w) = collection_value msgs.
Proof.
  unfold stored. rewrite readMessages_eq. cbn [set_file file].
  now rewrite parse_collection_text.
Qed.

Lemma message_value_inj m m' : message_value m = message_value m' -> m = m'.
Proof.
  destruct m, m'. unfold message_value. simpl. intros H.
  inversion H. reflexivity.
Qed.



(** C8: [readMessages] is fail-soft.  It always returns a value and never
    raises; the value is the empty sequence when the file cannot be read and
    when its contents do not parse as JSON, and the parsed contents otherwise.
    It leaves the file as it is. *)
Theorem readMessages_fail_soft : forall w : World,
  (exists v, fst (readMessages w) = Ok v)
  /\ (file w = None -> fst (readMessages w) = Ok (VArr []))
  /\ (forall data e, file w = Some data -> parse data = Throw e ->
       fst (readMessages w) = Ok (VArr []))
  /\ (forall data v, file w = Some data -> parse data = Ok v ->
       fst (readMessages w) = Ok v)
  /\ file (snd (readMessages w)) = file w.
Proof.
  intros w. rewrite readMessages_eq.
  destruct (file w) as [data|] eqn:Hf;
    [destruct (parse data) as [v|e] eqn:Hp|];
    cbn [fst snd]; repeat split; intros;
    try match goal with H : Some _ = Some _ |- _ => injection H as <- end;
    try congruence; eauto.
Qed.

(** ** Running computations *)

Lemma bind_ok {A B} (m : M A) (k : A -> M B) w a w' :
  m w = (Ok a, w') -> bind m k w = k a w'.
Proof. unfold bind. now intros ->. Qed.

Lemma bind_throw {A B} (m : M A) (k : A -> M B) w e w' :
  m w = (Throw e, w') -> bind m k w = (Throw e, w').
Proof. unfold bind. now intros ->. Qed.

Lemma bind_lift {A B} (a : A) (k : A -> M B) w : bind (lift (Ok a)) k w = k a w.
Proof. reflexivity. Qed.

Lemma bind_ret {A B} (a : A) (k : A -> M B) w : bind (ret a) k w = k a w.
Proof. reflexivity. Qed.

Lemma bind_log {B} (k : unit -> M B) w : bind log k w = k tt (advance w).
Proof. reflexivity. Qed.

Lemma bind_Date_now {B} (k : Z -> M B) w : bind Date_now k w = k (now w) (advance w).
Proof. reflexivity. Qed.

Lemma bind_Date_new {B} (k : number -> M B) w :
  bind Date_new k w = k (Num (now w)) (advance w).
Proof. reflexivity. Qed.

(** ** The application *)

(** The application runs the handler of the first matching route after the
    logging middleware, and answers 500 when it throws. *)
Lemma app_route cfg req w h :
  find_route (routes cfg) req = Some h ->
  app cfg req w =
  match h req (advance w) with
  | (Ok res, w') => (res, w')
  | (Throw err, w') => (internal_error cfg err, advance w')
  end.
Proof.
  intros H. unfold app. rewrite H.
  unfold bind at 1. rewrite log_eq.
  destruct (h req (advance w)) as [[res|err] w']; reflexivity.
Qed.

Lemma str_eqb_eq a b : str_eqb a b = true <-> a = b.
Proof. unfold str_eqb. destruct (list_eq_dec N.eq_dec a b); split; congruence. Qed.

Lemma str_eqb_neq a b : str_eqb a b = false <-> a <> b.
Proof. unfold str_eqb. destruct (list_eq_dec N.eq_dec a b); split; congruence. Qed.

(** ** Dispatch *)

Lemma same_letters_length a b : same_letters a b = true -> List.length a = List.length b.
Proof.
  unfold same_letters. intros H. apply str_eqb_eq in H.
  apply (f_equal (@List.length _)) in H. now rewrite !length_map in H.
Qed.

Lemma same_letters_nil b : b <> [] -> same_letters [] b = false.
Proof. destruct b; [contradiction | reflexivity]. Qed.

Ltac by_shape p :=
  destruct p as [|? [|[|? ?] [|[|? ?] [|? ?]]]]; cbn [match_path shape_of andb];
  try reflexivity;
  repeat match goal with
         | H : same_letters [] _ = false |- _ => rewrite ?H; clear H
         | |- context [if ?c then _ else _] => destruct c; cbn [andb]
         end;
  reflexivity.

(** What the three forms of pattern make of a path, by its shape. *)
Lemma match_path_lit s p :
  match_path [Lit s] p []
  = match shape_of p with
    | One x => if same_letters x (u s) then Some [] else None
    | _ => None
    end.
Proof. by_shape p. Qed.

Lemma match_path_lit_lit s t p :
  u t <> [] ->
  match_path [Lit s; Lit t] p []
  = match shape_of p with
    | Two x y => if same_letters x (u s) && same_letters y (u t) then Some [] else None
    | _ => None
    end.
Proof.
  intros Ht. pose proof (same_letters_nil (u t) Ht) as Hn. by_shape p.
Qed.

Lemma match_path_lit_param s p :
  match_path [Lit s; Param] p []
  = match shape_of p with
    | Two x y =>
        if same_letters x (u s) then
          match y with
          | [] => None
          | _ => if existsb (char_eqb (ch "/")) y then None else Some y
          end
        else None
    | _ => None
    end.
Proof. by_shape p. Qed.

Lemma find_route_cons r rs req :
  find_route (r :: rs) req =
  match match_path (route_path r) (path req) [] with
  | Some val =>
      match decodeURIComponent val with
      | Some param =>
          if method_eqb (route_method r) (method req)
          then Some (route_handler r param)
          else find_route rs req
      | None => Some (param_error val)
      end
  | None => find_route rs req
  end.
Proof. reflexivity. Qed.

(** A character that is not a letter and is no letter's lower case is in a
    string when it is in one with the same letters. *)
Lemma same_letters_existsb c a b :
  lower c = c -> (forall x, lower x = c -> x = c) ->
  same_letters a b = true ->
  existsb (char_eqb c) a = existsb (char_eqb c) b.
Proof.
  intros Hc Hx H. unfold same_letters in H. apply str_eqb_eq in H.
  assert (Hl : forall l, existsb (char_eqb c) l = existsb (char_eqb c) (map lower l)).
  { induction l as [|x l IH]; [reflexivity|]. cbn [map existsb]. rewrite IH. f_equal.
    unfold char_eqb. destruct (N.eqb_spec c x) as [->|Hne].
    - rewrite Hc. symmetry. apply N.eqb_refl.
    - symmetry. apply N.eqb_neq. intros Heq. apply Hne. symmetry. now apply Hx. }
  now rewrite (Hl a), (Hl b), H.
Qed.

Lemma lower_slash x : lower x = ch "/" -> x = ch "/".
Proof.
  unfold lower. destruct ((65 <=? x) && (x <=? 90))%N eqn:H; [|auto].
  apply andb_true_iff in H. destruct H as (H1 & H2).
  apply N.leb_le in H1, H2. intros H. change (ch "/") with 47%N in H. lia.
Qed.

Lemma lower_percent x : lower x = ch "%" -> x = ch "%".
Proof.
  unfold lower. destruct ((65 <=? x) && (x <=? 90))%N eqn:H; [|auto].
  apply andb_true_iff in H. destruct H as (H1 & H2).
  apply N.leb_le in H1, H2. intros H. change (ch "%") with 37%N in H. lia.
Qed.

Lemma slash_not_same y s :
  existsb (char_eqb (ch "/")) (u s) = false ->
  existsb (char_eqb (ch "/")) y = true -> same_letters y (u s) = false.
Proof.
  intros Hs Hy. destruct (same_letters y (u s)) eqn:H; [|reflexivity].
  rewrite (same_letters_existsb (ch "/") y (u s) eq_refl lower_slash H) in Hy. congruence.
Qed.

Lemma find_route_shape cfg req :
  find_route (routes cfg) req =
  match shape_of (path req) with
  | One x =>
      if same_letters x (u "messages") then
        match method req with
        | GET => Some get_messages
        | POST => Some post_messages
        | DELETE => Some delete_all_messages
        | _ => None
        end
      else if same_letters x (u "health") then
        match method req with GET => Some (get_health cfg) | _ => None end
      else if same_letters x (u "info") then
        match method req with GET => Some (get_info cfg) | _ => None end
      else None
  | Two x y =>
      if same_letters x (u "messages") then
        match y with
        | [] => None
        | _ =>
            if existsb (char_eqb (ch "/")) y then None
            else
              match decodeURIComponent y with
              | None => Some (param_error y)
              | Some messageId =>
                  match method req with
                  | DELETE => Some (delete_message messageId)
                  | POST => if same_letters y (u "auto-delete")
                            then Some post_auto_delete else None
                  | GET => if same_letters y (u "auto-delete")
                           then Some (get_auto_delete cfg) else None
                  | _ => None
                  end
              end
        end
      else None
  | Other => None
  end.
Proof.
  unfold routes. rewrite !find_route_cons. cbn [route_method route_path route_handler].
  rewrite !match_path_lit, !match_path_lit_param, !match_path_lit_lit by discriminate.
  cbn [find_route].
  destruct (shape_of (path req)) as [x|x y|]; [| |reflexivity].
  - destruct (same_letters x (u "messages")) eqn:H1.
    + assert (H2 : same_letters x (u "health") = false).
      { unfold same_letters in *. apply str_eqb_eq in H1. rewrite H1. reflexivity. }
      assert (H3 : same_letters x (u "info") = false).
      { unfold same_letters in *. apply str_eqb_eq in H1. rewrite H1. reflexivity. }
      rewrite H2, H3.
      change (decodeURIComponent []) with (Some (@nil char)). cbv beta iota.
      destruct (method req); reflexivity.
    + change (decodeURIComponent []) with (Some (@nil char)). cbv beta iota.
      destruct (same_letters x (u "health")) eqn:H2.
      * assert (H3 : same_letters x (u "info") = false).
        { unfold same_letters in *. apply str_eqb_eq in H2. rewrite H2. reflexivity. }
        rewrite H3. destruct (method req); reflexivity.
      * destruct (same_letters x (u "info")); [|reflexivity].
        destruct (method req); reflexivity.
  - destruct (same_letters x (u "messages")); cbn [andb]; [|reflexivity].
    destruct y as [|c y]; [reflexivity|].
    destruct (existsb (char_eqb (ch "/")) (c :: y)) eqn:Hs.
    + rewrite (slash_not_same _ "older-than" eq_refl Hs),
              (slash_not_same _ "auto-delete" eq_refl Hs). reflexivity.
    + change (decodeURIComponent []) with (Some (@nil char)). cbv beta iota.
      destruct (decodeURIComponent (c :: y)); [|reflexivity].
      destruct (same_letters (c :: y) (u "older-than")) eqn:H5.
      * assert (H6 : same_letters (c :: y) (u "auto-delete") = false).
        { unfold same_letters in *. apply str_eqb_eq in H5. rewrite H5. reflexivity. }
        rewrite H6. destruct (method req); reflexivity.
      * destruct (same_letters (c :: y) (u "auto-delete")); destruct (method req); reflexivity.
Qed.

Lemma route_post_messages cfg req :
  method req = POST -> path req = [u "messages"] ->
  find_route (routes cfg) req = Some post_messages.
Proof. intros Hm Hp. rewrite find_route_shape, Hp, Hm. reflexivity. Qed.

Lemma route_get_messages cfg req :
  method req = GET -> path req = [u "messages"] ->
  find_route (routes cfg) req = Some get_messages.
Proof. intros Hm Hp. rewrite find_route_shape, Hp, Hm. reflexivity. Qed.

Lemma route_delete_message cfg req val messageId :
  method req = DELETE ->
  match_path [Lit "messages"; Param] (path req) [] = Some val ->
  decodeURIComponent val = Some messageId ->
  find_route (routes cfg) req = Some (delete_message messageId).
Proof.
  intros Hm Hp Hdec. rewrite find_route_shape. rewrite match_path_lit_param in Hp.
  destruct (shape_of (path req)) as [x|x y|]; try discriminate.
  destruct (same_letters x (u "messages")); [|discriminate].
  destruct y as [|c y]; [discriminate|].
  destruct (existsb (char_eqb (ch "/")) (c :: y)); [discriminate|].
  injection Hp as <-. rewrite Hdec, Hm. reflexivity.
Qed.

(** A parameter written without [%] or [/] is the id. *)
Lemma param_plain messageId :
  messageId <> [] ->
  existsb (char_eqb (ch "/")) messageId = false ->
  match_path [Lit "messages"; Param] [u "messages"; messageId] [] = Some messageId.
Proof.
  intros Hne Hs. rewrite match_path_lit_param. cbn [shape_of].
  destruct messageId as [|c s]; [contradiction|].
  change (same_letters (u "messages") (u "messages")) with true. cbv iota.
  now rewrite Hs.
Qed.

(** C6: for every text that is missing, empty, or white space only, the
    create route answers 400 with the body [{error: 'Message text is
    required'}], and performs no write: the data file, and so the stored
    collection, are as before. *)
Theorem post_blank_text_is_rejected :
  forall (cfg : Config) (req : Request) (w : World) (text : JsVal),
  method req = POST -> path req = [u "messages"] ->
  get (req_body req) (u "text") = Ok text ->
  blank text ->
  fst (app cfg req w) = json 400 (obj [("error", str "Message text is required")])
  /\ file (snd (app cfg req w)) = file w
  /\ stored (snd (app cfg req w)) = stored w.
Proof.
  intros cfg req w text Hm Hp Hget Hblank.
  rewrite (app_route _ _ _ _ (route_post_messages cfg req Hm Hp)).
  unfold post_messages. rewrite Hget, bind_lift.
  assert (Hempty :
    (if negb (truthy text) then ret true
     else t <- lift (call_trim text) ;; ret (str_eqb t [])) (advance w)
    = (Ok true, advance w)).
  { destruct Hblank as [->|(s & -> & Hs)]; [reflexivity|].
    destruct s as [|c s]; [reflexivity|].
    cbn [truthy negb]. unfold bind, lift, ret, call_trim. now rewrite Hs. }
  rewrite (bind_ok _ _ _ _ _ Hempty). cbn [fst snd ret].
  split; [reflexivity|]. split; [reflexivity|].
  apply stored_file. reflexivity.
Qed.

Lemma filter_keeps_all {A} (f : A -> bool) l :
  Forall (fun x => f x = true) l -> filter f l = l.
Proof.
  induction 1 as [|x l Hx _ IH]; [reflexivity|]. simpl. now rewrite Hx, IH.
Qed.



(** Filtering the stored values by id is filtering the messages by id. *)
Lemma filter_by_id msgs messageId :
  filterE (fun msg => match get msg (u "id") with
                      | Ok id0 => Ok (strict_neq_str id0 messageId)
                      | Throw e => Throw e
                      end) (map message_value msgs)
  = Ok (map message_value (filter (fun m => negb (str_eqb (id m) messageId)) msgs)).
Proof.
  induction msgs as [|m msgs IH]; [reflexivity|].
  cbn [map filterE]. rewrite IH.
  change (get (message_value m) (u "id")) with (@Ok JsVal (VStr (id m))).
  cbn [strict_neq_str filter].
  destruct (negb (str_eqb (id m) messageId)); reflexivity.
Qed.

(** What the delete route does on a stored collection, in one equation. *)
Lemma delete_message_at cfg req w msgs messageId :
  find_route (routes cfg) req = Some (delete_message messageId) ->
  stored w = collection_value msgs ->
  let kept := filter (fun m => negb (str_eqb (id m) messageId)) msgs in
  exists w1, later w w1 /\
  app cfg req w =
  if Nat.eqb (List.length kept) (List.length msgs) then
    (json 404 (obj [("error", str "Message not found")]), w1)
  else if writable w then
    (json 200 (obj [("message", str "Message deleted successfully");
                    ("deletedCount", num 1)]),
     advance (set_file (collection_text kept) w1))
  else
    (json 500 (obj [("error", str "Failed to delete message")]),
     advance (advance (advance w1))).
Proof.
  intros Hroute Hst kept.
  rewrite (app_route _ _ _ _ Hroute).
  unfold delete_message.
  destruct (readMessages_stored (advance w)) as (w1 & Hr & Hl1).
  rewrite (bind_ok _ _ _ _ _ Hr).
  assert (Hl : later w w1) by (eapply later_trans; [apply later_advance | exact Hl1]).
  exists w1. split; [exact Hl|].
  rewrite (stored_later _ _ (later_advance w)), Hst.
  unfold collection_value.
  rewrite filter_by_id, bind_lift, !length_map. fold kept.
  destruct (Nat.eqb (List.length kept) (List.length msgs)); [reflexivity|].
  destruct (writeMessages_array (map message_value kept) w1) as (t & Ht & Hwm).
  change (VArr (map message_value kept)) with (collection_value kept) in Ht.
  rewrite serialize_collection in Ht. injection Ht as <-.
  rewrite (later_writable _ _ Hl) in Hwm.
  destruct (writable w);
    rewrite (bind_ok _ _ _ _ _ Hwm), bind_log; reflexivity.
Qed.


Lemma delete_message_app cfg req w msgs val messageId :
  method req = DELETE ->
  match_path [Lit "messages"; Param] (path req) [] = Some val ->
  decodeURIComponent val = Some messageId ->
  stored w = collection_value msgs ->
  let kept := filter (fun m => negb (str_eqb (id m) messageId)) msgs in
  exists w1, later w w1 /\
  app cfg req w =
  if Nat.eqb (List.length kept) (List.length msgs) then
    (json 404 (obj [("error", str "Message not found")]), w1)
  else if writable w then
    (json 200 (obj [("message", str "Message deleted successfully");
                    ("deletedCount", num 1)]),
     advance (set_file (collection_text kept) w1))
  else
    (json 500 (obj [("error", str "Failed to delete message")]),
     advance (advance (advance w1))).
Proof.
  intros Hm Hp Hdec. apply delete_message_at.
  now apply (route_delete_message cfg req val).
Qed.


Lemma get_messages_app cfg req w :
  method req = GET -> path req = [u "messages"] ->
  fst (app cfg req w) = json 200 (stored w)
  /\ later w (snd (app cfg req w)).
Proof.
  intros Hm Hp.
  rewrite (app_route _ _ _ _ (route_get_messages cfg req Hm Hp)).
  unfold get_messages.
  destruct (readMessages_stored (advance w)) as (w1 & Hr & Hl1).
  rewrite (bind_ok _ _ _ _ _ Hr). cbn [ret fst snd].
  rewrite (stored_later _ _ (later_advance w)).
  split; [reflexivity|].
  eapply later_trans; [apply later_advance | exact Hl1].
Qed.

Lemma toISOString_ok t : exists ts, toISOString (Num t) = Ok ts.
Proof. unfold toISOString. eauto. Qed.

Lemma Date_parse_toISOString t ts :
  minISO <= t <= maxISO -> toISOString (Num t) = Ok ts -> Date_parse ts = Num t.
Proof.
  intros Ht Hts. destruct (parse_iso_toISOString t Ht) as (s & Hs & Hp).
  rewrite Hs in Hts. injection Hts as <-. unfold Date_parse. now rewrite Hp.
Qed.

Lemma trim_nonempty s : trim s <> [] -> s <> [].
Proof. intros H ->. now apply H. Qed.

(** What the create route does with a text that is not blank, in one
    equation: the id and the time stamp are two successive readings of the
    clock. *)
Lemma post_messages_at cfg req w s msgs :
  find_route (routes cfg) req = Some post_messages ->
  get (req_body req) (u "text") = Ok (VStr s) -> trim s <> [] ->
  stored w = collection_value msgs ->
  exists w1 ts, later w w1 /\ toISOString (Num (now (advance w1))) = Ok ts /\
  let m := {| id := Number_toString (Num (now w1)); text := trim s; timestamp := ts |} in
  app cfg req w =
  if writable w then
    (json 201 (message_value m),
     advance (set_file (collection_text (msgs ++ [m])) (advance (advance w1))))
  else
    (json 500 (obj [("error", str "Failed to save message")]),
     advance (advance (advance (advance (advance w1))))).
Proof.
  intros Hroute Hget Htrim Hst.
  rewrite (app_route _ _ _ _ Hroute).
  unfold post_messages. rewrite Hget, bind_lift.
  pose proof (trim_nonempty _ Htrim) as Hs.
  assert (Htruthy : truthy (VStr s) = true) by (destruct s; [contradiction | reflexivity]).
  assert (Hempty :
    (if negb (truthy (VStr s)) then ret true
     else t <- lift (call_trim (VStr s)) ;; ret (str_eqb t [])) (advance w)
    = (Ok false, advance w)).
  { rewrite Htruthy. cbn [negb call_trim]. rewrite bind_lift. unfold ret.
    now rewrite (proj2 (str_eqb_neq _ _) Htrim). }
  rewrite (bind_ok _ _ _ _ _ Hempty). cbn [call_trim].
  destruct (readMessages_stored (advance w)) as (w1 & Hr & Hl1).
  rewrite (bind_ok _ _ _ _ _ Hr).
  assert (Hl : later w w1) by (eapply later_trans; [apply later_advance | exact Hl1]).
  rewrite (stored_later _ _ (later_advance w)), Hst.
  rewrite bind_Date_now, bind_lift, bind_Date_new.
  destruct (toISOString_ok (now (advance w1))) as (ts & Hts).
  exists w1, ts. split; [exact Hl|]. split; [exact Hts|].
  rewrite Hts, bind_lift.
  cbv zeta.
  set (m := {| id := Number_toString (Num (now w1)); text := trim s; timestamp := ts |}).
  change (obj [("id"%string, VStr (Number_toString (Num (now w1))));
               ("text"%string, VStr (trim s)); ("timestamp"%string, VStr ts)])
    with (message_value m).
  assert (Hpush : push (collection_value msgs) (message_value m)
                  = Ok (collection_value (msgs ++ [m]))).
  { unfold push, collection_value. now rewrite map_app. }
  rewrite Hpush, bind_lift.
  destruct (writeMessages_array (map message_value (msgs ++ [m])) (advance (advance w1)))
    as (t & Ht & Hwm).
  change (VArr (map message_value (msgs ++ [m]))) with (collection_value (msgs ++ [m])) in *.
  rewrite serialize_collection in Ht. injection Ht as <-.
  assert (Hwr : writable (advance (advance w1)) = writable w).
  { apply (later_writable _ _ Hl). }
  rewrite Hwr in Hwm.
  destruct (writable w);
    rewrite (bind_ok _ _ _ _ _ Hwm), bind_log; reflexivity.
Qed.

Lemma post_messages_app cfg req w s msgs :
  method req = POST -> path req = [u "messages"] ->
  get (req_body req) (u "text") = Ok (VStr s) -> trim s <> [] ->
  stored w = collection_value msgs ->
  exists w1 ts, later w w1 /\ toISOString (Num (now (advance w1))) = Ok ts /\
  let m := {| id := Number_toString (Num (now w1)); text := trim s; timestamp := ts |} in
  app cfg req w =
  if writable w then
    (json 201 (message_value m),
     advance (set_file (collection_text (msgs ++ [m])) (advance (advance w1))))
  else
    (json 500 (obj [("error", str "Failed to save message")]),
     advance (advance (advance (advance (advance w1))))).
Proof. intros Hm Hp. apply post_messages_at. now apply route_post_messages. Qed.

Lemma now_advance w : now w <= now (advance w).
Proof. unfold advance. simpl. lia. Qed.


(** ** Validation of [hours] *)

Lemma invalid_hours_iff hours : invalid_hours hours = true <-> rejected_hours hours.
Proof.
  unfold invalid_hours, rejected_hours, falsy, isNaN, lt_zero.
  rewrite !orb_true_iff, negb_true_iff. split.
  - intros [[H|H]|H].
    + left. destruct hours as [| |b|n|s|l|p]; try discriminate; auto 10.
      * destruct b; [discriminate | auto 10].
      * destruct n as [|z|m k|b]; try discriminate; [auto 10|].
        cbn in H. apply negb_false_iff, Z.eqb_eq in H. subst. auto 10.
      * destruct s; [auto 10 | discriminate].
    + right. left. destruct (ToNumber hours); (reflexivity || discriminate).
    + right. right. exact H.
  - intros [H|[H|H]].
    + left. left.
      destruct H as [-> | [-> | [-> | [-> | [-> | ->]]]]]; reflexivity.
    + left. right. now rewrite H.
    + right. exact H.
Qed.

(** A number is refused exactly when it is not greater than 0. *)
Lemma rejected_number n : rejected_hours (VNum n) <-> num_lt (Num 0) n = false.
Proof.
  unfold rejected_hours, falsy. cbn [ToNumber]. split.
  - intros [H|[H|H]].
    + destruct H as [H|[H|[H|[H|[H|H]]]]]; try discriminate; injection H as ->; reflexivity.
    + now subst n.
    + destruct n as [|z|m k|[|]]; cbn [num_lt fraction] in *; try discriminate;
        try reflexivity.
      * apply Z.ltb_lt in H. apply Z.ltb_ge. lia.
      * apply Z.ltb_lt in H. apply Z.ltb_ge.
        pose proof (Z.pow_pos_nonneg 2 (Z.pos k) ltac:(lia) ltac:(lia)).
        change (2 ^ 0) with 1 in *. nia.
  - intros H. destruct n as [|z|m k|[|]]; cbn [num_lt fraction] in *; try discriminate.
    + right. now left.
    + apply Z.ltb_ge in H. destruct (Z.eq_dec z 0) as [->|Hz].
      * left. auto 10.
      * right. right. apply Z.ltb_lt. lia.
    + right. right. apply Z.ltb_ge in H. apply Z.ltb_lt.
      pose proof (Z.pow_pos_nonneg 2 (Z.pos k) ltac:(lia) ltac:(lia)).
      change (2 ^ 0) with 1 in *. nia.
    + right. right. reflexivity.
Qed.

Lemma rejected_integer z : rejected_hours (VNum (Num z)) <-> z <= 0.
Proof. rewrite rejected_number. cbn [num_lt]. rewrite Z.ltb_ge. reflexivity. Qed.

Lemma rejected_fraction m k : rejected_hours (VNum (Frac m k)) <-> m < 0.
Proof.
  rewrite rejected_number. cbn [num_lt fraction]. rewrite Z.ltb_ge.
  pose proof (Z.pow_pos_nonneg 2 (Z.pos k) ltac:(lia) ltac:(lia)).
  change (2 ^ 0) with 1. split; intros; nia.
Qed.

(** A run of digits passes, the digit [0] too: the string is not empty. *)
Lemma accepted_numeral z :
  0 <= z -> z < 10 ^ 20 -> ~ rejected_hours (VStr (decimal z)).
Proof.
  intros H0 H1. unfold rejected_hours, falsy. cbn [ToNumber].
  rewrite (StringToNumber_decimal z H0 H1).
  assert (Hpos : num_ge (round_Z z) (Num 0) = true).
  { destruct (Z.eq_dec z 0) as [->|Hz]; [reflexivity|].
    pose proof (round_Z_positive z ltac:(lia)) as Hp.
    destruct (num_lt (Num 0) (round_Z z)) eqn:Hl.
    - destruct (round_Z z) as [|x|n k|[|]]; cbn [num_lt num_ge fraction] in *;
        try discriminate; try reflexivity.
      + apply Z.ltb_lt in Hl. apply Z.leb_le. lia.
      + apply Z.ltb_lt in Hl. apply Z.leb_le. lia.
    - rewrite (num_ge_lt _ 1 0 Hp) in Hl by lia. discriminate. }
  intros [H|[H|H]].
  - destruct (decimal_nonnegative z H0) as (Hne & _).
    destruct H as [H|[H|[H|[H|[H|H]]]]]; try discriminate. injection H as H. contradiction.
  - rewrite H in Hpos. discriminate.
  - rewrite (num_ge_not_lt _ 0 0 Hpos) in H by lia. discriminate.
Qed.

Lemma route_post_auto_delete cfg req :
  method req = POST -> path req = [u "messages"; u "auto-delete"] ->
  find_route (routes cfg) req = Some post_auto_delete.
Proof. intros Hm Hp. rewrite find_route_shape, Hp, Hm. reflexivity. Qed.

Lemma route_get_auto_delete cfg req :
  method req = GET -> path req = [u "messages"; u "auto-delete"] ->
  find_route (routes cfg) req = Some (get_auto_delete cfg).
Proof. intros Hm Hp. rewrite find_route_shape, Hp, Hm. reflexivity. Qed.

(** What the route that sets the timer does, in one equation. *)
Lemma post_auto_delete_at cfg req w hours :
  find_route (routes cfg) req = Some post_auto_delete ->
  get (req_body req) (u "hours") = Ok hours ->
  app cfg req w =
  if invalid_hours hours then
    (json 400 (obj [("error", str "Valid hours parameter is required")]),
     advance w)
  else
    (json 200
       (obj [("message", VStr (u "Auto-deletion timer set to " ++ ToString hours
                               ++ u " hours"));
             ("hours", hours)]),
     advance (advance
       (set_timer {| timer_hours := hours; intervalMs := hours_ms hours |} (advance w)))).
Proof.
  intros Hroute Hget.
  rewrite (app_route _ _ _ _ Hroute).
  unfold post_auto_delete. rewrite Hget, bind_lift.
  destruct (invalid_hours hours); reflexivity.
Qed.

Lemma post_auto_delete_app cfg req w hours :
  method req = POST -> path req = [u "messages"; u "auto-delete"] ->
  get (req_body req) (u "hours") = Ok hours ->
  app cfg req w =
  if invalid_hours hours then
    (json 400 (obj [("error", str "Valid hours parameter is required")]),
     advance w)
  else
    (json 200
       (obj [("message", VStr (u "Auto-deletion timer set to " ++ ToString hours
                               ++ u " hours"));
             ("hours", hours)]),
     advance (advance
       (set_timer {| timer_hours := hours; intervalMs := hours_ms hours |} (advance w)))).
Proof. intros Hm Hp. apply post_auto_delete_at. now apply route_post_auto_delete. Qed.

(** The route that reports the setting answers from the configuration
    alone. *)
Lemma get_auto_delete_app cfg req w :
  method req = GET -> path req = [u "messages"; u "auto-delete"] ->
  app cfg req w =
  (json 200
     (obj [("autoDeleteEnabled", VBool true);
           ("currentSetting",
            VStr (Number_toString (AUTO_DELETE_HOURS cfg) ++ u " hours"));
           ("configurable", VBool true)]),
   advance w).
Proof.
  intros Hm Hp.
  now rewrite (app_route _ _ _ _ (route_get_auto_delete cfg req Hm Hp)).
Qed.

(** The responses of the route registered for DELETE /messages/older-than,
    when it is the one that runs: 400 on refused hours only. *)
Lemma delete_older_than_status req w hours :
  get (req_body req) (u "hours") = Ok hours ->
  (invalid_hours hours = true ->
   delete_older_than req w =
   (Ok (json 400 (obj [("error", str "Valid hours parameter is required")])), w))
  /\ (invalid_hours hours = false ->
      forall res w', delete_older_than req w = (Ok res, w') ->
      status res = 200 \/ status res = 500).
Proof.
  intros Hget. unfold delete_older_than. rewrite Hget, bind_lift. split.
  - intros ->. reflexivity.
  - intros ->.
    destruct (readMessages_stored w) as (w1 & Hr & _).
    rewrite (bind_ok _ _ _ _ _ Hr), bind_Date_now.
    intros res w'.
    destruct (stored w) as [| | | | |items|]; try discriminate.
    destruct (keep_recent _ items) as [kept|e]; [|discriminate].
    rewrite bind_lift.
    destruct (writeMessages_array kept (advance w1)) as (t & _ & Hwm).
    destruct (writable (advance w1));
      rewrite (bind_ok _ _ _ _ _ Hwm), bind_log; intros [= <- _]; auto.
Qed.

(** C3, as amended: POST /messages/auto-delete answers 400 exactly when
    [hours] is falsy (absent, [null], [false], 0, NaN, the empty string), or
    does not convert to a number, or converts to a negative number, and
    answers 200 otherwise; the handler registered for DELETE
    /messages/older-than makes the same test.  A number is refused exactly
    when it is not greater than 0: an integer when it is negative or 0, a
    fraction when it is negative; every strictly positive number passes,
    fractions and infinity included.  [true] passes, and so does a string of
    up to 20 digits, the string [0] too, which is not falsy. *)
Theorem hours_validation :
  forall (cfg : Config) (req : Request) (w : World) (hours : JsVal),
  get (req_body req) (u "hours") = Ok hours ->
  (method req = POST -> path req = [u "messages"; u "auto-delete"] ->
     (status (fst (app cfg req w)) = 400 <-> rejected_hours hours)
     /\ (status (fst (app cfg req w)) = 200 <-> ~ rejected_hours hours))
  /\ (rejected_hours hours ->
      fst (delete_older_than req w)
      = Ok (json 400 (obj [("error", str "Valid hours parameter is required")])))
  /\ (~ rejected_hours hours ->
      forall res w', delete_older_than req w = (Ok res, w') -> status res <> 400)
  /\ (forall n, hours = VNum n -> (rejected_hours hours <-> num_lt (Num 0) n = false))
  /\ (forall z, hours = VNum (Num z) -> (rejected_hours hours <-> z <= 0))
  /\ (forall m k, hours = VNum (Frac m k) -> (rejected_hours hours <-> m < 0))
  /\ (hours = VNum (Inf false) \/ hours = VBool true -> ~ rejected_hours hours)
  /\ (forall z, 0 <= z -> z < 10 ^ 20 -> hours = VStr (decimal z) ->
      ~ rejected_hours hours).
Proof.
  intros cfg req w hours Hget.
  pose proof (invalid_hours_iff hours) as Hiff.
  split; [|split; [|split; [|split; [|split; [|split; [|split]]]]]].
  - intros Hm Hp. rewrite (post_auto_delete_app cfg req w hours Hm Hp Hget).
    destruct (invalid_hours hours); cbn [fst status json].
    + assert (Hr : rejected_hours hours) by now apply Hiff.
      split; split; intros H; try reflexivity; try discriminate;
        try assumption; try contradiction.
    + assert (Hr : ~ rejected_hours hours)
        by (intros Hr; apply Hiff in Hr; discriminate).
      split; split; intros H; try reflexivity; try discriminate;
        try assumption; try contradiction.
  - intros Hr. apply Hiff in Hr.
    destruct (delete_older_than_status req w hours Hget) as (H & _).
    now rewrite (H Hr).
  - intros Hr res w' Hrun.
    destruct (delete_older_than_status req w hours Hget) as (_ & H).
    destruct (invalid_hours hours) eqn:Hi; [exfalso; apply Hr; now apply Hiff|].
    destruct (H eq_refl res w' Hrun) as [-> | ->]; discriminate.
  - intros n ->. apply rejected_number.
  - intros z ->. apply rejected_integer.
  - intros m k ->. apply rejected_fraction.
  - intros [-> | ->] H.
    + apply rejected_number in H. discriminate.
    + apply invalid_hours_iff in H. discriminate.
  - intros z H0 H1 ->. now apply accepted_numeral.
Qed.

(** ** The reported auto-delete setting *)

(** C10: GET /messages/auto-delete reports the configured
    [AUTO_DELETE_HOURS] after any sequence of requests; a POST
    /messages/auto-delete with accepted hours installs a timer with those
    hours and leaves the report as it was; the configured value is what
    [parseInt] makes of the environment variable, or 24 when that is NaN or 0,
    so 24 when the variable is not set. *)
Theorem auto_delete_setting_is_the_startup_value :
  forall (cfg : Config) (get_req : Request) (reqs : list Request) (w : World),
  method get_req = GET -> path get_req = [u "messages"; u "auto-delete"] ->
  fst (app cfg get_req (run cfg reqs w))
  = json 200
      (obj [("autoDeleteEnabled", VBool true);
            ("currentSetting",
             VStr (Number_toString (AUTO_DELETE_HOURS cfg) ++ u " hours"));
            ("configurable", VBool true)])
  /\ (forall post_req hours,
      method post_req = POST -> path post_req = [u "messages"; u "auto-delete"] ->
      get (req_body post_req) (u "hours") = Ok hours ->
      ~ rejected_hours hours ->
      autoDeleteTimer (snd (app cfg post_req w))
      = Some {| timer_hours := hours; intervalMs := hours_ms hours |}
      /\ fst (app cfg get_req (snd (app cfg post_req w))) = fst (app cfg get_req w))
  /\ (forall env default_data_file,
      cfg = load_config env default_data_file ->
      AUTO_DELETE_HOURS cfg
      = (let n := parseInt (env_value (env (u "AUTO_DELETE_HOURS"))) in
         match n with
         | NaN | Num 0 => Num 24
         | _ => n
         end)
      /\ (env (u "AUTO_DELETE_HOURS") = None ->
          Number_toString (AUTO_DELETE_HOURS cfg) ++ u " hours" = u "24 hours")).
Proof.
  intros cfg get_req reqs w Hm Hp.
  split; [|split].
  - now rewrite (get_auto_delete_app cfg get_req _ Hm Hp).
  - intros post_req hours Hpm Hpp Hget Hok.
    rewrite (post_auto_delete_app cfg post_req w hours Hpm Hpp Hget).
    destruct (invalid_hours hours) eqn:Hi.
    + exfalso. apply Hok. now apply invalid_hours_iff.
    + cbn [snd]. split; [reflexivity|].
      now rewrite !(get_auto_delete_app cfg get_req _ Hm Hp).
  - intros env dflt ->. split.
    + cbn [load_config AUTO_DELETE_HOURS].
      destruct (parseInt _) as [|[| |]| |]; reflexivity.
    + intros Hnone. cbn [load_config AUTO_DELETE_HOURS]. rewrite Hnone. reflexivity.
Qed.

(** ** The route order *)

(** C1: a DELETE /messages/older-than request is handled by the route
    [/messages/:id], registered first, with the id [older-than]: on a stored
    collection with no such id it is answered 404 and nothing is removed,
    whatever the body and however old the messages. *)
Theorem older_than_request_is_handled_as_delete_by_id :
  forall (cfg : Config) (req : Request) (w : World) (msgs : list Message),
  method req = DELETE -> path req = [u "messages"; u "older-than"] ->
  stored w = collection_value msgs ->
  Forall (fun m => id m <> u "older-than") msgs ->
  find_route (routes cfg) req = Some (delete_message (u "older-than"))
  /\ fst (app cfg req w) = json 404 (obj [("error", str "Message not found")])
  /\ file (snd (app cfg req w)) = file w
  /\ stored (snd (app cfg req w)) = collection_value msgs.
Proof.
  intros cfg req w msgs Hm Hp Hst Hall.
  assert (Hmatch : match_path [Lit "messages"; Param] (path req) [] = Some (u "older-than"))
    by (rewrite Hp; reflexivity).
  assert (Hdec : decodeURIComponent (u "older-than") = Some (u "older-than"))
    by reflexivity.
  split; [now apply (route_delete_message cfg req (u "older-than"))|].
  destruct (delete_message_app cfg req w msgs _ _ Hm Hmatch Hdec Hst) as (w1 & Hl & ->).
  rewrite filter_keeps_all, Nat.eqb_refl.
  - cbn [fst snd]. split; [reflexivity|]. split; [now apply later_file|].
    rewrite <- Hst. now apply stored_later.
  - eapply Forall_impl; [|exact Hall].
    intros m Hm'. cbv beta in *. apply negb_true_iff. now apply str_eqb_neq.
Qed.

(** ** Ids *)

Lemma set_file_stopped t w : ticks w = [] -> ticks (set_file t w) = [].
Proof. intros H. exact H. Qed.

(** C2: two messages created while the clock shows the same millisecond get
    the same id. *)
Theorem same_millisecond_same_id :
  forall (cfg : Config) (req1 req2 : Request) (w : World) (s1 s2 : jsstring)
         (msgs : list Message),
  method req1 = POST -> path req1 = [u "messages"] ->
  method req2 = POST -> path req2 = [u "messages"] ->
  get (req_body req1) (u "text") = Ok (VStr s1) -> trim s1 <> [] ->
  get (req_body req2) (u "text") = Ok (VStr s2) -> trim s2 <> [] ->
  stored w = collection_value msgs -> writable w = true ->
  ticks w = [] ->
  exists m1 m2,
    fst (app cfg req1 w) = json 201 (message_value m1)
    /\ fst (app cfg req2 (snd (app cfg req1 w))) = json 201 (message_value m2)
    /\ stored (snd (app cfg req2 (snd (app cfg req1 w))))
       = collection_value (msgs ++ [m1; m2])
    /\ id m1 = id m2.
Proof.
  intros cfg req1 req2 w s1 s2 msgs Hm1 Hp1 Hm2 Hp2 Hg1 Ht1 Hg2 Ht2 Hst Hw Hticks.
  destruct (post_messages_app cfg req1 w s1 msgs Hm1 Hp1 Hg1 Ht1 Hst)
    as (w1 & ts1 & Hl1 & _ & Happ1).
  cbv zeta in Happ1. rewrite Hw in Happ1.
  rewrite (later_stopped _ _ Hticks Hl1) in Happ1.
  rewrite !(advance_stopped w Hticks) in Happ1.
  set (m1 := {| id := Number_toString (Num (now w)); text := trim s1; timestamp := ts1 |}) in *.
  set (w2 := set_file (collection_text (msgs ++ [m1])) w) in *.
  assert (Hticks2 : ticks w2 = []) by exact Hticks.
  rewrite (advance_stopped w2 Hticks2) in Happ1.
  rewrite Happ1. cbn [fst snd].
  assert (Hst2 : stored w2 = collection_value (msgs ++ [m1])) by apply stored_set_file.
  destruct (post_messages_app cfg req2 w2 s2 _ Hm2 Hp2 Hg2 Ht2 Hst2)
    as (w3 & ts2 & Hl2 & _ & Happ2).
  cbv zeta in Happ2. change (writable w2) with (writable w) in Happ2.
  rewrite Hw in Happ2.
  rewrite (later_stopped _ _ Hticks2 Hl2) in Happ2.
  rewrite !(advance_stopped w2 Hticks2) in Happ2.
  set (m2 := {| id := Number_toString (Num (now w2)); text := trim s2; timestamp := ts2 |}) in *.
  set (w4 := set_file (collection_text ((msgs ++ [m1]) ++ [m2])) w2) in *.
  assert (Hticks4 : ticks w4 = []) by exact Hticks.
  rewrite (advance_stopped w4 Hticks4) in Happ2.
  rewrite Happ2. cbn [fst snd].
  exists m1, m2. split; [reflexivity|]. split; [reflexivity|]. split.
  - unfold w4. rewrite stored_set_file. now rewrite <- app_assoc.
  - reflexivity.
Qed.

End WithEngine.
End ServerFacts.

Module MoreFacts.
Import Js Json JsDate Server Layout JsonFacts StoreFacts DateFacts.
Import RoundFacts NumberFacts ServerFacts.
Local Open Scope string_scope.
Local Open Scope list_scope.
Local Open Scope Z_scope.

Section WithEngine.
Context {E : Engine}.

(** Filtering the stored values by date is filtering the messages by date. *)
Lemma keep_recent_messages cutoffTime msgs :
  keep_recent cutoffTime (map message_value msgs)
  = Ok (map message_value
          (filter (fun m => num_ge (Date_parse (timestamp m)) cutoffTime) msgs)).
Proof.
  unfold keep_recent.
  induction msgs as [|m msgs IH]; [reflexivity|].
  cbn [map filterE]. rewrite IH.
  change (get (message_value m) (u "timestamp")) with (@Ok JsVal (VStr (timestamp m))).
  cbn [Date_of_value filter].
  destruct (num_ge (Date_parse (timestamp m)) cutoffTime); reflexivity.
Qed.

(** A time value is an integer or NaN. *)
Lemma TimeClip_cases n : TimeClip n = NaN \/ exists t, TimeClip n = Num t.
Proof.
  destruct n as [|z|m k|b]; cbn [TimeClip]; auto.
  - destruct (Z.abs z <=? maxTime); eauto.
  - destruct (Z.abs (2 * m + 1) <=? maxTime * 2 ^ Z.pos k); eauto.
Qed.

Lemma Date_parse_cases s : Date_parse s = NaN \/ exists t, Date_parse s = Num t.
Proof. unfold Date_parse. destruct (parse_iso s); [eauto | apply TimeClip_cases]. Qed.

(** The messages kept are those of a date at or after the cut-off. *)
Lemma kept_messages cutoffTime msgs :
  let kept := filter (fun m => num_ge (Date_parse (timestamp m)) cutoffTime) msgs in
  (forall c m, cutoffTime = Num c ->
     (In m kept <-> In m msgs /\ exists tm, Date_parse (timestamp m) = Num tm /\ c <= tm))
  /\ (cutoffTime = NaN -> kept = []).
Proof.
  cbv zeta. split.
  - intros c m Hc. rewrite filter_In, Hc. split.
    + intros (Hin & Hge). split; [assumption|].
      destruct (Date_parse_cases (timestamp m)) as [H|(tm & H)]; rewrite H in *;
        [discriminate|].
      exists tm. split; [reflexivity | now apply Z.leb_le].
    + intros (Hin & tm & -> & Hle). split; [assumption | now apply Z.leb_le].
  - intros Hnan. rewrite Hnan.
    induction msgs as [|m msgs IH]; [reflexivity|].
    cbn [filter].
    destruct (Date_parse (timestamp m)) as [| | |[|]]; exact IH.
Qed.

(** [hours * 60 * 60 * 1000] for an integer whose product is below 2^53. *)
Lemma hours_ms_number z :
  Z.abs (z * 3600000) < 2 ^ 53 -> hours_ms (VNum (Num z)) = Num (z * 3600000).
Proof.
  intros H. unfold hours_ms. cbn [ToNumber num_mul].
  rewrite (round_Z_small (z * 60)) by lia. cbn [num_mul].
  rewrite (round_Z_small (z * 60 * 60)) by lia. cbn [num_mul].
  rewrite round_Z_small by lia. f_equal. lia.
Qed.

Lemma accepted_hours hours : ~ rejected_hours hours -> invalid_hours hours = false.
Proof.
  intros H. destruct (invalid_hours hours) eqn:Hi; [|reflexivity].
  exfalso. apply H. now apply invalid_hours_iff.
Qed.

(** The handler registered for DELETE /messages/older-than, run on its own:
    with hours that pass the validation, a stored collection and a writable
    file it keeps, in their order, the messages whose time stamp is a date at
    or after the cut-off, which is a reading of the clock taken during the
    call minus [hours * 60 * 60 * 1000], writes them, and reports how many it
    dropped.  A cut-off outside the range of dates is an invalid date, and
    then no message is kept.  For a whole number of hours the cut-off is the
    reading minus 3600000 times the hours. *)
Theorem delete_older_than_handler :
  forall (req : Request) (w : World) (msgs : list Message) (hours : JsVal),
  get (req_body req) (u "hours") = Ok hours -> ~ rejected_hours hours ->
  stored w = collection_value msgs -> writable w = true ->
  exists t, now w <= t <= now (snd (delete_older_than req w)) /\
    let cutoffTime := TimeClip (num_sub (Num t) (hours_ms hours)) in
    let kept := filter (fun m => num_ge (Date_parse (timestamp m)) cutoffTime) msgs in
    fst (delete_older_than req w)
    = Ok (json 200
            (obj [("message", VStr (u "Messages older than " ++ ToString hours
                                    ++ u " hours deleted successfully"));
                  ("deletedCount", num (List.length msgs - List.length kept))]))
    /\ stored (snd (delete_older_than req w)) = collection_value kept
    /\ (forall c m, cutoffTime = Num c ->
        (In m kept <-> In m msgs /\ exists tm, Date_parse (timestamp m) = Num tm /\ c <= tm))
    /\ (cutoffTime = NaN -> kept = [])
    /\ (forall z, hours = VNum (Num z) ->
        z * 3600000 < 2 ^ 53 -> Z.abs (t - z * 3600000) <= maxTime ->
        cutoffTime = Num (t - z * 3600000)).
Proof.
  intros req w msgs hours Hget Hok Hst Hw.
  destruct (readMessages_stored w) as (w1 & Hr & Hl).
  exists (now w1).
  set (cutoffTime := TimeClip (num_sub (Num (now w1)) (hours_ms hours))).
  set (kept := filter (fun m => num_ge (Date_parse (timestamp m)) cutoffTime) msgs).
  assert (Hrun : delete_older_than req w
    = (Ok (json 200
            (obj [("message", VStr (u "Messages older than " ++ ToString hours
                                    ++ u " hours deleted successfully"));
                  ("deletedCount", num (List.length msgs - List.length kept))])),
       advance (set_file (collection_text kept) (advance w1)))).
  { unfold delete_older_than.
    rewrite Hget, bind_lift, (accepted_hours hours Hok).
    rewrite (bind_ok _ _ _ _ _ Hr), bind_Date_now, Hst.
    fold cutoffTime. unfold collection_value.
    rewrite keep_recent_messages, bind_lift. fold kept.
    destruct (writeMessages_array (map message_value kept) (advance w1))
      as (t & Ht & Hwm).
    change (VArr (map message_value kept)) with (collection_value kept) in Ht.
    rewrite serialize_collection in Ht. injection Ht as <-.
    assert (Hwr : writable (advance w1) = true).
    { rewrite <- Hw. apply later_writable.
      eapply later_trans; [exact Hl | apply later_advance]. }
    rewrite Hwr in Hwm.
    rewrite (bind_ok _ _ _ _ _ Hwm), bind_log. cbn [ret].
    now rewrite !length_map. }
  rewrite Hrun. cbn [fst snd].
  split.
  { split; [now apply later_now|].
    pose proof (now_advance w1).
    pose proof (now_advance (set_file (collection_text kept) (advance w1))).
    change (now (set_file (collection_text kept) (advance w1))) with (now (advance w1)) in *.
    lia. }
  cbv zeta. fold cutoffTime. fold kept.
  split; [reflexivity|]. split.
  { rewrite <- (stored_set_file kept (advance w1)). now apply stored_file. }
  destruct (kept_messages cutoffTime msgs) as (Hin & Hnan). fold kept in Hin, Hnan.
  split; [exact Hin|]. split; [exact Hnan|].
  intros z -> Hz Ht. unfold cutoffTime.
  assert (Hpos : 0 < z).
  { destruct (Z.lt_ge_cases 0 z) as [H|H]; [exact H|].
    exfalso. apply Hok. apply rejected_integer. lia. }
  assert (Hm : maxTime < 2 ^ 53) by (vm_compute; reflexivity).
  rewrite hours_ms_number by lia. cbn [num_sub].
  rewrite round_Z_small by lia. cbn [TimeClip].
  now rewrite (proj2 (Z.leb_le _ _) Ht).
Qed.

(** ** Ids and clock readings *)

(** Ids made from different readings of the clock are different, as long as
    the readings are below 2^53, as every time is that a date can hold. *)
Theorem ids_of_different_readings_differ :
  forall t1 t2 : Z,
  Z.abs t1 < 2 ^ 53 -> Z.abs t2 < 2 ^ 53 -> t1 <> t2 ->
  Number_toString (Num t1) <> Number_toString (Num t2).
Proof.
  intros t1 t2 H1 H2 Hne. unfold Number_toString.
  rewrite (proj2 (Z.ltb_lt _ _) H1), (proj2 (Z.ltb_lt _ _) H2).
  intros H. apply Hne. now apply decimal_inj.
Qed.

(** [Date.parse] reads back the string [toISOString] writes for a time in
    the years 0 to 9999, a string of 24 characters. *)
Theorem toISOString_is_read_back :
  forall t : Z,
  minISO <= t <= maxISO ->
  exists ts, toISOString (Num t) = Ok ts /\ Date_parse ts = Num t
             /\ List.length ts = 24%nat.
Proof.
  intros t Ht. destruct (toISOString_ok t) as (ts & Hts).
  exists ts. split; [exact Hts|]. split; [now apply (Date_parse_toISOString t)|].
  pose proof (year_in_range t Ht) as Hy.
  unfold toISOString in Hts.
  replace ((0 <=? YearFromDay (Day t)) && (YearFromDay (Day t) <=? 9999)) with true in Hts
    by (symmetry; apply andb_true_iff; split; apply Z.leb_le; lia).
  injection Hts as <-. unfold date_time_string.
  repeat (rewrite ?length_app, ?pad_length; cbn [List.length]).
  reflexivity.
Qed.

End WithEngine.
End MoreFacts.

(* ================================================================== *)
(** * The definitions at work on small inputs *)
(* ================================================================== *)

Module Checks.
Import Js Json JsDate Server Layout Client Examples.
Local Open Scope string_scope.
Local Open Scope list_scope.
Local Open Scope Z_scope.

#[local] Existing Instance example_engine.

Example trim_both_ends : trim (u "  hello world  ") = u "hello world".
Proof. reflexivity. Qed.

Example trim_blank : trim (9 :: 160 :: 8232 :: u " ")%N = [].
Proof. reflexivity. Qed.

Example escapeHtml_markup :
  escapeHtml (u "<a href='x'>T&C</a>")
  = u "&lt;a href=&#039;x&#039;&gt;T&amp;C&lt;/a&gt;".
Proof. reflexivity. Qed.

Example escapeHtml_escapes_entities_again :
  escapeHtml (u "&lt;") = u "&amp;lt;".
Proof. reflexivity. Qed.

Example toISOString_epoch :
  toISOString (Num 0) = Ok (u "1970-01-01T00:00:00.000Z").
Proof. reflexivity. Qed.

Example toISOString_leap_day :
  toISOString (Num 1709251199999) = Ok (u "2024-02-29T23:59:59.999Z").
Proof. vm_compute. reflexivity. Qed.

Example toISOString_last_date :
  toISOString (Num maxTime) = Ok (u "+275760-09-13T00:00:00.000Z").
Proof. vm_compute. reflexivity. Qed.

Example Date_parse_example :
  Date_parse (u "2023-11-14T22:13:20.000Z") = Num 1700000000000.
Proof. vm_compute. reflexivity. Qed.

Example no_thirtieth_of_february :
  parse_iso (u "2023-02-30T00:00:00.000Z") = None.
Proof. vm_compute. reflexivity. Qed.

Example TimeClip_out_of_range : TimeClip (Num (maxTime + 1)) = NaN.
Proof. reflexivity. Qed.

Example parseInt_prefix : parseInt (VStr (u "  12px")) = Num 12.
Proof. reflexivity. Qed.

Example parseInt_hexadecimal : parseInt (VStr (u "0x1F")) = Num 31.
Proof. reflexivity. Qed.

Example parseInt_undefined : parseInt VUndefined = NaN.
Proof. reflexivity. Qed.

Example default_hours : AUTO_DELETE_HOURS example_config = Num 24.
Proof. reflexivity. Qed.

Example configured_hours :
  AUTO_DELETE_HOURS
    (load_config (fun k => if str_eqb k (u "AUTO_DELETE_HOURS") then Some (u "48") else None)
                 (u "data/messages.json"))
  = Num 48.
Proof. reflexivity. Qed.

Example stringify_empty : stringify (VArr []) = Some (u "[]").
Proof. reflexivity. Qed.

Example stringify_one_message :
  stringify (collection_value [hello])
  = Some (u "[" ++ newline :: u "  {" ++ newline
          :: u "    " ++ dquote :: u "id" ++ dquote :: u ": "
             ++ dquote :: u "1700000000000" ++ dquote :: u "," ++ newline
          :: u "    " ++ dquote :: u "text" ++ dquote :: u ": "
             ++ dquote :: u "hello" ++ dquote :: u "," ++ newline
          :: u "    " ++ dquote :: u "timestamp" ++ dquote :: u ": "
             ++ dquote :: u "2023-11-14T22:13:20.000Z" ++ dquote :: newline
          :: u "  }" ++ newline :: u "]").
Proof. reflexivity. Qed.

Example quote_control_and_surrogates :
  QuoteJSONString [10; 34; 92; 1; 55357; 56832; 55357]%N
  = dquote :: u "\n\" ++ dquote :: u "\\\u0001" ++ [55357; 56832]%N
    ++ u "\ud83d" ++ [dquote].
Proof. reflexivity. Qed.

Example parse_array : parse (u " [1, -2 ,true,null] ")
  = Ok (VArr [VNum (Num 1); VNum (Num (-2)); VBool true; VNull]).
Proof. reflexivity. Qed.

Example parse_duplicate_and_index_keys :
  parse (u "{" ++ dquote :: u "b" ++ dquote :: u ":1," ++ dquote :: u "10" ++ dquote
         :: u ":2," ++ dquote :: u "9" ++ dquote :: u ":3," ++ dquote :: u "b" ++ dquote
         :: u ":4}")
  = Ok (VObj [(u "9", VNum (Num 3)); (u "10", VNum (Num 2)); (u "b", VNum (Num 4))]).
Proof. reflexivity. Qed.

Example parse_trailing_comma : parse (u "[1,]") = Throw SyntaxError.
Proof. reflexivity. Qed.

Example parse_leading_zero : parse (u "01") = Throw SyntaxError.
Proof. reflexivity. Qed.

Example parse_empty_file : parse [] = Throw SyntaxError.
Proof. reflexivity. Qed.

Example parse_trailing_text : parse (u "[] x") = Throw SyntaxError.
Proof. reflexivity. Qed.

(** A file that is not JSON reads as no messages; one that holds an object
    makes the create route throw, which the error handler answers. *)
Example corrupt_file_reads_empty :
  fst (readMessages {| file := Some (u "[{"); writable := true; now := 0;
                       ticks := []; autoDeleteTimer := None |})
  = Ok (VArr []).
Proof. reflexivity. Qed.

Example object_in_file_is_500 :
  status (fst (app example_config (post_text "hi")
                 {| file := Some (u "{}"); writable := true; now := 0;
                    ticks := []; autoDeleteTimer := None |}))
  = 500.
Proof. vm_compute. reflexivity. Qed.

(** A text that is not a string has no [trim]. *)
Example number_as_text_is_500 :
  status (fst (app example_config
                 (request POST ["messages"] (obj [("text", VNum (Num 5))]))
                 example_world))
  = 500.
Proof. vm_compute. reflexivity. Qed.

Example unknown_route_is_404 :
  fst (app example_config (request PUT ["messages"] (VObj [])) example_world)
  = json 404 (obj [("error", str "Route not found");
                   ("path", str "/messages");
                   ("method", str "PUT")]).
Proof. reflexivity. Qed.

(** The first registered route that matches wins. *)
Example older_than_without_hours_is_404 :
  fst (app example_config (request DELETE ["messages"; "older-than"] (VObj []))
         example_world)
  = json 404 (obj [("error", str "Message not found")]).
Proof. vm_compute. reflexivity. Qed.

Example delete_all_empties_the_store :
  stored (snd (app example_config (request DELETE ["messages"] (VObj [])) example_world))
  = VArr [].
Proof. vm_compute. reflexivity. Qed.

(** The timer set to one hour fires: the message two hours old is swept. *)
Example sweep_after_one_hour :
  stored (snd (sweep {| timer_hours := VNum (Num 1); intervalMs := Num 3600000 |}
                 example_world))
  = collection_value [hello_again].
Proof. vm_compute. reflexivity. Qed.

End Checks.

(* ================================================================== *)
(** * The theorems at work on the example worlds *)
(* ================================================================== *)

Module Instances.
Import Js Json JsDate Server Layout Examples.
Import JsonFacts StoreFacts DateFacts RoundFacts NumberFacts ServerFacts MoreFacts.
Local Open Scope string_scope.
Local Open Scope list_scope.
Local Open Scope Z_scope.

#[local] Existing Instance example_engine.

Lemma example_world_stored :
  stored example_world = collection_value [hello; hello_again].
Proof. vm_compute. reflexivity. Qed.

Lemma read_only_world_stored :
  stored read_only_world = collection_value [hello; hello_again].
Proof. vm_compute. reflexivity. Qed.

Lemma one_millisecond_world_stored :
  stored one_millisecond_world = collection_value [hello; hello_again].
Proof. vm_compute. reflexivity. Qed.


(** A text of three spaces is refused and the file stays as it is. *)
Lemma post_blank_text_is_rejected_witness :
  fst (app example_config (post_text "   ") example_world)
  = json 400 (obj [("error", str "Message text is required")])
  /\ file (snd (app example_config (post_text "   ") example_world)) = file example_world
  /\ stored (snd (app example_config (post_text "   ") example_world))
     = stored example_world.
Proof.
  apply (post_blank_text_is_rejected example_config (post_text "   ") example_world
           (VStr (u "   "))); try reflexivity.
  right. exists (u "   "). split; reflexivity.
Defined.



(** Half an hour is accepted. *)
Lemma hours_validation_witness :
  status (fst (app example_config (post_auto_delete_hours (VNum (Frac 0 1))) example_world))
  = 200.
Proof.
  destruct (hours_validation example_config (post_auto_delete_hours (VNum (Frac 0 1)))
              example_world (VNum (Frac 0 1)) eq_refl)
    as (H & _ & _ & _ & _ & Hfrac & _).
  destruct (H eq_refl eq_refl) as (_ & H200).
  apply H200. intros Hr. apply (Hfrac 0 1%positive eq_refl) in Hr. lia.
Defined.

(** With no environment variable the report is [24 hours], also after the
    timer was set to one hour. *)
Lemma auto_delete_setting_witness :
  fst (app example_config get_auto_delete_setting
         (run example_config [post_auto_delete_hours (VNum (Num 1))] example_world))
  = json 200 (obj [("autoDeleteEnabled", VBool true);
                   ("currentSetting", str "24 hours");
                   ("configurable", VBool true)]).
Proof.
  exact (proj1 (auto_delete_setting_is_the_startup_value example_config
                  get_auto_delete_setting [post_auto_delete_hours (VNum (Num 1))]
                  example_world eq_refl eq_refl)).
Defined.

(** C1, the failing input: asked to delete what is older than one hour, the
    application answers 404 and keeps the message that is two hours old. *)
Lemma older_than_request_witness :
  fst (app example_config (delete_older_than_hours (VNum (Num 1))) example_world)
  = json 404 (obj [("error", str "Message not found")])
  /\ stored (snd (app example_config (delete_older_than_hours (VNum (Num 1)))
                    example_world))
     = collection_value [hello; hello_again].
Proof.
  destruct (older_than_request_is_handled_as_delete_by_id example_config
              (delete_older_than_hours (VNum (Num 1))) example_world
              [hello; hello_again] eq_refl eq_refl example_world_stored)
    as (_ & Hres & _ & Hst).
  - repeat constructor; discriminate.
  - split; assumption.
Defined.

(** C2, the failing input: two messages created in one millisecond. *)
Lemma same_millisecond_same_id_witness :
  exists m1 m2,
    stored (snd (app example_config (post_text "b")
                   (snd (app example_config (post_text "a") one_millisecond_world))))
    = collection_value ([hello; hello_again] ++ [m1; m2])
    /\ id m1 = id m2.
Proof.
  destruct (same_millisecond_same_id example_config (post_text "a") (post_text "b")
              one_millisecond_world (u "a") (u "b") [hello; hello_again]
              eq_refl eq_refl eq_refl eq_refl eq_refl ltac:(discriminate)
              eq_refl ltac:(discriminate) one_millisecond_world_stored eq_refl eq_refl)
    as (m1 & m2 & _ & _ & Hst & Hid).
  exists m1, m2. split; assumption.
Defined.

(** The two ids of that run, spelled out. *)
Example duplicate_id_in_store :
  stored (snd (app example_config (post_text "b")
                 (snd (app example_config (post_text "a") one_millisecond_world))))
  = collection_value
      [hello; hello_again;
       {| id := u "1700007200000"; text := u "a";
          timestamp := u "2023-11-15T00:13:20.000Z" |};
       {| id := u "1700007200000"; text := u "b";
          timestamp := u "2023-11-15T00:13:20.000Z" |}].
Proof. vm_compute. reflexivity. Qed.

(** C3 as stated fails: [true] is accepted and [false] is refused, though
    neither is absent, negative or the number 0; so no notion of non-numeric
    that holds of both booleans or of neither makes the claim true. *)
Lemma hours_validation_counterexample :
  ~ exists non_numeric : JsVal -> Prop,
      (non_numeric (VBool true) <-> non_numeric (VBool false))
      /\ forall hours,
           status (fst (app example_config (post_auto_delete_hours hours) example_world))
           = 400
           <-> (hours = VUndefined \/ non_numeric hours
                \/ lt_zero hours = true \/ hours = VNum (Num 0)).
Proof.
  intros (non_numeric & Hbool & H).
  assert (Htrue : status (fst (app example_config
                                 (post_auto_delete_hours (VBool true)) example_world))
                  = 200) by reflexivity.
  assert (Hfalse : status (fst (app example_config
                                  (post_auto_delete_hours (VBool false)) example_world))
                   = 400) by reflexivity.
  apply (H (VBool false)) in Hfalse.
  destruct Hfalse as [Hf|[Hf|[Hf|Hf]]]; try discriminate.
  apply Hbool in Hf.
  assert (H400 : status (fst (app example_config
                                (post_auto_delete_hours (VBool true)) example_world))
                 = 400) by (apply H; auto).
  rewrite Htrue in H400. discriminate.
Qed.



(** The handler for older-than, run on its own with half an hour. *)
Lemma delete_older_than_handler_witness :
  hours_ms (VNum (Frac 0 1)) = Num 1800000
  /\ exists t kept,
       now example_world <= t
       /\ stored (snd (delete_older_than (delete_older_than_hours (VNum (Frac 0 1)))
                         example_world))
          = collection_value kept
       /\ kept = filter (fun m => num_ge (Date_parse (timestamp m))
                                    (TimeClip (num_sub (Num t) (Num 1800000))))
                   [hello; hello_again].
Proof.
  split; [vm_compute; reflexivity|].
  assert (Hok : ~ rejected_hours (VNum (Frac 0 1))).
  { intros Hr. apply rejected_fraction in Hr. lia. }
  destruct (delete_older_than_handler (delete_older_than_hours (VNum (Frac 0 1)))
              example_world [hello; hello_again] (VNum (Frac 0 1)) eq_refl Hok
              example_world_stored eq_refl)
    as (t & (Ht & _) & _ & Hst & _).
  exists t. eexists. split; [exact Ht|]. split; [exact Hst | reflexivity].
Defined.

(** In that run both messages go: they are one and two hours old. *)
Example half_an_hour_removes_both :
  stored (snd (delete_older_than (delete_older_than_hours (VNum (Frac 0 1)))
                 example_world))
  = VArr [].
Proof. vm_compute. reflexivity. Qed.

(** In that run the message two hours old goes and the one an hour old, which
    is at the cut-off, stays. *)
Example one_hour_keeps_the_newer_message :
  fst (delete_older_than (delete_older_than_hours (VNum (Num 1))) example_world)
  = Ok (json 200 (obj [("message", str "Messages older than 1 hours deleted successfully");
                       ("deletedCount", num 1)]))
  /\ stored (snd (delete_older_than (delete_older_than_hours (VNum (Num 1)))
                    example_world))
     = collection_value [hello_again].
Proof. split; vm_compute; reflexivity. Qed.

(** With three thousand million hours the cut-off is no date, and the handler
    removes both messages, neither of which is that old. *)
Example huge_hours_remove_everything :
  stored (snd (delete_older_than (delete_older_than_hours (VNum (Num 3000000000)))
                 example_world))
  = VArr [].
Proof. vm_compute. reflexivity. Qed.

Lemma ids_of_different_readings_witness :
  Number_toString (Num 1700000000000) <> Number_toString (Num 1700000000001).
Proof.
  apply ids_of_different_readings_differ; [reflexivity | reflexivity | discriminate].
Defined.

Lemma toISOString_is_read_back_witness :
  exists ts, toISOString (Num 1700000000000) = Ok ts
             /\ Date_parse ts = Num 1700000000000 /\ List.length ts = 24%nat.
Proof.
  apply toISOString_is_read_back. unfold minISO, maxISO. lia.
Defined.

End Instances.

(** ** The routes *)

Module RouteFacts.
Import Js Json JsDate Server Layout Middleware.
Import JsonFacts StoreFacts DateFacts RoundFacts NumberFacts ServerFacts MoreFacts TrimFacts.
Local Open Scope string_scope.
Local Open Scope list_scope.
Local Open Scope Z_scope.

Section WithEngine.
Context {E : Engine}.

Lemma method_eqb_eq a b : method_eqb a b = true -> b = a.
Proof. destruct a, b; (reflexivity || discriminate). Qed.

Lemma addressed_lit req x s :
  shape_of (path req) = One x -> same_letters x (u s) = true -> addressed [Lit s] req.
Proof. intros Hs Hx. exists []. now rewrite match_path_lit, Hs, Hx. Qed.

Lemma addressed_lit_lit req x y s t :
  u t <> [] -> shape_of (path req) = Two x y ->
  same_letters x (u s) = true -> same_letters y (u t) = true ->
  addressed [Lit s; Lit t] req.
Proof.
  intros Ht Hs Hx Hy. exists []. rewrite match_path_lit_lit by exact Ht.
  now rewrite Hs, Hx, Hy.
Qed.

(** The handler [find_route] finds is one the request reaches. *)
Lemma find_route_reached cfg req : reached cfg req (find_route (routes cfg) req).
Proof.
  rewrite find_route_shape.
  destruct (shape_of (path req)) as [x|x y|] eqn:Hs; [| |constructor].
  - destruct (same_letters x (u "messages")) eqn:H1.
    { pose proof (addressed_lit req x "messages" Hs H1).
      destruct (method req) eqn:Hm; constructor; assumption. }
    destruct (same_letters x (u "health")) eqn:H2.
    { pose proof (addressed_lit req x "health" Hs H2).
      destruct (method req) eqn:Hm; constructor; assumption. }
    destruct (same_letters x (u "info")) eqn:H3; [|constructor].
    pose proof (addressed_lit req x "info" Hs H3).
    destruct (method req) eqn:Hm; constructor; assumption.
  - destruct (same_letters x (u "messages")) eqn:H1; [|constructor].
    destruct y as [|c y]; [constructor|].
    destruct (existsb (char_eqb (ch "/")) (c :: y)) eqn:Hsl; [constructor|].
    assert (Hmatch : match_path [Lit "messages"; Param] (path req) [] = Some (c :: y)).
    { rewrite match_path_lit_param, Hs, H1, Hsl. reflexivity. }
    destruct (decodeURIComponent (c :: y)) as [messageId|] eqn:Hdec.
    2:{ now apply (reached_param_error cfg req (c :: y)). }
    destruct (method req) eqn:Hm; try constructor.
    + destruct (same_letters (c :: y) (u "auto-delete")) eqn:H2; constructor;
        [assumption|].
      now apply (addressed_lit_lit req x (c :: y)).
    + destruct (same_letters (c :: y) (u "auto-delete")) eqn:H2; constructor;
        [assumption|].
      now apply (addressed_lit_lit req x (c :: y)).
    + now apply (reached_delete_message cfg req (c :: y) messageId).
Qed.

(** ** Requests that only read *)

Lemma app_none cfg req w :
  find_route (routes cfg) req = None ->
  app cfg req w =
  (json 404 (obj [("error", str "Route not found");
                  ("path", VStr (originalUrl req));
                  ("method", VStr (method_name (method req)))]),
   advance w).
Proof. intros H. unfold app. rewrite H. reflexivity. Qed.

Lemma later_advance_r w w' : later w w' -> later w (advance w').
Proof. intros H. eapply later_trans; [exact H | apply later_advance]. Qed.

Lemma get_health_eq cfg req w :
  exists ts, toISOString (Num (now w)) = Ok ts /\
  get_health cfg req w =
  (Ok (json 200 (obj [("status", str "OK"); ("timestamp", VStr ts);
                      ("environment", VStr (NODE_ENV cfg));
                      ("service", str "backend")])),
   advance w).
Proof.
  destruct (toISOString_ok (now w)) as (ts & Hts). exists ts. split; [exact Hts|].
  unfold get_health. rewrite bind_Date_new, Hts, bind_lift. reflexivity.
Qed.

(** A request whose parameter does not decode gets the error handler's
    answer, whatever its method. *)
Lemma app_param_error cfg req w val :
  find_route (routes cfg) req = Some (param_error val) ->
  app cfg req w = (internal_error cfg (ParamError val), advance (advance w)).
Proof. intros Hr. now rewrite (app_route _ _ _ _ Hr). Qed.

Lemma route_param_error cfg req val :
  match_path [Lit "messages"; Param] (path req) [] = Some val ->
  decodeURIComponent val = None ->
  find_route (routes cfg) req = Some (param_error val).
Proof.
  intros Hp Hdec. rewrite find_route_shape. rewrite match_path_lit_param in Hp.
  destruct (shape_of (path req)) as [x|x y|]; try discriminate.
  destruct (same_letters x (u "messages")); [|discriminate].
  destruct y as [|c y]; [discriminate|].
  destruct (existsb (char_eqb (ch "/")) (c :: y)); [discriminate|].
  injection Hp as <-. now rewrite Hdec.
Qed.

(** No route is registered for the methods PUT and PATCH. *)
Lemma unmatched_methods cfg req :
  method req = PUT \/ method req = PATCH ->
  find_route (routes cfg) req = None
  \/ exists val, match_path [Lit "messages"; Param] (path req) [] = Some val
                 /\ decodeURIComponent val = None
                 /\ find_route (routes cfg) req = Some (param_error val).
Proof.
  intros H. pose proof (find_route_reached cfg req) as Hc.
  destruct (find_route (routes cfg) req) as [h|] eqn:Hr; [|now left].
  right. inversion Hc; subst; try (destruct H; congruence).
  eexists. split; [eassumption|]. split; [assumption | reflexivity].
Qed.

Lemma reading_later cfg req w :
  method req = GET \/ method req = PUT \/ method req = PATCH
  \/ find_route (routes cfg) req = None ->
  later w (snd (app cfg req w)).
Proof.
  intros H.
  destruct (find_route (routes cfg) req) as [h|] eqn:Hr.
  - pose proof (find_route_reached cfg req) as Hc. rewrite Hr in Hc.
    rewrite (app_route _ _ _ _ Hr).
    inversion Hc; subst; try (decompose [or] H; congruence).
    + unfold get_messages.
      destruct (readMessages_stored (advance w)) as (w1 & Hrd & Hl1).
      rewrite (bind_ok _ _ _ _ _ Hrd). cbn [ret snd].
      eapply later_trans; [apply later_advance | exact Hl1].
    + unfold get_auto_delete, ret. cbn [snd]. apply later_advance.
    + destruct (get_health_eq cfg req (advance w)) as (ts & _ & ->). cbn [snd].
      apply later_advance_r, later_advance.
    + unfold get_info, ret. cbn [snd]. apply later_advance.
    + unfold param_error, throw. cbn [snd]. apply later_advance_r, later_advance.
  - rewrite (app_none _ _ _ Hr). cbn [snd]. apply later_advance.
Qed.

(** What a request that only reads leaves behind: a GET request, a request
    with a method no route is registered for, and a request no route matches
    change nothing but the clock (the log lines read it); the data file and
    the timer are as before.  A request no route matches is
    answered 404 with its URL and method; a PUT or PATCH request is one,
    unless its path is that of [/messages/:id] with a parameter that does not
    decode.  Such a request, whatever its method, gets the error handler's
    500. *)
Theorem reading_requests_change_nothing :
  forall (cfg : Config) (req : Request) (w : World),
  (method req = GET \/ method req = PUT \/ method req = PATCH
   \/ find_route (routes cfg) req = None ->
   later w (snd (app cfg req w))
   /\ file (snd (app cfg req w)) = file w
   /\ autoDeleteTimer (snd (app cfg req w)) = autoDeleteTimer w)
  /\ (find_route (routes cfg) req = None ->
      fst (app cfg req w)
      = json 404 (obj [("error", str "Route not found");
                       ("path", VStr (originalUrl req));
                       ("method", VStr (method_name (method req)))]))
  /\ (method req = PUT \/ method req = PATCH ->
      find_route (routes cfg) req = None
      \/ exists val, match_path [Lit "messages"; Param] (path req) [] = Some val
                     /\ decodeURIComponent val = None)
  /\ (forall val,
      match_path [Lit "messages"; Param] (path req) [] = Some val ->
      decodeURIComponent val = None ->
      fst (app cfg req w) = internal_error cfg (ParamError val)
      /\ later w (snd (app cfg req w))).
Proof.
  intros cfg req w.
  split; [|split; [|split]].
  - intros H.
    pose proof (reading_later cfg req w H) as Hl.
    destruct (later_frame _ _ Hl) as (A & B & C & _). auto.
  - intros H. rewrite (app_none _ _ _ H). reflexivity.
  - intros H. destruct (unmatched_methods cfg req H) as [Hn|(val & Hp & Hd & _)];
      [now left | right; eauto].
  - intros val Hp Hd.
    rewrite (app_param_error cfg req w val (route_param_error cfg req val Hp Hd)).
    cbn [fst snd]. split; [reflexivity|]. apply later_advance_r, later_advance.
Qed.

(** GET /health answers 200 with status OK in every world, whatever the state
    of the data file, which it does not look at; its time stamp is the ISO
    string of a reading of the clock taken during the request, which
    [Date.parse] reads back (years 0 to 9999). *)
Theorem health_is_always_ok :
  forall (cfg : Config) (req : Request) (w : World),
  method req = GET -> path req = [u "health"] ->
  exists t ts,
    now w <= t <= now (snd (app cfg req w))
    /\ toISOString (Num t) = Ok ts
    /\ (minISO <= t <= maxISO -> Date_parse ts = Num t)
    /\ fst (app cfg req w)
       = json 200 (obj [("status", str "OK"); ("timestamp", VStr ts);
                        ("environment", VStr (NODE_ENV cfg));
                        ("service", str "backend")]).
Proof.
  intros cfg req w Hm Hp.
  assert (Hr : find_route (routes cfg) req = Some (get_health cfg)).
  { rewrite find_route_shape, Hp, Hm. reflexivity. }
  rewrite (app_route _ _ _ _ Hr).
  destruct (get_health_eq cfg req (advance w)) as (ts & Hts & ->). cbn [fst snd].
  exists (now (advance w)), ts.
  pose proof (now_advance w). pose proof (now_advance (advance w)).
  repeat split; try lia; try assumption.
  intros Ht. now apply (Date_parse_toISOString (now (advance w))).
Qed.

(** ** Deleting everything *)

Lemma stringify_nil : stringify (VArr []) = Some (u "[]").
Proof. reflexivity. Qed.

Lemma parse_nil : parse (u "[]") = Ok (VArr []).
Proof. reflexivity. Qed.

Lemma delete_all_at cfg req w :
  find_route (routes cfg) req = Some delete_all_messages ->
  app cfg req w =
  if writable w then
    (json 200 (obj [("message", str "All messages deleted successfully")]),
     advance (set_file (u "[]") (advance w)))
  else
    (json 500 (obj [("error", str "Failed to delete messages")]),
     advance (advance (advance (advance w)))).
Proof.
  intros Hr.
  rewrite (app_route _ _ _ _ Hr). unfold delete_all_messages.
  destruct (writeMessages_array [] (advance w)) as (t & Ht & Hwm).
  rewrite stringify_nil in Ht. injection Ht as <-.
  change (writable (advance w)) with (writable w) in Hwm.
  destruct (writable w); rewrite (bind_ok _ _ _ _ _ Hwm), bind_log; reflexivity.
Qed.



(** ** Handlers that throw *)

Lemma post_messages_get_throws cfg req w e :
  find_route (routes cfg) req = Some post_messages ->
  get (req_body req) (u "text") = Throw e ->
  app cfg req w = (internal_error cfg e, advance (advance w)).
Proof.
  intros Hr Hget. rewrite (app_route _ _ _ _ Hr).
  unfold post_messages. rewrite Hget. reflexivity.
Qed.

Lemma post_messages_refused cfg req w text :
  find_route (routes cfg) req = Some post_messages ->
  get (req_body req) (u "text") = Ok text ->
  truthy text = false \/ (exists s, text = VStr s /\ trim s = []) ->
  app cfg req w
  = (json 400 (obj [("error", str "Message text is required")]), advance w).
Proof.
  intros Hr Hget H. rewrite (app_route _ _ _ _ Hr).
  unfold post_messages. rewrite Hget, bind_lift.
  destruct H as [H|(s & -> & H)].
  - rewrite H. reflexivity.
  - assert (Hempty :
      (if negb (truthy (VStr s)) then ret true
       else t <- lift (call_trim (VStr s)) ;; ret (str_eqb t [])) (advance w)
      = (Ok true, advance w)).
    { destruct (truthy (VStr s)); cbn [negb call_trim]; [|reflexivity].
      rewrite bind_lift. unfold ret. now rewrite H. }
    rewrite (bind_ok _ _ _ _ _ Hempty). reflexivity.
Qed.

Lemma post_messages_not_a_string cfg req w text :
  find_route (routes cfg) req = Some post_messages ->
  get (req_body req) (u "text") = Ok text ->
  truthy text = true -> (forall s, text <> VStr s) ->
  app cfg req w = (internal_error cfg TypeError, advance (advance w)).
Proof.
  intros Hr Hget Ht Hs. rewrite (app_route _ _ _ _ Hr).
  unfold post_messages. rewrite Hget, bind_lift, Ht. cbn [negb].
  destruct text; try reflexivity. now destruct (Hs s).
Qed.

(** The create route on a text that is not blank, when the file holds JSON
    that is not an array: [messages.push] is not a function. *)
Lemma post_messages_not_an_array cfg req w s :
  method req = POST -> path req = [u "messages"] ->
  get (req_body req) (u "text") = Ok (VStr s) -> trim s <> [] ->
  (forall items, stored w <> VArr items) ->
  exists w1, later w w1 /\
  app cfg req w = (internal_error cfg TypeError, w1).
Proof.
  intros Hm Hp Hget Htrim Hna.
  rewrite (app_route _ _ _ _ (route_post_messages cfg req Hm Hp)).
  unfold post_messages. rewrite Hget, bind_lift.
  pose proof (trim_nonempty _ Htrim) as Hs.
  assert (Htruthy : truthy (VStr s) = true) by (destruct s; [contradiction | reflexivity]).
  assert (Hempty :
    (if negb (truthy (VStr s)) then ret true
     else t <- lift (call_trim (VStr s)) ;; ret (str_eqb t [])) (advance w)
    = (Ok false, advance w)).
  { rewrite Htruthy. cbn [negb call_trim]. rewrite bind_lift. unfold ret.
    now rewrite (proj2 (str_eqb_neq _ _) Htrim). }
  rewrite (bind_ok _ _ _ _ _ Hempty). cbn [call_trim].
  destruct (readMessages_stored (advance w)) as (w1 & Hr & Hl1).
  rewrite (bind_ok _ _ _ _ _ Hr).
  assert (Hl : later w w1) by (eapply later_trans; [apply later_advance | exact Hl1]).
  rewrite (stored_later _ _ (later_advance w)).
  rewrite bind_Date_now, bind_lift, bind_Date_new.
  destruct (toISOString_ok (now (advance w1))) as (ts & Hts).
  rewrite Hts, bind_lift. cbv zeta.
  exists (advance (advance (advance w1))).
  split; [now repeat apply later_advance_r|].
  destruct (stored w) as [| | | | |items|]; try reflexivity.
  now destruct (Hna items).
Qed.

(** What the error-handling middleware answers when a handler throws: a
    create request whose body is missing, or whose [text] is truthy and not a
    string (it has no [trim]), is answered 500 with the body [{error:
    'Internal server error', message}], the message being the error's own
    text in development mode and ['Something went wrong'] otherwise; nothing is
    written. *)
Theorem thrown_errors_are_answered_500 :
  forall (cfg : Config) (req : Request) (w : World),
  method req = POST -> path req = [u "messages"] ->
  (req_body req = VUndefined \/ req_body req = VNull
   \/ exists text, get (req_body req) (u "text") = Ok text
                   /\ truthy text = true /\ forall s, text <> VStr s) ->
  fst (app cfg req w)
  = json 500
      (obj [("error", str "Internal server error");
            ("message",
             VStr (if str_eqb (NODE_ENV cfg) (u "development")
                   then error_message TypeError else u "Something went wrong"))])
  /\ later w (snd (app cfg req w))
  /\ file (snd (app cfg req w)) = file w.
Proof.
  intros cfg req w Hm Hp H.
  assert (Happ : app cfg req w = (internal_error cfg TypeError, advance (advance w))).
  { pose proof (route_post_messages cfg req Hm Hp) as Hr.
    destruct H as [H|[H|(text & Hget & Ht & Hs)]].
    - apply post_messages_get_throws; [assumption|]. now rewrite H.
    - apply post_messages_get_throws; [assumption|]. now rewrite H.
    - now apply (post_messages_not_a_string cfg req w text). }
  rewrite Happ. cbn [fst snd].
  assert (Hl : later w (advance (advance w))) by apply later_advance_r, later_advance.
  split; [reflexivity|]. split; [exact Hl | now apply later_file].
Qed.

Lemma delete_message_not_an_array cfg req w val messageId :
  method req = DELETE ->
  match_path [Lit "messages"; Param] (path req) [] = Some val ->
  decodeURIComponent val = Some messageId ->
  (forall items, stored w <> VArr items) ->
  exists w1, later w w1 /\
  app cfg req w = (internal_error cfg TypeError, w1).
Proof.
  intros Hm Hp Hdec Hna.
  rewrite (app_route _ _ _ _ (route_delete_message cfg req val messageId Hm Hp Hdec)).
  unfold delete_message.
  destruct (readMessages_stored (advance w)) as (w1 & Hr & Hl1).
  rewrite (bind_ok _ _ _ _ _ Hr).
  rewrite (stored_later _ _ (later_advance w)).
  exists (advance w1). split.
  - apply later_advance_r. eapply later_trans; [apply later_advance | exact Hl1].
  - destruct (stored w) as [| | | | |items|]; try reflexivity.
    now destruct (Hna items).
Qed.

(** A data file that holds JSON which is not an array (an object, a string, a
    number, [null]) is not read as an empty collection: GET /messages returns
    the value as it is with 200, while the create route, on a text it accepts,
    and the delete-by-id route answer 500 through the error handler and leave
    the file as it is.  When the value is [null] or a string that is not
    empty, a firing of the timer throws a TypeError, which nothing catches. *)
Theorem file_without_an_array_is_not_fail_soft :
  forall (cfg : Config) (w : World),
  (forall items, stored w <> VArr items) ->
  (forall req, method req = GET -> path req = [u "messages"] ->
     fst (app cfg req w) = json 200 (stored w))
  /\ (forall req s, method req = POST -> path req = [u "messages"] ->
        get (req_body req) (u "text") = Ok (VStr s) -> trim s <> [] ->
        fst (app cfg req w) = internal_error cfg TypeError
        /\ file (snd (app cfg req w)) = file w)
  /\ (forall req val messageId, method req = DELETE ->
        match_path [Lit "messages"; Param] (path req) [] = Some val ->
        decodeURIComponent val = Some messageId ->
        fst (app cfg req w) = internal_error cfg TypeError
        /\ file (snd (app cfg req w)) = file w)
  /\ (stored w = VNull \/ (exists c s, stored w = VStr (c :: s)) ->
      forall t, fst (sweep t w) = Throw TypeError
                /\ file (snd (sweep t w)) = file w).
Proof.
  intros cfg w Hna. split; [|split; [|split]].
  - intros req Hm Hp. apply (get_messages_app cfg req w Hm Hp).
  - intros req s Hm Hp Hget Htrim.
    destruct (post_messages_not_an_array cfg req w s Hm Hp Hget Htrim Hna)
      as (w1 & Hl & ->).
    split; [reflexivity | now apply later_file].
  - intros req val messageId Hm Hp Hdec.
    destruct (delete_message_not_an_array cfg req w val messageId Hm Hp Hdec Hna)
      as (w1 & Hl & ->).
    split; [reflexivity | now apply later_file].
  - intros H t.
    destruct (readMessages_stored w) as (w1 & Hr & Hl).
    unfold sweep. rewrite (bind_ok _ _ _ _ _ Hr).
    destruct H as [->|(c & s & ->)]; cbn [length_is_positive].
    + split; [reflexivity | now apply later_file].
    + rewrite bind_lift, bind_Date_now. cbn [throw fst snd].
      split; [reflexivity|]. apply later_file. now apply later_advance_r.
Qed.

(** ** Creating and deleting *)

Lemma filter_app_fresh msgs (m : Message) :
  Forall (fun x => id x <> id m) msgs ->
  filter (fun x => negb (str_eqb (id x) (id m))) (msgs ++ [m]) = msgs.
Proof.
  intros H. rewrite filter_app. cbn [filter].
  rewrite (proj2 (str_eqb_eq (id m) (id m)) eq_refl). cbn [negb].
  rewrite app_nil_r. apply filter_keeps_all.
  eapply Forall_impl; [|exact H]. intros x Hx. cbv beta in *.
  apply negb_true_iff. now apply str_eqb_neq.
Qed.

(** The id the create route makes while the clock shows a time from 0 to
    below 2^53 is a run of digits. *)
Lemma clock_id t :
  0 <= t < 2 ^ 53 ->
  Number_toString (Num t) = decimal t
  /\ decimal t <> [] /\ forallb is_digit (decimal t) = true.
Proof.
  intros Ht. unfold Number_toString.
  rewrite (proj2 (Z.ltb_lt (Z.abs t) (2 ^ 53))) by lia.
  split; [reflexivity|]. apply decimal_nonnegative. lia.
Qed.

(** Creating a message and then deleting it by the id the create route
    returned gives back the collection as it was, when no stored message had
    that id already: the delete answers 200 with [deletedCount: 1].  The clock
    shows a time from 0 to below 2^53, as it does for every date. *)
Theorem create_then_delete_restores :
  forall (cfg : Config) (post_req delete_req : Request) (w : World) (s : jsstring)
         (msgs : list Message) (m : Message),
  method post_req = POST -> path post_req = [u "messages"] ->
  get (req_body post_req) (u "text") = Ok (VStr s) -> trim s <> [] ->
  stored w = collection_value msgs -> writable w = true ->
  0 <= now w -> now (snd (app cfg post_req w)) < 2 ^ 53 ->
  fst (app cfg post_req w) = json 201 (message_value m) ->
  Forall (fun x => id x <> id m) msgs ->
  method delete_req = DELETE -> path delete_req = [u "messages"; id m] ->
  stored (snd (app cfg post_req w)) = collection_value (msgs ++ [m])
  /\ fst (app cfg delete_req (snd (app cfg post_req w)))
     = json 200 (obj [("message", str "Message deleted successfully");
                      ("deletedCount", num 1)])
  /\ stored (snd (app cfg delete_req (snd (app cfg post_req w))))
     = collection_value msgs.
Proof.
  intros cfg post_req delete_req w s msgs m Hm Hp Hget Htrim Hst Hw Hlo Hhi Hres Hfresh
         Hdm Hdp.
  destruct (post_messages_app cfg post_req w s msgs Hm Hp Hget Htrim Hst)
    as (w1 & ts & Hl & Hts & Happ).
  cbv zeta in Happ. rewrite Hw in Happ. rewrite Happ in *. cbn [fst snd] in *.
  apply (f_equal body) in Hres. unfold json in Hres. cbn [body] in Hres.
  apply message_value_inj in Hres. subst m.
  set (m := {| id := _; text := _; timestamp := _ |}) in *.
  assert (Hclock : 0 <= now w1 < 2 ^ 53).
  { pose proof (later_now _ _ Hl). pose proof (now_advance w1).
    pose proof (now_advance (advance w1)).
    pose proof (now_advance (set_file (collection_text (msgs ++ [m]))
                               (advance (advance w1)))).
    change (now (set_file (collection_text (msgs ++ [m])) (advance (advance w1))))
      with (now (advance (advance w1))) in *.
    lia. }
  destruct (clock_id (now w1) Hclock) as (Hid & Hne & Hdig).
  change (Number_toString (Num (now w1))) with (id m) in Hid.
  rewrite <- Hid in Hne, Hdig.
  assert (Hmatch : match_path [Lit "messages"; Param] (path delete_req) [] = Some (id m)).
  { rewrite Hdp. apply param_plain; [exact Hne | now apply digits_no_slash]. }
  pose proof (digits_decode (id m) Hdig) as Hdec.
  assert (Hst1 : stored (advance (set_file (collection_text (msgs ++ [m]))
                                    (advance (advance w1))))
                 = collection_value (msgs ++ [m])).
  { rewrite (stored_later _ _ (later_advance _)). apply stored_set_file. }
  split; [exact Hst1|].
  destruct (delete_message_app cfg delete_req _ (msgs ++ [m]) (id m) (id m)
              Hdm Hmatch Hdec Hst1)
    as (w2 & Hl2 & Hd).
  cbv zeta in Hd. rewrite (filter_app_fresh msgs m Hfresh) in Hd.
  assert (Hlen : Nat.eqb (List.length msgs) (List.length (msgs ++ [m])) = false).
  { apply Nat.eqb_neq. rewrite length_app. cbn [List.length]. lia. }
  rewrite Hlen in Hd.
  change (writable (advance (set_file (collection_text (msgs ++ [m]))
                               (advance (advance w1)))))
    with (writable w1) in Hd.
  rewrite (later_writable _ _ Hl), Hw in Hd.
  rewrite Hd. cbn [fst snd]. split; [reflexivity|].
  rewrite (stored_later _ _ (later_advance _)). apply stored_set_file.
Qed.

(** ** The timer *)

Lemma sweep_eq t w msgs :
  stored w = collection_value msgs ->
  exists w1, later w w1 /\
  let cutoffTime := TimeClip (num_sub (Num (now w1)) (intervalMs t)) in
  let kept := filter (fun m => num_ge (Date_parse (timestamp m)) cutoffTime) msgs in
  sweep t w =
  match msgs with
  | [] => (Ok tt, w1)
  | _ :: _ =>
      if writable w then
        (Ok tt,
         if Nat.ltb 0 (List.length msgs - List.length kept)
         then advance (set_file (collection_text kept) (advance w1))
         else set_file (collection_text kept) (advance w1))
      else (Ok tt, advance (advance (advance w1)))
  end.
Proof.
  intros Hst.
  destruct (readMessages_stored w) as (w1 & Hr & Hl).
  exists w1. split; [exact Hl|]. cbv zeta.
  unfold sweep. rewrite (bind_ok _ _ _ _ _ Hr), Hst. unfold collection_value.
  cbn [length_is_positive]. rewrite bind_lift, length_map.
  destruct msgs as [|m0 msgs0]; [reflexivity|].
  set (msgs := m0 :: msgs0).
  change (Nat.ltb 0 (List.length msgs)) with true. cbv iota.
  rewrite bind_Date_now.
  set (cutoffTime := TimeClip (num_sub (Num (now w1)) (intervalMs t))).
  rewrite keep_recent_messages, bind_lift.
  set (kept := filter (fun m => num_ge (Date_parse (timestamp m)) cutoffTime) msgs).
  destruct (writeMessages_array (map message_value kept) (advance w1))
    as (txt & Ht & Hwm).
  change (VArr (map message_value kept)) with (collection_value kept) in Ht.
  rewrite serialize_collection in Ht. injection Ht as <-.
  assert (Hwr : writable (advance w1) = writable w).
  { apply later_writable. now apply later_advance_r. }
  rewrite Hwr in Hwm. rewrite !length_map.
  destruct (writable w); rewrite (bind_ok _ _ _ _ _ Hwm); [|reflexivity].
  destruct (Nat.ltb 0 (List.length msgs - List.length kept)); reflexivity.
Qed.

Lemma sweep_keeps_recent_aux t w msgs :
  stored w = collection_value msgs -> msgs <> [] -> writable w = true ->
  exists t0, now w <= t0 <= now (snd (sweep t w)) /\
    stored (snd (sweep t w))
    = collection_value
        (filter (fun m => num_ge (Date_parse (timestamp m))
                            (TimeClip (num_sub (Num t0) (intervalMs t)))) msgs).
Proof.
  intros Hst Hne Hw.
  destruct (sweep_eq t w msgs Hst) as (w1 & Hl & Heq). cbv zeta in Heq.
  exists (now w1).
  rewrite Heq, Hw. destruct msgs as [|m msgs]; [contradiction|]. cbn [snd].
  pose proof (later_now _ _ Hl). pose proof (now_advance w1).
  destruct (Nat.ltb 0 _).
  - split.
    + match goal with |- _ <= _ <= now (advance ?x) => pose proof (now_advance x) end.
      cbn [now set_file] in *. lia.
    + rewrite (stored_later _ _ (later_advance _)). apply stored_set_file.
  - split; [cbn [now set_file]; lia | apply stored_set_file].
Qed.


(** Setting the timer and letting it fire: after POST /messages/auto-delete
    with hours that pass the validation the timer holds those hours and the
    interval [hours * 60 * 60 * 1000], which is 3600000 times the hours for a
    whole number of them, the data file is as before, and a firing of that
    timer on a stored collection that is not empty, with a writable file,
    keeps exactly the messages whose time stamp is a date at or after a
    reading of the clock taken during the firing minus that interval. *)
Theorem reconfigured_timer_sweeps_by_the_new_hours :
  forall (cfg : Config) (req : Request) (w : World) (hours : JsVal),
  method req = POST -> path req = [u "messages"; u "auto-delete"] ->
  get (req_body req) (u "hours") = Ok hours -> ~ rejected_hours hours ->
  exists t,
    autoDeleteTimer (snd (app cfg req w)) = Some t
    /\ timer_hours t = hours /\ intervalMs t = hours_ms hours
    /\ (forall z, hours = VNum (Num z) -> z * 3600000 < 2 ^ 53 ->
        intervalMs t = Num (z * 3600000))
    /\ file (snd (app cfg req w)) = file w
    /\ forall (w2 : World) (msgs : list Message),
       stored w2 = collection_value msgs -> msgs <> [] -> writable w2 = true ->
       exists t0, now w2 <= t0 <= now (snd (sweep t w2)) /\
         stored (snd (sweep t w2))
         = collection_value
             (filter (fun m => num_ge (Date_parse (timestamp m))
                                 (TimeClip (num_sub (Num t0) (hours_ms hours)))) msgs).
Proof.
  intros cfg req w hours Hm Hp Hget Hok.
  rewrite (post_auto_delete_app cfg req w hours Hm Hp Hget).
  rewrite (accepted_hours hours Hok). cbn [snd].
  exists {| timer_hours := hours; intervalMs := hours_ms hours |}.
  split; [reflexivity|]. split; [reflexivity|]. split; [reflexivity|].
  split.
  { intros z -> Hz. cbn [intervalMs]. apply hours_ms_number.
    assert (0 < z); [|lia].
    destruct (Z.lt_ge_cases 0 z) as [H|H]; [exact H|].
    exfalso. apply Hok. apply rejected_integer. lia. }
  split; [reflexivity|].
  intros w2 msgs Hst Hne Hw.
  apply (sweep_keeps_recent_aux {| timer_hours := hours; intervalMs := hours_ms hours |}
           w2 msgs Hst Hne Hw).
Qed.

(** ** What the store holds after any requests *)

Lemma post_auto_delete_file cfg req w :
  find_route (routes cfg) req = Some post_auto_delete ->
  file (snd (app cfg req w)) = file w.
Proof.
  intros Hr.
  destruct (get (req_body req) (u "hours")) as [hours|e] eqn:Hget.
  - rewrite (post_auto_delete_at cfg req w hours Hr Hget).
    destruct (invalid_hours hours); reflexivity.
  - rewrite (app_route _ _ _ _ Hr).
    unfold post_auto_delete. rewrite Hget. reflexivity.
Qed.

Lemma trimmed_trim s : trim s <> [] -> trimmed (trim s).
Proof. intros H. split; [exact H | apply trim_idempotent]. Qed.

(** One request on a stored collection: the messages afterwards are messages
    from before or the one the request created. *)
Lemma request_keeps_collection cfg req w msgs :
  stored w = collection_value msgs ->
  exists msgs',
    stored (snd (app cfg req w)) = collection_value msgs'
    /\ forall m, In m msgs' ->
       In m msgs
       \/ (trimmed (text m) /\ fst (app cfg req w) = json 201 (message_value m)).
Proof.
  intros Hst.
  assert (Hsame : forall (Q : Message -> Prop) w', file w' = file w ->
                  exists msgs', stored w' = collection_value msgs'
                                /\ forall m, In m msgs' -> In m msgs \/ Q m).
  { intros Q w' Hf. exists msgs. split; [|now left].
    rewrite <- Hst. now apply stored_file. }
  pose proof (find_route_reached cfg req) as Hc.
  destruct (find_route (routes cfg) req) as [h|] eqn:Hr;
    [|apply Hsame, later_file, reading_later; now right; right; right].
  inversion Hc as [Hm Hp|Hm Hp|val messageId Hm Hp Hdec|Hm Hp|Hm Hp|Hm Hp|Hm Hp|Hm Hp
                   |val Hp Hdec|];
    subst; try (apply Hsame, later_file, reading_later; now left).
  - (* POST /messages *)
    destruct (get (req_body req) (u "text")) as [text|e] eqn:Hget.
    2:{ apply Hsame. now rewrite (post_messages_get_throws cfg req w e Hr Hget). }
    destruct (truthy text) eqn:Ht.
    2:{ apply Hsame.
        now rewrite (post_messages_refused cfg req w text Hr Hget (or_introl Ht)). }
    destruct text as [| | | |s| |];
      try (apply Hsame;
           rewrite (post_messages_not_a_string cfg req w _ Hr Hget Ht);
           [reflexivity | discriminate]).
    destruct (list_eq_dec N.eq_dec (trim s) []) as [Hs|Hs].
    { apply Hsame.
      rewrite (post_messages_refused cfg req w (VStr s) Hr Hget); [reflexivity|].
      right. now exists s. }
    destruct (post_messages_at cfg req w s msgs Hr Hget Hs Hst)
      as (w1 & ts & Hl & _ & Happ).
    cbv zeta in Happ. rewrite Happ. destruct (writable w).
    + cbn [fst snd].
      set (m := {| id := _; text := trim s; timestamp := ts |}).
      exists (msgs ++ [m]). split.
      * rewrite (stored_later _ _ (later_advance _)). apply stored_set_file.
      * intros m' Hin. apply in_app_or in Hin. destruct Hin as [Hin|[<-|[]]].
        -- now left.
        -- right. split; [now apply trimmed_trim | reflexivity].
    + cbn [snd]. apply Hsame, later_file. now repeat apply later_advance_r.
  - (* DELETE /messages/:id *)
    destruct (delete_message_at cfg req w msgs messageId Hr Hst)
      as (w1 & Hl & Happ).
    cbv zeta in Happ. rewrite Happ.
    set (kept := filter (fun m => negb (str_eqb (id m) messageId)) msgs).
    destruct (Nat.eqb (List.length kept) (List.length msgs));
      [cbn [snd]; now apply Hsame, later_file|].
    destruct (writable w); cbn [snd].
    + exists kept. split.
      * rewrite (stored_later _ _ (later_advance _)). apply stored_set_file.
      * intros m Hin. left. unfold kept in Hin. now apply filter_In in Hin.
    + apply Hsame, later_file. now repeat apply later_advance_r.
  - (* DELETE /messages *)
    rewrite (delete_all_at cfg req w Hr). destruct (writable w); cbn [snd].
    + exists []. split; [|intros m []].
      rewrite (stored_later _ _ (later_advance _)).
      apply (stored_set_file [] (advance w)).
    + apply Hsame. reflexivity.
  - (* POST /messages/auto-delete *)
    apply Hsame. now apply post_auto_delete_file.
  - (* a parameter that does not decode *)
    apply Hsame. rewrite (app_param_error cfg req w val Hr). reflexivity.
Qed.

(** The stored collection after any sequence of requests.  From a data file
    that holds a collection of messages whose texts are not empty and have
    nothing to trim, every request leaves such a collection: each message in
    it was there before or is the one the request created, with the trimmed
    text; and so does every sequence of requests. *)
Theorem stored_collection_stays_well_formed :
  forall (cfg : Config) (w : World) (msgs : list Message),
  stored w = collection_value msgs ->
  Forall (fun m => trimmed (text m)) msgs ->
  (forall req, exists msgs',
     stored (snd (app cfg req w)) = collection_value msgs'
     /\ Forall (fun m => trimmed (text m)) msgs'
     /\ forall m, In m msgs' ->
        In m msgs \/ fst (app cfg req w) = json 201 (message_value m))
  /\ (forall reqs, exists msgs',
        stored (run cfg reqs w) = collection_value msgs'
        /\ Forall (fun m => trimmed (text m)) msgs').
Proof.
  intros cfg w msgs Hst Hall.
  assert (Hstep : forall w0 msgs0 req,
            stored w0 = collection_value msgs0 ->
            Forall (fun m => trimmed (text m)) msgs0 ->
            exists msgs',
              stored (snd (app cfg req w0)) = collection_value msgs'
              /\ Forall (fun m => trimmed (text m)) msgs'
              /\ forall m, In m msgs' ->
                 In m msgs0 \/ fst (app cfg req w0) = json 201 (message_value m)).
  { intros w0 msgs0 req Hst0 Hall0.
    destruct (request_keeps_collection cfg req w0 msgs0 Hst0) as (msgs' & Hst' & Hin).
    exists msgs'. split; [exact Hst'|]. split.
    - apply Forall_forall. intros m Hm. destruct (Hin m Hm) as [H|(H & _)]; [|exact H].
      now apply (proj1 (Forall_forall _ _) Hall0).
    - intros m Hm. destruct (Hin m Hm) as [H|(_ & H)]; auto. }
  split; [intros req; now apply Hstep|].
  intros reqs. revert w msgs Hst Hall.
  induction reqs as [|req reqs IH]; intros w msgs Hst Hall.
  - exists msgs. now split.
  - destruct (Hstep w msgs req Hst Hall) as (msgs' & Hst' & Hall' & _).
    apply (IH _ msgs' Hst' Hall').
Qed.

End WithEngine.
End RouteFacts.

(** ** What the routes leave as it is *)

Module FrameFacts.
Import Js Json JsDate Server Layout Middleware.
Import JsonFacts StoreFacts DateFacts ServerFacts MoreFacts RouteFacts.
Local Open Scope string_scope.
Local Open Scope list_scope.
Local Open Scope Z_scope.

Section WithEngine.
Context {E : Engine}.

(** ** Computations that keep a relation between the worlds *)

Section Keeps.
Variable R : World -> World -> Prop.
Hypothesis F : Frame R.

Lemma keeps_ret {A} (a : A) : keeps R (ret a).
Proof. intros w. apply (frame_refl R F). Qed.

Lemma keeps_throw {A} e : keeps R (@throw A e).
Proof. intros w. apply (frame_refl R F). Qed.

Lemma keeps_lift {A} (x : Exc A) : keeps R (lift x).
Proof. intros w. apply (frame_refl R F). Qed.

Lemma keeps_bind {A B} (m : M A) (k : A -> M B) :
  keeps R m -> (forall a, keeps R (k a)) -> keeps R (bind m k).
Proof.
  intros Hm Hk w. unfold bind. specialize (Hm w).
  destruct (m w) as [[a|e] w1]; cbn [snd] in *; [|exact Hm].
  eapply (frame_trans R F); [exact Hm | apply Hk].
Qed.

Lemma keeps_try_catch {A} (m : M A) (h : Error -> M A) :
  keeps R m -> (forall e, keeps R (h e)) -> keeps R (try_catch m h).
Proof.
  intros Hm Hh w. unfold try_catch. specialize (Hm w).
  destruct (m w) as [[a|e] w1]; cbn [snd] in *; [exact Hm|].
  eapply (frame_trans R F); [exact Hm | apply Hh].
Qed.

Lemma keeps_Date_now : keeps R Date_now.
Proof. intros w. apply (frame_advance R F). Qed.

Lemma keeps_Date_new : keeps R Date_new.
Proof. apply keeps_bind; [apply keeps_Date_now | intros; apply keeps_ret]. Qed.

Lemma keeps_log : keeps R log.
Proof. apply keeps_bind; [apply keeps_Date_new | intros; apply keeps_ret]. Qed.

Lemma keeps_readFileSync : keeps R readFileSync.
Proof. intros w. unfold readFileSync. destruct (file w); apply (frame_refl R F). Qed.

Lemma keeps_readMessages : keeps R readMessages.
Proof.
  apply keeps_try_catch.
  - apply keeps_bind; [apply keeps_readFileSync | intros; apply keeps_lift].
  - intros e. apply keeps_bind; [apply keeps_log | intros; apply keeps_ret].
Qed.

(** The application keeps what the handler it runs keeps. *)
Lemma keeps_app cfg req :
  keeps R (match find_route (routes cfg) req with
           | Some h => h req
           | None => not_found req
           end) ->
  forall w, R w (snd (app cfg req w)).
Proof.
  intros Hh w. unfold app.
  set (handler := match find_route (routes cfg) req with
                  | Some h => h req
                  | None => not_found req
                  end) in *.
  assert (Hrun : keeps R (log ;;; handler))
    by (apply keeps_bind; [apply keeps_log | intros; exact Hh]).
  specialize (Hrun w).
  destruct ((log ;;; handler) w) as [[res|err] w1]; cbn [snd] in *; [exact Hrun|].
  assert (He : keeps R (error_handler cfg err req))
    by (apply keeps_bind; [apply keeps_log | intros; apply keeps_ret]).
  specialize (He w1).
  destruct (error_handler cfg err req w1) as [[res|e] w2]; cbn [snd] in *;
    eapply (frame_trans R F); eassumption.
Qed.

End Keeps.

(** Steps of a proof that a handler keeps a relation of the frame [F]. *)
Ltac keeps_step F :=
  first
    [ apply (keeps_ret _ F)
    | apply (keeps_throw _ F)
    | apply (keeps_lift _ F)
    | apply (keeps_log _ F)
    | apply (keeps_Date_now _ F)
    | apply (keeps_Date_new _ F)
    | apply (keeps_readMessages _ F)
    | assumption
    | apply (keeps_bind _ F); [|intros ?]
    | match goal with
      | |- keeps _ (if ?b then _ else _) => destruct b
      | |- keeps _ (match ?x with _ => _ end) => destruct x
      | |- keeps _ (let _ := _ in _) => cbv zeta
      end ].

Lemma file_only_frame : Frame file_only.
Proof.
  split.
  - intros w. unfold file_only. repeat split; lia.
  - intros w1 w2 w3 (A1 & B1 & C1) (A2 & B2 & C2). unfold file_only.
    repeat split; try congruence. lia.
  - intros w. unfold file_only. repeat split. apply now_advance.
Qed.

Lemma timer_only_frame : Frame timer_only.
Proof.
  split.
  - intros w. unfold timer_only. repeat split; lia.
  - intros w1 w2 w3 (A1 & B1 & C1) (A2 & B2 & C2). unfold timer_only.
    repeat split; try congruence. lia.
  - intros w. unfold timer_only. repeat split. apply now_advance.
Qed.

Lemma both_frame : Frame (fun w w' => file_only w w' /\ timer_only w w').
Proof.
  split.
  - intros w. split; [apply file_only_frame | apply timer_only_frame].
  - intros w1 w2 w3 (A1 & B1) (A2 & B2).
    split; [eapply (frame_trans _ file_only_frame) | eapply (frame_trans _ timer_only_frame)];
      eassumption.
  - intros w. split; [apply file_only_frame | apply timer_only_frame].
Qed.

Lemma keeps_writeMessages messages : keeps file_only (writeMessages messages).
Proof.
  unfold writeMessages. apply (keeps_try_catch _ file_only_frame).
  - apply (keeps_bind _ file_only_frame); [|intros; apply (keeps_ret _ file_only_frame)].
    intros w. unfold writeFileSync.
    destruct (stringify messages); [|apply file_only_frame].
    destruct (writable w); [|apply file_only_frame].
    cbn [snd]. unfold file_only. cbn. repeat split. lia.
  - intros e. repeat keeps_step file_only_frame.
Qed.

Lemma keeps_post_messages req : keeps file_only (post_messages req).
Proof.
  pose proof keeps_writeMessages as Hw.
  unfold post_messages. repeat keeps_step file_only_frame; apply Hw.
Qed.

Lemma keeps_delete_message messageId req :
  keeps file_only (delete_message messageId req).
Proof.
  pose proof keeps_writeMessages as Hw.
  unfold delete_message. repeat keeps_step file_only_frame; apply Hw.
Qed.

Lemma keeps_delete_all req : keeps file_only (delete_all_messages req).
Proof.
  pose proof keeps_writeMessages as Hw.
  unfold delete_all_messages. repeat keeps_step file_only_frame; apply Hw.
Qed.

Lemma keeps_post_auto_delete req : keeps timer_only (post_auto_delete req).
Proof.
  assert (Hs : forall hours, keeps timer_only (startAutoDeleteTimer hours)).
  { intros hours. unfold startAutoDeleteTimer. apply (keeps_bind _ timer_only_frame).
    - intros w. cbn [snd]. unfold timer_only. cbn. repeat split. lia.
    - intros. apply (keeps_log _ timer_only_frame). }
  unfold post_auto_delete. repeat keeps_step timer_only_frame; apply Hs.
Qed.

Lemma keeps_readers cfg req (R : World -> World -> Prop) (F : Frame R) :
  keeps R (get_messages req) /\ keeps R (get_auto_delete cfg req)
  /\ keeps R (get_health cfg req) /\ keeps R (get_info cfg req)
  /\ keeps R (not_found req).
Proof.
  repeat split.
  - unfold get_messages. repeat keeps_step F.
  - unfold get_auto_delete. repeat keeps_step F.
  - unfold get_health. repeat keeps_step F.
  - unfold get_info. repeat keeps_step F.
  - unfold not_found. repeat keeps_step F.
Qed.

(** What each route may change.  Only a request that reaches the create route
    or one of the two delete routes can change the data file, and only a
    request that reaches the route that sets the timer can change the timer.
    A route is reached by its method and by a path that its pattern matches,
    letters compared without their case and a last slash allowed; the
    parameter of the delete route is one that decodes. *)
Theorem each_route_changes_only_its_own_state :
  forall (cfg : Config) (req : Request) (w : World),
  (file (snd (app cfg req w)) <> file w ->
   (method req = POST /\ addressed [Lit "messages"] req)
   \/ (method req = DELETE /\ addressed [Lit "messages"] req)
   \/ (method req = DELETE
       /\ exists val messageId,
           match_path [Lit "messages"; Param] (path req) [] = Some val
           /\ decodeURIComponent val = Some messageId))
  /\ (autoDeleteTimer (snd (app cfg req w)) <> autoDeleteTimer w ->
      method req = POST /\ addressed [Lit "messages"; Lit "auto-delete"] req).
Proof.
  intros cfg req w.
  pose proof (find_route_reached cfg req) as Hc.
  destruct (keeps_readers cfg req _ both_frame) as (K1 & K2 & K3 & K4 & K5).
  assert (Hboth : forall h,
            find_route (routes cfg) req = h ->
            keeps (fun w w' => file_only w w' /\ timer_only w w')
              (match h with Some h => h req | None => not_found req end) ->
            file (snd (app cfg req w)) = file w
            /\ autoDeleteTimer (snd (app cfg req w)) = autoDeleteTimer w).
  { intros h Hh Hk. rewrite <- Hh in Hk.
    destruct (keeps_app _ both_frame cfg req Hk w) as ((A & B & C) & (D & _)).
    auto. }
  assert (Hfile : forall h,
            find_route (routes cfg) req = Some h -> keeps file_only (h req) ->
            autoDeleteTimer (snd (app cfg req w)) = autoDeleteTimer w).
  { intros h Hh Hk.
    assert (Hk' : keeps file_only (match find_route (routes cfg) req with
                                   | Some h => h req
                                   | None => not_found req
                                   end)) by now rewrite Hh.
    destruct (keeps_app _ file_only_frame cfg req Hk' w) as (A & B & C). auto. }
  assert (Hsame : forall a b : option jsstring, a = b -> forall P : Prop, a <> b -> P)
    by (intros a b Hab P Hn; now destruct Hn).
  assert (Hsame' : forall a b : option Timer, a = b -> forall P : Prop, a <> b -> P)
    by (intros a b Hab P Hn; now destruct Hn).
  destruct (find_route (routes cfg) req) as [h|] eqn:Hr.
  2:{ destruct (Hboth None eq_refl K5) as (A & B).
      split; [now apply Hsame | now apply Hsame']. }
  inversion Hc as [Hm Hp|Hm Hp|val messageId Hm Hp Hdec|Hm Hp|Hm Hp|Hm Hp|Hm Hp|Hm Hp
                   |val Hp Hdec|];
    subst.
  - destruct (Hboth _ eq_refl K1) as (A & B).
    split; [now apply Hsame | now apply Hsame'].
  - pose proof (Hfile _ eq_refl (keeps_post_messages req)) as B.
    split; [auto | now apply Hsame'].
  - pose proof (Hfile _ eq_refl (keeps_delete_message messageId req)) as B.
    split; [eauto 8 | now apply Hsame'].
  - pose proof (Hfile _ eq_refl (keeps_delete_all req)) as B.
    split; [auto | now apply Hsame'].
  - assert (Hk' : keeps timer_only (match find_route (routes cfg) req with
                                    | Some h => h req
                                    | None => not_found req
                                    end)) by (rewrite Hr; apply keeps_post_auto_delete).
    destruct (keeps_app _ timer_only_frame cfg req Hk' w) as (A & B & C).
    split; [now apply Hsame | auto].
  - destruct (Hboth _ eq_refl K2) as (A & B).
    split; [now apply Hsame | now apply Hsame'].
  - destruct (Hboth _ eq_refl K3) as (A & B).
    split; [now apply Hsame | now apply Hsame'].
  - destruct (Hboth _ eq_refl K4) as (A & B).
    split; [now apply Hsame | now apply Hsame'].
  - assert (K6 : keeps (fun w w' => file_only w w' /\ timer_only w w')
                   (param_error val req)) by apply (keeps_throw _ both_frame).
    destruct (Hboth _ eq_refl K6) as (A & B).
    split; [now apply Hsame | now apply Hsame'].
Qed.

End WithEngine.
End FrameFacts.

(** ** The CORS middleware and its configuration *)

Module MiddlewareFacts.
Import Js Json JsDate Server Layout Middleware.
Import JsonFacts StoreFacts DateFacts ServerFacts MoreFacts TrimFacts RouteFacts.
Local Open Scope string_scope.
Local Open Scope list_scope.
Local Open Scope Z_scope.

Lemma includes_In l x : includes l x = true <-> In x l.
Proof.
  unfold includes. rewrite existsb_exists. split.
  - intros (y & Hy & H). apply str_eqb_eq in H. now subst.
  - intros H. exists x. split; [exact H | now apply str_eqb_eq].
Qed.

Lemma includes_not_In l x : includes l x = false <-> ~ In x l.
Proof.
  rewrite <- includes_In. destruct (includes l x); split; congruence.
Qed.

Lemma split_comma_not_nil s : split_comma s <> [].
Proof.
  destruct s as [|c s]; [discriminate|]. cbn [split_comma].
  destruct (char_eqb c (ch ",")); [discriminate|].
  destruct (split_comma s); discriminate.
Qed.

Lemma join_split_comma s : join (u ",") (split_comma s) = s.
Proof.
  induction s as [|c s IH]; [reflexivity|].
  cbn [split_comma]. pose proof (split_comma_not_nil s) as Hne.
  destruct (split_comma s) as [|p ps] eqn:Hs; [contradiction|].
  destruct (char_eqb c (ch ",")) eqn:Hc.
  - apply N.eqb_eq in Hc. subst c.
    change (join (u ",") ([] :: p :: ps)) with (ch "," :: join (u ",") (p :: ps)).
    now rewrite IH.
  - rewrite <- IH. destruct ps; reflexivity.
Qed.

Lemma split_comma_no_comma s : Forall (fun o => ~ In (ch ",") o) (split_comma s).
Proof.
  induction s as [|c s IH]; [constructor; [intros []|constructor]|].
  cbn [split_comma]. destruct (char_eqb c (ch ",")) eqn:Hc.
  - constructor; [intros []|exact IH].
  - destruct (split_comma s) as [|p ps]; [constructor; [|constructor]|].
    + intros [H|[]]. subst c. discriminate.
    + inversion IH as [|? ? Hp Hps]; subst. constructor; [|exact Hps].
      intros [H|H]; [subst c; discriminate | now apply Hp].
Qed.

Section WithEngine.
Context {E : Engine}.

(** The CORS check.  An origin is refused only outside development mode, and
    only when the request names one that is not in the list, which does not
    hold [*] either.  A refused request never reaches a route: it is answered
    500 by the error handler, with the message [Something went wrong] since
    the mode is not development, and changes nothing but the clock.  With no
    [NODE_ENV] in the environment no origin is refused. *)
Theorem cors_refusal :
  forall (cfg : Config) (origin : option jsstring) (req : Request) (w : World),
  (cors_origin cfg origin = false <->
   exists o, origin = Some o /\ o <> []
             /\ NODE_ENV cfg <> u "development"
             /\ ~ In (u "*") (CORS_ORIGINS cfg) /\ ~ In o (CORS_ORIGINS cfg))
  /\ (cors_origin cfg origin = false ->
      fst (serve cfg origin req w)
      = json 500 (obj [("error", str "Internal server error");
                       ("message", str "Something went wrong")])
      /\ later w (snd (serve cfg origin req w)))
  /\ (cors_origin cfg origin = true -> serve cfg origin req w = app cfg req w)
  /\ (forall env default_data_file,
        env (u "NODE_ENV") = None ->
        cors_origin (load_config env default_data_file) origin = true).
Proof.
  intros cfg origin req w.
  assert (Hiff : cors_origin cfg origin = false <->
                 exists o, origin = Some o /\ o <> []
                           /\ NODE_ENV cfg <> u "development"
                           /\ ~ In (u "*") (CORS_ORIGINS cfg)
                           /\ ~ In o (CORS_ORIGINS cfg)).
  { unfold cors_origin. split.
    - destruct origin as [[|c o]|]; try discriminate.
      destruct (str_eqb (NODE_ENV cfg) (u "development")) eqn:Hdev; [discriminate|].
      intros H. apply orb_false_iff in H. destruct H as (H1 & H2).
      exists (c :: o). repeat split.
      + discriminate.
      + now apply str_eqb_neq.
      + now apply includes_not_In.
      + now apply includes_not_In.
    - intros (o & -> & Ho & Hdev & H1 & H2).
      destruct o as [|c o]; [contradiction|].
      rewrite (proj2 (str_eqb_neq _ _) Hdev).
      apply orb_false_iff. split; now apply includes_not_In. }
  split; [exact Hiff|]. split; [|split].
  - intros H. unfold serve. rewrite H.
    apply Hiff in H. destruct H as (o & _ & _ & Hdev & _).
    unfold cors_error. rewrite bind_log. cbn [ret fst snd].
    rewrite (proj2 (str_eqb_neq _ _) Hdev).
    split; [reflexivity | apply later_advance].
  - intros H. unfold serve. now rewrite H.
  - intros env d Henv. unfold cors_origin.
    destruct origin as [[|c o]|]; try reflexivity.
    cbn [load_config NODE_ENV]. rewrite Henv. reflexivity.
Qed.

(** The list of allowed origins is the value of [CORS_ORIGINS] cut at its
    commas, the pieces taken as they are: joined by commas they give the
    value back, and none holds a comma.  When the variable is not set, or is
    empty, the list is the one origin [http://localhost:3000]. *)
Theorem cors_origins_are_the_comma_separated_pieces :
  forall (env : jsstring -> option jsstring) (default_data_file : jsstring),
  let origins := CORS_ORIGINS (load_config env default_data_file) in
  (forall s, env (u "CORS_ORIGINS") = Some s -> s <> [] ->
     join (u ",") origins = s
     /\ origins <> []
     /\ Forall (fun o => ~ In (ch ",") o) origins)
  /\ (env (u "CORS_ORIGINS") = None \/ env (u "CORS_ORIGINS") = Some [] ->
      origins = [u "http://localhost:3000"]).
Proof.
  intros env d. cbv zeta. cbn [load_config CORS_ORIGINS]. split.
  - intros s Hs Hne. rewrite Hs. destruct s as [|c s]; [contradiction|].
    split; [apply join_split_comma|].
    split; [apply split_comma_not_nil | apply split_comma_no_comma].
  - intros [H|H]; rewrite H; reflexivity.
Qed.

End WithEngine.
End MiddlewareFacts.

(** ** The client *)

Module BrowserFacts.
Import Js Json JsDate Server Layout Client Decimals Middleware Browser.
Import ClientFacts JsonFacts StoreFacts DateFacts ServerFacts MoreFacts.
Import RoundFacts TrimFacts RouteFacts NumberFacts.
Local Open Scope string_scope.
Local Open Scope list_scope.
Local Open Scope Z_scope.

Section WithEngine.
Context {E : Engine}.

(** ** Relative times *)

Lemma Number_toString_small z :
  Z.abs z < 2 ^ 53 -> Number_toString (Num z) = decimal z.
Proof. intros H. unfold Number_toString. now rewrite (proj2 (Z.ltb_lt _ _) H). Qed.

Lemma div_ltb b d k : 0 < b -> (d / b <? k) = (d <? b * k).
Proof.
  intros Hb. destruct (Z.ltb_spec (d / b) k) as [H|H], (Z.ltb_spec d (b * k)) as [H'|H'];
    try reflexivity; exfalso.
  - apply (Z.div_le_lower_bound _ _ _ Hb) in H'. lia.
  - apply (Z.div_lt_upper_bound _ _ _ Hb) in H'. lia.
Qed.

Lemma div_bounds b d lo hi : 0 < b -> b * lo <= d < b * hi -> lo <= d / b < hi.
Proof.
  intros Hb (H1 & H2). split.
  - now apply Z.div_le_lower_bound.
  - now apply Z.div_lt_upper_bound.
Qed.

Lemma small_number q : Z.abs q < 100 -> Z.abs q < 2 ^ 53.
Proof.
  intros H. apply Z.lt_trans with 100; [exact H | vm_compute; reflexivity].
Qed.

Lemma one_ltb q : (1 <? q) = negb (q <? 2).
Proof. destruct (Z.ltb_spec 1 q), (Z.ltb_spec q 2); try reflexivity; lia. Qed.

Lemma two_53 : 2 ^ 53 = 9007199254740992.
Proof. reflexivity. Qed.

(** [Math.floor] keeps a number on its side of an integer. *)
Lemma Math_floor_ge x c :
  num_ge x (Num c) = true -> num_ge (Math_floor x) (Num c) = true.
Proof.
  destruct x as [|z|n k|s]; cbn [Math_floor]; try (intros H; exact H).
  cbn [num_ge fraction]. change (2 ^ 0) with 1. rewrite Z.mul_1_r.
  intros H. apply Z.leb_le in H. apply Z.leb_le.
  apply Z.div_le_lower_bound; [apply Z.pow_pos_nonneg; lia | lia].
Qed.

Lemma Math_floor_lt x c :
  num_lt x (Num c) = true -> num_lt (Math_floor x) (Num c) = true.
Proof.
  destruct x as [|z|n k|s]; cbn [Math_floor]; try (intros H; exact H).
  cbn [num_lt fraction]. change (2 ^ 0) with 1. rewrite Z.mul_1_r.
  intros H. apply Z.ltb_lt in H. apply Z.ltb_lt.
  apply Z.div_lt_upper_bound; [apply Z.pow_pos_nonneg; lia | lia].
Qed.

Lemma floor_div_small x b : Z.abs x < 2 ^ 53 -> floor_div (Num x) b = Num (x / b).
Proof. intros H. unfold floor_div. now rewrite (proj2 (Z.ltb_lt _ _) H). Qed.

(** A difference from 2^53 on is rounded: the quotient by a number of
    milliseconds up to an hour is still at least 2^31. *)
Lemma floor_div_large d b :
  2 ^ 53 <= d -> 0 < b -> b <= 2 ^ 22 ->
  num_ge (floor_div (round_Z d) b) (Num (2 ^ 31)) = true.
Proof.
  intros Hd H0 Hb.
  assert (H53 : 2 ^ 53 = 2 ^ 31 * 2 ^ 22) by reflexivity.
  assert (H31 : 0 < 2 ^ 31) by reflexivity.
  assert (Hr : num_ge (round_Z d) (Num (2 ^ 53)) = true).
  { unfold round_Z. rewrite (proj2 (Z.ltb_ge _ _)) by lia.
    apply (round_ratio_lower d 1 53); lia. }
  destruct (round_Z d) as [|v|n k|s]; cbn [num_ge fraction] in Hr; try discriminate.
  - apply Z.leb_le in Hr. unfold floor_div. rewrite (proj2 (Z.ltb_ge _ _)) by lia.
    apply Math_floor_ge. cbn [num_div].
    apply (round_ratio_lower v b 31); [lia | lia | nia].
  - change (2 ^ 0) with 1 in Hr. apply Z.leb_le in Hr.
    pose proof (Z.pow_pos_nonneg 2 (Z.pos k) ltac:(lia) ltac:(lia)) as Hk.
    unfold floor_div. apply Math_floor_ge. cbn [num_div].
    apply (round_ratio_lower (2 * n + 1) (b * 2 ^ Z.pos k) 31); [nia | lia |].
    rewrite Z.mul_1_r in Hr.
    apply Z.le_trans with (2 ^ 53 * 2 ^ Z.pos k); [|exact Hr].
    rewrite H53. nia.
  - destruct s; [discriminate|]. reflexivity.
Qed.

(** A difference down from -2^53 stays below 1. *)
Lemma floor_div_negative d b :
  d <= - 2 ^ 53 -> 0 < b ->
  num_lt (floor_div (round_Z d) b) (Num 1) = true.
Proof.
  intros Hd H0.
  assert (H53 : 0 < 2 ^ 53) by reflexivity.
  destruct (round_ratio_nonpos d 1 ltac:(lia) ltac:(lia)) as (Hp & Hl).
  unfold round_Z. rewrite (proj2 (Z.ltb_ge _ _)) by lia.
  destruct (round_ratio d 1) as [|v|n k|s]; cbn [num_lt fraction] in Hp, Hl;
    try discriminate.
  - apply Z.ltb_lt in Hl. unfold floor_div.
    destruct (Z.abs v <? 2 ^ 53).
    + cbn [num_lt]. apply Z.ltb_lt.
      assert (v / b <= 0); [|lia].
      apply Z.div_le_upper_bound; lia.
    + apply Math_floor_lt. cbn [num_div]. apply round_ratio_nonpos; lia.
  - change (2 ^ 0) with 1 in Hp. apply Z.ltb_ge in Hp.
    pose proof (Z.pow_pos_nonneg 2 (Z.pos k) ltac:(lia) ltac:(lia)) as Hk.
    unfold floor_div. apply Math_floor_lt. cbn [num_div].
    apply round_ratio_nonpos; nia.
  - destruct s; [reflexivity | discriminate].
Qed.

(** [formatTimestamp] on a time stamp that is a date, [d] milliseconds before
    the clock's reading: [Just now] below one minute, also for a time stamp in
    the future; the whole minutes up to 59; [1 hour ago], then the whole hours
    with the plural up to 23; the locale's date and time from one day on.  A
    time stamp that is no date is given to the locale's formatting. *)
Theorem formatTimestamp_ranges :
  forall (toLocaleString : number -> jsstring) (now : Z) (timestamp : JsVal),
  (forall t, Date_of_value timestamp = Num t ->
     let d := now - t in
     (d < 60000 -> formatTimestamp toLocaleString now timestamp = u "Just now")
     /\ (60000 <= d < 3600000 ->
         formatTimestamp toLocaleString now timestamp = decimal (d / 60000) ++ u " min ago"
         /\ 1 <= d / 60000 <= 59)
     /\ (3600000 <= d < 7200000 ->
         formatTimestamp toLocaleString now timestamp = u "1 hour ago")
     /\ (7200000 <= d < 86400000 ->
         formatTimestamp toLocaleString now timestamp
         = decimal (d / 3600000) ++ u " hours ago"
         /\ 2 <= d / 3600000 <= 23)
     /\ (86400000 <= d ->
         formatTimestamp toLocaleString now timestamp = toLocaleString (Num t)))
  /\ (Date_of_value timestamp = NaN ->
      formatTimestamp toLocaleString now timestamp = toLocaleString NaN).
Proof.
  intros toLocaleString now0 timestamp. split.
  2:{ intros H. unfold formatTimestamp. rewrite H. reflexivity. }
  intros t Ht d. unfold formatTimestamp. rewrite Ht.
  cbn [num_sub]. fold d.
  pose proof two_53 as H53.
  destruct (Z.lt_ge_cases (Z.abs d) (2 ^ 53)) as [Hsmall|Hbig].
  - rewrite (round_Z_small d Hsmall), !(floor_div_small d _ Hsmall).
    cbn [num_lt].
    rewrite one_ltb, !div_ltb by lia.
    change (60000 * 1) with 60000. change (60000 * 60) with 3600000.
    change (3600000 * 24) with 86400000. change (3600000 * 2) with 7200000.
    assert (Hlt : forall a b, a < b -> (a <? b) = true) by (intros; now apply Z.ltb_lt).
    assert (Hge : forall a b, b <= a -> (a <? b) = false) by (intros; now apply Z.ltb_ge).
    split; [|split; [|split; [|split]]].
    + intros H. now rewrite (Hlt _ _ H).
    + intros (H1 & H2).
      pose proof (div_bounds 60000 d 1 60 ltac:(lia) ltac:(lia)) as Hq.
      rewrite (Hge _ _ H1), (Hlt _ _ H2).
      rewrite Number_toString_small by (apply small_number; lia).
      split; [reflexivity | lia].
    + intros (H1 & H2).
      pose proof (div_bounds 3600000 d 1 2 ltac:(lia) ltac:(lia)) as Hq.
      rewrite (Hge d 60000), (Hge _ _ H1), (Hlt d 86400000), (Hlt _ _ H2) by lia.
      replace (d / 3600000) with 1 by lia. reflexivity.
    + intros (H1 & H2).
      pose proof (div_bounds 3600000 d 2 24 ltac:(lia) ltac:(lia)) as Hq.
      rewrite (Hge d 60000), (Hge d 3600000), (Hlt _ _ H2), (Hge _ _ H1) by lia.
      rewrite Number_toString_small by (apply small_number; lia).
      split; [reflexivity | lia].
    + intros H.
      now rewrite (Hge d 60000), (Hge d 3600000), (Hge _ _ H) by lia.
  - destruct (Z.le_gt_cases 0 d) as [Hpos|Hneg].
    + assert (Hd : 2 ^ 53 <= d) by lia.
      assert (H22 : 2 ^ 22 = 4194304) by reflexivity.
      assert (H31 : 2 ^ 31 = 2147483648) by reflexivity.
      pose proof (floor_div_large d 60000 Hd ltac:(lia) ltac:(lia)) as Hm.
      pose proof (floor_div_large d 3600000 Hd ltac:(lia) ltac:(lia)) as Hh.
      rewrite (num_ge_not_lt _ _ 1 Hm), (num_ge_not_lt _ _ 60 Hm),
        (num_ge_not_lt _ _ 24 Hh) by lia.
      repeat split; try (intros; exfalso; lia); try reflexivity.
    + assert (Hd : d <= - 2 ^ 53) by lia.
      rewrite (floor_div_negative d 60000 Hd) by lia.
      repeat split; try (intros; exfalso; lia); try reflexivity.
Qed.

(** ** The forms *)

Lemma fetch_eq cfg m p b w :
  fetch cfg m p b w
  = app cfg {| method := m; path := p;
               originalUrl := flat_map (fun seg => ch "/" :: seg) p;
               req_body := b |} w.
Proof. reflexivity. Qed.

Lemma response_ok_json st b :
  response_ok (json st b) = (200 <=? st) && (st <=? 299).
Proof. reflexivity. Qed.



(** What passes the guard of the two forms: a number that is neither NaN nor
    below 1. *)
Lemma hours_to_send_some value h :
  hours_to_send value = Some h <->
  h = parseInt (VStr value) /\ truthy (VNum h) = true /\ num_lt h (Num 1) = false.
Proof.
  unfold hours_to_send. cbv zeta.
  destruct (truthy (VNum (parseInt (VStr value)))) eqn:Ht,
           (num_lt (parseInt (VStr value)) (Num 1)) eqn:Hl; cbn [negb orb]; split;
    try discriminate; try (intros (-> & H1 & H2); congruence).
  intros [= <-]. auto.
Qed.

Lemma passed_hours_positive h :
  truthy (VNum h) = true -> num_lt h (Num 1) = false ->
  num_lt (Num 0) h = true /\ num_ge h (Num 1) = true.
Proof.
  destruct h as [|z|n k|[|]]; cbn [truthy num_lt num_ge fraction]; try discriminate.
  - intros _ H. apply Z.ltb_ge in H. split; [apply Z.ltb_lt | apply Z.leb_le]; lia.
  - change (2 ^ 0) with 1. intros _ H. apply Z.ltb_ge in H.
    pose proof (Z.pow_pos_nonneg 2 (Z.pos k) ltac:(lia) ltac:(lia)).
    split; [apply Z.ltb_lt | apply Z.leb_le]; lia.
  - auto.
Qed.

Lemma hours_to_send_decimal z :
  1 <= z -> z < 2 ^ 53 -> hours_to_send (decimal z) = Some (Num z).
Proof.
  intros H1 H2. apply hours_to_send_some.
  assert (Hp : parseInt (VStr (decimal z)) = Num z).
  { rewrite <- (app_nil_r (decimal z)).
    apply parseInt_decimal; [reflexivity | discriminate | lia]. }
  rewrite Hp. cbn [truthy num_lt].
  split; [reflexivity|]. split; [|apply Z.ltb_ge; lia].
  apply negb_true_iff, Z.eqb_neq. lia.
Qed.


(** [setAutoDelete]: a value whose [parseInt] is NaN or below 1 is refused on
    the page and no request is made; what passes is a number of at least 1.
    A finite number that passes also passes the server's validation: the
    timer is set to it, with the interval [hours * 60 * 60 * 1000], the data
    file is untouched, and the notification is the server's message.
    Infinity, which [parseInt] gives for digits beyond the range of numbers,
    passes on the page, is sent as [null] and refused by the server: the
    notification is the failure one and the timer stays as it was.  The
    decimal digits of an integer from 1 up to 2^53 are read as that integer,
    and its interval is 3600000 times it while that is below 2^53. *)
Theorem setAutoDelete_sets_the_timer :
  forall (cfg : Config) (value : jsstring) (w : World),
  (hours_to_send value = None ->
   setAutoDelete cfg value true w
   = (Some (Failure (str "Please enter a valid number of hours (minimum 1)")), w))
  /\ (forall hours, hours_to_send value = Some hours ->
      hours = parseInt (VStr value) /\ num_ge hours (Num 1) = true)
  /\ (forall hours, hours_to_send value = Some hours -> hours <> Inf false ->
      fst (setAutoDelete cfg value true w)
      = Some (Success (VStr (u "Auto-deletion timer set to "
                             ++ Number_toString hours ++ u " hours")))
      /\ autoDeleteTimer (snd (setAutoDelete cfg value true w))
         = Some {| timer_hours := VNum hours; intervalMs := hours_ms (VNum hours) |}
      /\ file (snd (setAutoDelete cfg value true w)) = file w)
  /\ (hours_to_send value = Some (Inf false) ->
      fst (setAutoDelete cfg value true w)
      = Some (Failure (str "Failed to set auto-deletion. Check backend connection."))
      /\ autoDeleteTimer (snd (setAutoDelete cfg value true w)) = autoDeleteTimer w
      /\ file (snd (setAutoDelete cfg value true w)) = file w)
  /\ (forall z, 1 <= z -> z < 2 ^ 53 -> hours_to_send (decimal z) = Some (Num z))
  /\ (forall z, 1 <= z -> z * 3600000 < 2 ^ 53 ->
      hours_ms (VNum (Num z)) = Num (z * 3600000)).
Proof.
  intros cfg value w. split; [|split; [|split; [|split; [|split]]]].
  - intros H. unfold setAutoDelete. now rewrite H.
  - intros hours H. apply hours_to_send_some in H. destruct H as (Hp & Ht & Hl).
    split; [exact Hp|]. now apply passed_hours_positive.
  - intros hours H Hfin.
    destruct (proj1 (hours_to_send_some _ _) H) as (_ & Ht & Hl).
    destruct (passed_hours_positive hours Ht Hl) as (Hpos & _).
    assert (Hsent : sent_number hours = VNum hours).
    { destruct hours as [|z|n k|[|]]; try reflexivity; try discriminate.
      now destruct Hfin. }
    unfold setAutoDelete. rewrite H, Hsent. cbn [negb]. rewrite fetch_eq.
    match goal with |- context [app cfg ?r w] => set (req := r) end.
    rewrite (post_auto_delete_app cfg req w (VNum hours) eq_refl eq_refl eq_refl).
    rewrite accepted_hours.
    2:{ intros Hr. apply rejected_number in Hr. congruence. }
    split; [reflexivity|]. split; reflexivity.
  - intros H. unfold setAutoDelete. rewrite H. cbn [negb sent_number]. rewrite fetch_eq.
    match goal with |- context [app cfg ?r w] => set (req := r) end.
    rewrite (post_auto_delete_app cfg req w VNull eq_refl eq_refl eq_refl).
    change (invalid_hours VNull) with true. cbv iota.
    split; [reflexivity|]. split; reflexivity.
  - apply hours_to_send_decimal.
  - intros z H1 H2. apply hours_ms_number. lia.
Qed.

(** [loadAutoDeleteSettings]: in every world, and so also after the timer was
    set to other hours, the page shows the configured hours, and the input
    field is set to them: [parseInt] reads back the number at the head of
    [currentSetting]. *)
Theorem loadAutoDeleteSettings_shows_the_configured_hours :
  forall (cfg : Config) (w : World) (z : Z),
  AUTO_DELETE_HOURS cfg = Num z -> Z.abs z < 2 ^ 53 -> z <> 0 ->
  fst (loadAutoDeleteSettings cfg w)
  = Some {| status_text := u "Auto-deletion: " ++ decimal z ++ u " hours";
            input_value := Some (Num z) |}.
Proof.
  intros cfg w z Hcfg Hsmall Hz.
  unfold loadAutoDeleteSettings. rewrite fetch_eq.
  match goal with |- context [app cfg ?r w] => set (req := r) end.
  rewrite (get_auto_delete_app cfg req w eq_refl eq_refl).
  rewrite Hcfg, (Number_toString_small z Hsmall).
  change (response_ok _) with true. cbv iota.
  change (get _ (u "currentSetting")) with (@Ok JsVal (VStr (decimal z ++ u " hours"))).
  cbv iota. cbn [fst].
  assert (Ht : or_else (VStr (decimal z ++ u " hours")) (str "24 hours")
               = VStr (decimal z ++ u " hours")).
  { unfold or_else. destruct (decimal z); reflexivity. }
  rewrite Ht. cbn [ToString].
  unfold displayed_hours. cbv zeta.
  rewrite parseInt_decimal;
    [| reflexivity | intros c r [= <- _]; split; discriminate | exact Hsmall].
  cbn [truthy]. rewrite (proj2 (Z.eqb_neq _ _) Hz). reflexivity.
Qed.




(** [checkBackendStatus]: in every world the status shown is [Connected]
    with the server's mode, also when the data file is missing or cannot be
    written, since the health route does not look at it; nothing but the clock
    changes. *)
Theorem checkBackendStatus_is_connected :
  forall (cfg : Config) (w : World),
  fst (checkBackendStatus cfg w)
  = (u "Connected (" ++ NODE_ENV cfg ++ u ")", u "status-connected")
  /\ later w (snd (checkBackendStatus cfg w)).
Proof.
  intros cfg w. unfold checkBackendStatus. rewrite fetch_eq.
  match goal with |- context [app cfg ?r w] => set (req := r) end.
  assert (Hr : find_route (routes cfg) req = Some (get_health cfg)) by reflexivity.
  rewrite (app_route _ _ _ _ Hr).
  destruct (get_health_eq cfg req (advance w)) as (ts & _ & ->).
  cbv beta iota. rewrite response_ok_json.
  change ((200 <=? 200) && (200 <=? 299)) with true. cbv iota.
  split; [reflexivity|]. cbn [snd]. apply later_advance_r, later_advance.
Qed.

(** ** Ids *)

(** The id of a created message: with a clock between 0 and 2^53 it is the
    decimal digits of a reading taken during the request, a string that is
    not empty and holds digits only, which [parseInt] reads back as the
    reading. *)
Theorem created_id_is_a_decimal_number :
  forall (cfg : Config) (req : Request) (w : World) (s : jsstring)
         (msgs : list Message),
  method req = POST -> path req = [u "messages"] ->
  get (req_body req) (u "text") = Ok (VStr s) -> trim s <> [] ->
  stored w = collection_value msgs -> writable w = true ->
  0 <= now w -> now (snd (app cfg req w)) < 2 ^ 53 ->
  exists m t,
    fst (app cfg req w) = json 201 (message_value m)
    /\ now w <= t <= now (snd (app cfg req w))
    /\ id m = decimal t
    /\ id m <> [] /\ forallb is_digit (id m) = true
    /\ parseInt (VStr (id m)) = Num t.
Proof.
  intros cfg req w s msgs Hm Hp Hget Htrim Hst Hw H0 H21.
  destruct (post_messages_app cfg req w s msgs Hm Hp Hget Htrim Hst)
    as (w1 & ts & Hl & _ & Happ).
  cbv zeta in Happ. rewrite Hw in Happ. rewrite Happ in *. cbn [fst snd] in *.
  pose proof (later_now _ _ Hl) as Hn.
  assert (Hup : now w1 <= now (advance (set_file
                   (collection_text
                      (msgs ++ [{| id := Number_toString (Num (now w1));
                                   text := trim s; timestamp := ts |}]))
                   (advance (advance w1))))).
  { pose proof (now_advance w1). pose proof (now_advance (advance w1)).
    match goal with |- _ <= now (advance ?x) => pose proof (now_advance x) as Hx end.
    change (now (set_file _ (advance (advance w1))))
      with (now (advance (advance w1))) in Hx. lia. }
  assert (Hsmall : Z.abs (now w1) < 2 ^ 53) by lia.
  eexists _, (now w1). split; [reflexivity|]. cbn [id].
  rewrite (Number_toString_small _ Hsmall).
  destruct (decimal_nonnegative (now w1)) as (A & B); [lia|].
  repeat split; try assumption; try lia.
  rewrite <- (app_nil_r (decimal (now w1))).
  apply parseInt_decimal; [reflexivity | discriminate | exact Hsmall].
Qed.

(** ** The order of the list *)

Lemma insert_perm cmp x l : Permutation (x :: l) (insert cmp x l).
Proof.
  induction l as [|y l IH]; [apply Permutation_refl|].
  cbn [insert]. destruct (num_lt (Num 0) (cmp x y)).
  - eapply Permutation_trans; [apply perm_swap|]. now apply perm_skip.
  - apply Permutation_refl.
Qed.

Lemma sort_perm cmp l : Permutation l (sort cmp l).
Proof.
  induction l as [|x l IH]; [apply Permutation_refl|].
  unfold sort in *. cbn [fold_right].
  eapply Permutation_trans; [|apply insert_perm]. now apply perm_skip.
Qed.

Lemma newest_first_positive x y :
  num_lt (Num 0) (newest_first x y) = true <->
  exists tx ty, Date_parse (timestamp x) = Num tx
                /\ Date_parse (timestamp y) = Num ty /\ tx < ty.
Proof.
  unfold newest_first.
  destruct (Date_parse_cases (timestamp y)) as [Hy|(ty & Hy)],
           (Date_parse_cases (timestamp x)) as [Hx|(tx & Hx)]; rewrite Hx, Hy;
    cbn [num_sub]; try rewrite round_Z_lt_0; cbn [num_lt]; split; try discriminate;
    try (intros (a & b & H1 & H2 & _); discriminate).
  - intros H. apply Z.ltb_lt in H. exists tx, ty. repeat split. lia.
  - intros (a & b & [= <-] & [= <-] & H). apply Z.ltb_lt. lia.
Qed.

Lemma filter_insert (p : Message -> bool) x l :
  (forall a b, num_lt (Num 0) (newest_first a b) = true -> p a = true -> p b = false) ->
  filter p (insert newest_first x l) = filter p (x :: l).
Proof.
  intros Hp. induction l as [|y l IH]; [reflexivity|].
  cbn [insert]. destruct (num_lt (Num 0) (newest_first x y)) eqn:Hc; [|reflexivity].
  cbn [filter] in *. rewrite IH.
  destruct (p x) eqn:Hx; [|reflexivity].
  now rewrite (Hp x y Hc Hx).
Qed.

(** The order [loadMessages] displays: for messages whose time stamps all are
    dates, the sorted list holds the same messages, newest first, and messages
    of one and the same time keep the order the server sent them in. *)
Theorem sorted_list_is_newest_first :
  forall msgs : list Message,
  Forall (fun m => exists t, Date_parse (timestamp m) = Num t) msgs ->
  Permutation msgs (sort newest_first msgs)
  /\ StronglySorted
       (fun a b => exists ta tb, Date_parse (timestamp a) = Num ta
                                 /\ Date_parse (timestamp b) = Num tb /\ tb <= ta)
       (sort newest_first msgs)
  /\ forall t,
       filter (fun m => match Date_parse (timestamp m) with
                        | Num x => x =? t
                        | _ => false
                        end) (sort newest_first msgs)
       = filter (fun m => match Date_parse (timestamp m) with
                          | Num x => x =? t
                          | _ => false
                          end) msgs.
Proof.
  intros msgs Hall. split; [apply sort_perm|]. split.
  - induction Hall as [|x l (tx & Hx) Hl IH]; [constructor|].
    unfold sort in *. cbn [fold_right].
    set (sorted := fold_right (insert newest_first) [] l) in *.
    assert (Hvalid : Forall (fun m => exists t, Date_parse (timestamp m) = Num t) sorted).
    { eapply Permutation_Forall; [apply (sort_perm newest_first l) | exact Hl]. }
    clearbody sorted. clear Hl l.
    induction IH as [|y l Hsorted IHl Hy]; [repeat constructor|].
    cbn [insert]. inversion Hvalid as [|? ? (ty & Hty) Hvl]; subst.
    destruct (num_lt (Num 0) (newest_first x y)) eqn:Hc.
    + apply newest_first_positive in Hc.
      destruct Hc as (tx' & ty' & Hx' & Hy' & Hlt).
      constructor; [now apply IHl|].
      eapply Permutation_Forall; [apply insert_perm|].
      constructor; [|exact Hy].
      exists ty', tx'. repeat split; try assumption. lia.
    + constructor; [now constructor|].
      assert (Hle : ty <= tx).
      { destruct (Z.le_gt_cases ty tx) as [H|H]; [exact H|].
        assert (Hpos : num_lt (Num 0) (newest_first x y) = true).
        { apply newest_first_positive. exists tx, ty. now repeat split. }
        congruence. }
      constructor.
      * exists tx, ty. now repeat split.
      * eapply Forall_impl; [|exact Hy].
        intros z (ty' & tz & Hy' & Hz & Hzy). cbv beta.
        exists tx, tz. repeat split; try assumption.
        rewrite Hty in Hy'. injection Hy' as <-. lia.
  - intros t. clear Hall. induction msgs as [|x l IH]; [reflexivity|].
    unfold sort in *. cbn [fold_right]. rewrite filter_insert.
    + cbn [filter]. now rewrite IH.
    + intros a b Hc Ha. apply newest_first_positive in Hc.
      destruct Hc as (ta & tb & Hta & Htb & Hlt). rewrite Hta in Ha. rewrite Htb.
      apply Z.eqb_eq in Ha. apply Z.eqb_neq. lia.
Qed.

End WithEngine.
End BrowserFacts.

(** ** Escaping *)

Module EscapeFacts.
Import Js Client ClientFacts.
Local Open Scope list_scope.

Lemma escape_char_head a b r1 r2 :
  escape_char a ++ r1 = escape_char b ++ r2 -> a = b /\ r1 = r2.
Proof.
  unfold escape_char, char_eqb.
  destruct (N.eqb_spec a (ch "&")) as [->|A1];
    [|destruct (N.eqb_spec a (ch "<")) as [->|A2];
      [|destruct (N.eqb_spec a (ch ">")) as [->|A3];
        [|destruct (N.eqb_spec a dquote) as [->|A4];
          [|destruct (N.eqb_spec a (ch "'")) as [->|A5]]]]];
  (destruct (N.eqb_spec b (ch "&")) as [->|B1];
    [|destruct (N.eqb_spec b (ch "<")) as [->|B2];
      [|destruct (N.eqb_spec b (ch ">")) as [->|B3];
        [|destruct (N.eqb_spec b dquote) as [->|B4];
          [|destruct (N.eqb_spec b (ch "'")) as [->|B5]]]]]);
  cbn [u map list_ascii_of_string Datatypes.app]; intros H;
  try (injection H as H; first [discriminate | congruence | now split]);
  try (injection H; intros; subst; first [discriminate | congruence | now split]).
Qed.

Lemma escape_char_not_nil c : escape_char c <> [].
Proof.
  destruct (escape_char_cases c) as [(-> & _)|H]; [discriminate|].
  destruct (entity_shape _ H) as (t & -> & _). discriminate.
Qed.

(** [escapeHtml] loses nothing: two texts with the same escaped form are the
    same text; and a text without any of the five characters is its own
    escaped form. *)
Theorem escapeHtml_is_injective :
  (forall a b : jsstring, escapeHtml a = escapeHtml b -> a = b)
  /\ (forall s : jsstring,
        (forall c, In c s ->
           c <> ch "&" /\ c <> ch "<" /\ c <> ch ">" /\ c <> dquote /\ c <> ch "'") ->
        escapeHtml s = s).
Proof.
  split.
  - intros a b. rewrite !escapeHtml_flat_map. revert b.
    induction a as [|x a IH]; intros [|y b] H; cbn [flat_map] in H.
    + reflexivity.
    + symmetry in H. apply app_eq_nil in H. now destruct (escape_char_not_nil y).
    + apply app_eq_nil in H. now destruct (escape_char_not_nil x).
    + apply escape_char_head in H. destruct H as (-> & H). f_equal. now apply IH.
  - intros s Hs. rewrite escapeHtml_flat_map.
    induction s as [|c s IH]; [reflexivity|].
    cbn [flat_map]. rewrite IH by (intros x Hx; apply Hs; now right).
    destruct (Hs c (or_introl eq_refl)) as (H1 & H2 & H3 & H4 & H5).
    unfold escape_char, char_eqb.
    rewrite (proj2 (N.eqb_neq _ _) H1), (proj2 (N.eqb_neq _ _) H2),
      (proj2 (N.eqb_neq _ _) H3), (proj2 (N.eqb_neq _ _) H4),
      (proj2 (N.eqb_neq _ _) H5).
    reflexivity.
Qed.

End EscapeFacts.

(** ** Logging and the set-up of the data file *)

Module StartupFacts.
Import Js Json JsDate Server Layout Startup.
Import JsonFacts StoreFacts DateFacts NumberFacts ServerFacts MoreFacts RouteFacts.
Local Open Scope string_scope.
Local Open Scope list_scope.
Local Open Scope Z_scope.

Section WithEngine.
Context {E : Engine}.

(** Which lines [log] prints.  An error is printed at every [LOG_LEVEL].  At
    [info], the default, every line is printed, those of level [debug]
    included.  At [debug] only the lines of the levels [error] and [debug]
    are printed, those of [info] and [warn] are not.  At any other
    [LOG_LEVEL] only errors are printed.  A printed line is the ISO time in
    brackets, the level in capitals, a colon and the message. *)
Theorem log_levels :
  forall (LOG_LEVEL : jsstring) (t : Z) (level : Level) (message : jsstring),
  exists timestamp,
    toISOString (Num t) = Ok timestamp /\
    let line := u "[" ++ timestamp ++ u "] " ++ level_upper level ++ u ": " ++ message in
    (level = error -> log_line LOG_LEVEL t level message = Ok (Some line))
    /\ (LOG_LEVEL = u "info" -> log_line LOG_LEVEL t level message = Ok (Some line))
    /\ (LOG_LEVEL = u "debug" ->
        log_line LOG_LEVEL t level message
        = Ok (match level with
              | error | debug => Some line
              | info | warn => None
              end))
    /\ (LOG_LEVEL <> u "info" -> LOG_LEVEL <> u "debug" -> level <> error ->
        log_line LOG_LEVEL t level message = Ok None)
    /\ (forall env, env (u "LOG_LEVEL") = None \/ env (u "LOG_LEVEL") = Some [] ->
        log_level env = u "info").
Proof.
  intros L t level message.
  destruct (toISOString_ok t) as (ts & Hts). exists ts. split; [exact Hts|].
  cbv zeta. unfold log_line. rewrite Hts.
  split; [|split; [|split; [|split]]].
  - intros ->. reflexivity.
  - intros ->. destruct level; reflexivity.
  - intros ->. destruct level; reflexivity.
  - intros H1 H2 H3.
    rewrite (proj2 (str_eqb_neq _ _) H1), (proj2 (str_eqb_neq _ _) H2).
    destruct level; try reflexivity. contradiction.
  - intros env [H|H]; unfold log_level; rewrite H; reflexivity.
Qed.

(** The configuration.  A variable that is set to the empty string counts as
    not set, for every option and for [LOG_LEVEL].  The configured hours are
    a number that is neither NaN nor 0, whatever the environment holds: what
    [parseInt] reads, or 24 when that is NaN or 0, as it is for a variable
    that is not set, empty or [0].  An integer other than 0 in the variable,
    a negative one too, is taken as it is. *)
Theorem empty_variables_count_as_unset :
  forall (env : jsstring -> option jsstring) (default_data_file : jsstring),
  let unset_empty := fun k => match env k with Some [] => None | x => x end in
  let hours := AUTO_DELETE_HOURS (load_config env default_data_file) in
  load_config env default_data_file = load_config unset_empty default_data_file
  /\ log_level env = log_level unset_empty
  /\ truthy (VNum hours) = true
  /\ (env (u "AUTO_DELETE_HOURS") = None \/ env (u "AUTO_DELETE_HOURS") = Some []
      \/ env (u "AUTO_DELETE_HOURS") = Some (u "0") -> hours = Num 24)
  /\ (forall z, z <> 0 -> Z.abs z < 2 ^ 53 ->
      env (u "AUTO_DELETE_HOURS") = Some (decimal z) -> hours = Num z).
Proof.
  intros env d. cbv zeta. split; [|split; [|split; [|split]]].
  - unfold load_config.
    destruct (env (u "PORT")) as [[|? ?]|], (env (u "DATA_FILE")) as [[|? ?]|],
      (env (u "NODE_ENV")) as [[|? ?]|], (env (u "CORS_ORIGINS")) as [[|? ?]|],
      (env (u "AUTO_DELETE_HOURS")) as [[|? ?]|]; reflexivity.
  - unfold log_level. destruct (env (u "LOG_LEVEL")) as [[|? ?]|]; reflexivity.
  - cbn [load_config AUTO_DELETE_HOURS].
    destruct (truthy (VNum (parseInt (env_value (env (u "AUTO_DELETE_HOURS")))))) eqn:Ht;
      [exact Ht | reflexivity].
  - cbn [load_config AUTO_DELETE_HOURS]. intros [H|[H|H]]; rewrite H; reflexivity.
  - intros z Hz Hsmall H. cbn [load_config AUTO_DELETE_HOURS]. rewrite H.
    cbn [env_value]. rewrite <- (app_nil_r (decimal z)).
    rewrite parseInt_decimal; [| reflexivity | discriminate | exact Hsmall].
    cbn [truthy]. now rewrite (proj2 (Z.eqb_neq _ _) Hz).
Qed.






End WithEngine.
End StartupFacts.

(* ================================================================== *)
(** * The further definitions at work on small inputs *)
(* ================================================================== *)

Module MoreChecks.
Import Js Json JsDate Server Layout Client Middleware Startup Browser.
Import Examples MoreExamples.
Local Open Scope string_scope.
Local Open Scope list_scope.
Local Open Scope Z_scope.

#[local] Existing Instance example_engine.

Example formatTimestamp_just_now :
  formatTimestamp example_locale 1700000000000 (VStr (timestamp hello_again))
  = u "Just now".
Proof. vm_compute. reflexivity. Qed.

Example formatTimestamp_minutes :
  formatTimestamp example_locale 1700003900000 (VStr (timestamp hello_again))
  = u "5 min ago".
Proof. vm_compute. reflexivity. Qed.

Example formatTimestamp_one_hour :
  formatTimestamp example_locale later_clock (VStr (timestamp hello_again))
  = u "1 hour ago".
Proof. vm_compute. reflexivity. Qed.

Example formatTimestamp_hours :
  formatTimestamp example_locale later_clock (VStr (timestamp hello)) = u "2 hours ago".
Proof. vm_compute. reflexivity. Qed.

Example formatTimestamp_locale :
  formatTimestamp example_locale 1800000000000 (VStr (timestamp hello)) = u "(locale)".
Proof. vm_compute. reflexivity. Qed.

(** Newest first; the two messages of one time in the order they came. *)
Example sort_example :
  sort newest_first [hello; hello_again; hello_too] = [hello_again; hello_too; hello].
Proof. vm_compute. reflexivity. Qed.

Example production_origins :
  CORS_ORIGINS production_config = [u "https://a.example"; u "https://b.example"].
Proof. vm_compute. reflexivity. Qed.

Example cors_examples :
  cors_origin production_config (Some (u "https://evil.example")) = false
  /\ cors_origin production_config (Some (u "https://b.example")) = true
  /\ cors_origin production_config None = true
  /\ cors_origin example_config (Some (u "https://evil.example")) = true.
Proof. repeat split; vm_compute; reflexivity. Qed.

(** A refused origin: the create request is answered 500 and stores nothing. *)
Example refused_origin_stores_nothing :
  fst (serve production_config (Some (u "https://evil.example")) (post_text "x")
         example_world)
  = json 500 (obj [("error", str "Internal server error");
                   ("message", str "Something went wrong")])
  /\ file (snd (serve production_config (Some (u "https://evil.example")) (post_text "x")
                  example_world))
     = file example_world.
Proof. split; vm_compute; reflexivity. Qed.

Example log_line_debug_hides_info : log_line (u "debug") 0 info (u "x") = Ok None.
Proof. vm_compute. reflexivity. Qed.

Example log_line_info_shows_debug :
  log_line (u "info") 0 debug (u "x")
  = Ok (Some (u "[1970-01-01T00:00:00.000Z] DEBUG: x")).
Proof. vm_compute. reflexivity. Qed.

(** The first start: the data file is created empty. *)
Example ensureDataDirectory_creates_the_file :
  file (snd (ensureDataDirectory fresh_disk fresh_world)) = Some (u "[]")
  /\ stored (snd (ensureDataDirectory fresh_disk fresh_world)) = VArr [].
Proof. split; vm_compute; reflexivity. Qed.

Example ensureDataDirectory_keeps_the_file :
  file (snd (ensureDataDirectory
               {| dir_exists := true; mkdir_succeeds := false; stat_succeeds := true;
                  file_exists := true; dir_access := true; file_access := true |}
               example_world))
  = file example_world.
Proof. vm_compute. reflexivity. Qed.

(** What the hours fields accept: [parseInt] reads a prefix. *)
Example hours_to_send_examples :
  hours_to_send (u "5 apples") = Some (Num 5)
  /\ hours_to_send (u "1.9") = Some (Num 1)
  /\ hours_to_send (u "0x10") = Some (Num 16)
  /\ hours_to_send (u "0") = None
  /\ hours_to_send (u "-3") = None
  /\ hours_to_send (u "abc") = None.
Proof. repeat split; vm_compute; reflexivity. Qed.

Example text_to_send_examples :
  text_to_send (u "  hi  ") = Some (u "hi") /\ text_to_send (u "   ") = None.
Proof. split; vm_compute; reflexivity. Qed.

(** The older-than button in the example world, whose messages are one and
    two hours old. *)
Example clearMessagesOlderThan_example :
  fst (clearMessagesOlderThan example_config (u "1") true example_world)
  = Some (Success (str "No messages found older than the specified time"))
  /\ stored (snd (clearMessagesOlderThan example_config (u "1") true example_world))
     = collection_value [hello; hello_again].
Proof. split; vm_compute; reflexivity. Qed.

(** Setting five hours, then loading the settings: the page shows 24. *)
Example settings_after_setAutoDelete :
  fst (setAutoDelete example_config (u "5") true example_world)
  = Some (Success (str "Auto-deletion timer set to 5 hours"))
  /\ fst (loadAutoDeleteSettings example_config
            (snd (setAutoDelete example_config (u "5") true example_world)))
     = Some {| status_text := u "Auto-deletion: 24 hours";
               input_value := Some (Num 24) |}.
Proof. split; vm_compute; reflexivity. Qed.

Example addMessage_read_only :
  fst (addMessage example_config (u "x") read_only_world)
  = Failure (str "Failed to save message").
Proof. vm_compute. reflexivity. Qed.

(** A data file that holds a string: the timer's callback throws. *)
Example sweep_on_a_string_throws :
  fst (sweep {| timer_hours := VNum (Num 1); intervalMs := Num 3600000 |} string_world)
  = Throw TypeError.
Proof. vm_compute. reflexivity. Qed.

Example checkBackendStatus_read_only :
  fst (checkBackendStatus example_config read_only_world)
  = (u "Connected (development)", u "status-connected").
Proof. vm_compute. reflexivity. Qed.

(** Negative hours are taken as they are. *)
Example negative_hours_are_configured :
  AUTO_DELETE_HOURS
    (load_config (fun k => if str_eqb k (u "AUTO_DELETE_HOURS") then Some (u "-5") else None)
                 (u "data/messages.json"))
  = Num (-5).
Proof. reflexivity. Qed.

Example escapeHtml_plain_text : escapeHtml (u "hello world") = u "hello world".
Proof. reflexivity. Qed.

(** The routes compare letters without their case and allow a last slash. *)
Example delete_all_in_capitals :
  stored (snd (app example_config (request DELETE ["Messages"] (VObj [])) example_world))
  = VArr [].
Proof. vm_compute. reflexivity. Qed.

Example delete_all_with_a_last_slash :
  stored (snd (app example_config (request DELETE ["messages"; ""] (VObj []))
                 example_world))
  = VArr [].
Proof. vm_compute. reflexivity. Qed.

(** The id is the decoded parameter; one that does not decode is an error
    before any handler runs, whatever the method. *)
Example decodeURIComponent_examples :
  decodeURIComponent (u "a%20b") = Some (u "a b")
  /\ decodeURIComponent (u "%C3%A9") = Some [233%N]
  /\ decodeURIComponent (u "%zz") = None
  /\ decodeURIComponent (u "%C3") = None.
Proof. repeat split; vm_compute; reflexivity. Qed.

Example undecodable_id_is_500 :
  fst (app example_config (request GET ["messages"; "%zz"] (VObj [])) example_world)
  = json 500 (obj [("error", str "Internal server error");
                   ("message", str "Failed to decode param '%zz'")])
  /\ file (snd (app example_config (delete_id "%zz") example_world)) = file example_world.
Proof. split; vm_compute; reflexivity. Qed.

(** Numbers are rounded from 2^53 on, and digits beyond their range read as
    Infinity, which the page lets through and the server refuses. *)
Example parseInt_rounds : parseInt (VStr (u "9007199254740993")) = Num 9007199254740992.
Proof. vm_compute. reflexivity. Qed.

Example rounding_examples :
  round_ratio 1 10 = Frac 1801439850948198 55
  /\ round_Z (2 ^ 53 + 1) = Num (2 ^ 53)
  /\ round_Z (2 ^ 53 + 3) = Num (2 ^ 53 + 4)
  /\ round_Z (2 ^ 1024) = Inf false
  /\ num_mul (Frac 0 1) (Num 3) = Frac 1 1.
Proof. repeat split; vm_compute; reflexivity. Qed.

Example infinite_hours_are_refused :
  hours_to_send (repeat (ch "9") 400) = Some (Inf false)
  /\ fst (setAutoDelete example_config (repeat (ch "9") 400) true example_world)
     = Some (Failure (str "Failed to set auto-deletion. Check backend connection.")).
Proof. split; vm_compute; reflexivity. Qed.

(** Hours written as digits in a string pass, the string [0] too, while the
    number 0 does not. *)
Example digit_strings_pass :
  status (fst (app example_config (post_auto_delete_hours (str "5")) example_world)) = 200
  /\ status (fst (app example_config (post_auto_delete_hours (str "0")) example_world)) = 200
  /\ status (fst (app example_config (post_auto_delete_hours (VNum (Num 0)))
                    example_world)) = 400
  /\ status (fst (app example_config (post_auto_delete_hours (VNum (Frac 0 1)))
                    example_world)) = 200.
Proof. repeat split; vm_compute; reflexivity. Qed.

(** The empty id on the page: the request deletes every message. *)
Example deleteMessage_of_the_empty_id :
  option_map (fun r => stored (snd r)) (deleteMessage example_config [] true example_world)
  = Some (VArr []).
Proof. vm_compute. reflexivity. Qed.

End MoreChecks.

(* ================================================================== *)
(** * The further theorems at work on the example worlds *)
(* ================================================================== *)

Module MoreInstances.
Import Js Json JsDate Server Layout Client Middleware Startup Browser.
Import Examples MoreExamples.
Import JsonFacts StoreFacts DateFacts ServerFacts MoreFacts Instances.
Import TrimFacts RouteFacts NumberFacts MiddlewareFacts BrowserFacts StartupFacts.
Local Open Scope string_scope.
Local Open Scope list_scope.
Local Open Scope Z_scope.

#[local] Existing Instance example_engine.

(** The health route answers 200 also when the file cannot be written. *)
Lemma health_is_always_ok_witness :
  status (fst (app example_config get_health_request read_only_world)) = 200.
Proof.
  destruct (health_is_always_ok example_config get_health_request read_only_world
              eq_refl eq_refl) as (t & ts & _ & _ & _ & H).
  rewrite H. reflexivity.
Defined.


(** A number as the text of a message. *)
Lemma thrown_errors_witness :
  status (fst (app example_config post_number example_world)) = 500
  /\ file (snd (app example_config post_number example_world)) = file example_world.
Proof.
  destruct (thrown_errors_are_answered_500 example_config post_number example_world
              eq_refl eq_refl) as (H & _ & Hf).
  - right. right. exists (VNum (Num 5)).
    split; [reflexivity|]. split; [reflexivity | discriminate].
  - rewrite H. split; [reflexivity | exact Hf].
Defined.

(** A data file that holds an object. *)
Lemma file_without_an_array_witness :
  fst (app example_config get_all object_world) = json 200 (VObj [])
  /\ status (fst (app example_config (post_text "hi") object_world)) = 500.
Proof.
  assert (Hna : forall items, stored object_world <> VArr items)
    by (intros items; vm_compute; discriminate).
  destruct (file_without_an_array_is_not_fail_soft example_config object_world Hna)
    as (Hget & Hpost & _).
  split.
  - apply (Hget get_all eq_refl eq_refl).
  - destruct (Hpost (post_text "hi") (u "hi") eq_refl eq_refl eq_refl
                ltac:(discriminate)) as (H & _).
    rewrite H. reflexivity.
Defined.

(** Creating [hi] and deleting it again. *)
Lemma create_then_delete_witness :
  stored (snd (app example_config (delete_id "1700007200001")
                 (snd (app example_config (post_text "  hi  ") example_world))))
  = collection_value [hello; hello_again].
Proof.
  assert (Hres : fst (app example_config (post_text "  hi  ") example_world)
                 = json 201 (message_value hi)) by (vm_compute; reflexivity).
  assert (Hfresh : Forall (fun x => id x <> id hi) [hello; hello_again])
    by (repeat constructor; discriminate).
  exact (proj2 (proj2 (create_then_delete_restores example_config (post_text "  hi  ")
                         (delete_id "1700007200001") example_world (u "  hi  ")
                         [hello; hello_again] hi eq_refl eq_refl eq_refl
                         ltac:(discriminate) example_world_stored eq_refl
                         ltac:(discriminate) eq_refl Hres Hfresh eq_refl eq_refl))).
Defined.


(** Setting the timer to half an hour. *)
Lemma reconfigured_timer_witness :
  exists t,
    autoDeleteTimer
      (snd (app example_config (post_auto_delete_hours (VNum (Frac 0 1))) example_world))
    = Some t
    /\ intervalMs t = Num 1800000.
Proof.
  assert (Hok : ~ rejected_hours (VNum (Frac 0 1))).
  { intros H. apply rejected_fraction in H. lia. }
  destruct (reconfigured_timer_sweeps_by_the_new_hours example_config
              (post_auto_delete_hours (VNum (Frac 0 1))) example_world (VNum (Frac 0 1))
              eq_refl eq_refl eq_refl Hok) as (t & H1 & _ & H2 & _).
  exists t. split; [exact H1 | rewrite H2; reflexivity].
Defined.

Lemma example_texts_trimmed :
  Forall (fun m => trimmed (text m)) [hello; hello_again].
Proof. repeat constructor; discriminate. Qed.

(** Three requests in the example world. *)
Lemma stored_collection_witness :
  exists msgs,
    stored (run example_config
              [post_text "  hi  "; delete_id "1700000000000"; post_number]
              example_world)
    = collection_value msgs
    /\ Forall (fun m => trimmed (text m)) msgs.
Proof.
  destruct (stored_collection_stays_well_formed example_config example_world
              [hello; hello_again] example_world_stored example_texts_trimmed)
    as (_ & H).
  exact (H [post_text "  hi  "; delete_id "1700000000000"; post_number]).
Defined.


(** The page of a server configured with 24 hours. *)
Lemma loadAutoDeleteSettings_witness :
  fst (loadAutoDeleteSettings example_config example_world)
  = Some {| status_text := u "Auto-deletion: 24 hours"; input_value := Some (Num 24) |}.
Proof.
  apply (loadAutoDeleteSettings_shows_the_configured_hours example_config example_world 24).
  - reflexivity.
  - vm_compute. reflexivity.
  - discriminate.
Defined.


(** The id of the message created in the example world. *)
Lemma created_id_witness :
  exists m t,
    fst (app example_config (post_text "  hi  ") example_world)
    = json 201 (message_value m)
    /\ id m = decimal t /\ forallb is_digit (id m) = true.
Proof.
  assert (H0 : 0 <= now example_world) by (vm_compute; discriminate).
  assert (H21 : now (snd (app example_config (post_text "  hi  ") example_world))
                < 2 ^ 53) by (vm_compute; reflexivity).
  destruct (created_id_is_a_decimal_number example_config (post_text "  hi  ")
              example_world (u "  hi  ") [hello; hello_again]
              eq_refl eq_refl eq_refl ltac:(discriminate) example_world_stored
              eq_refl H0 H21)
    as (m & t & H1 & _ & H2 & _ & H3 & _).
  exists m, t. repeat split; assumption.
Defined.

(** The three example messages, sorted. *)
Lemma sorted_list_witness :
  Permutation [hello; hello_again; hello_too]
    (sort newest_first [hello; hello_again; hello_too]).
Proof.
  apply sorted_list_is_newest_first.
  repeat constructor; eexists; vm_compute; reflexivity.
Defined.

End MoreInstances.
